(** * Ludik Gifts backend: calibration, sampling, upgrade odds and ledger

    A shallow embedding of [app.py] and the properties of its
    probability calibrator, outcome sampler, upgrade chance model,
    authentication check and ledger handlers, of the start-up population
    of the gift table, the account page, the leaderboard and the start
    command of the bot.

    Conventions of the embedding.

    - Currency amounts, valuations and probabilities are rationals [Q].
      A Python [Decimal] is represented by the rational it denotes and the
      [Decimal] operations by the exact operations on [Q]; the rounding of
      the [Decimal] context to 28 significant digits and the binary rounding
      of [float(...)] where a value is stored or returned are not
      represented.  [Decimal(str(x))] of a stored float is the decimal that
      the float prints as, so a stored amount is represented by that decimal.
      Numeric statements use [==] on [Q].
    - A Python [str] is a [string] of bytes; case mapping and the white
      space class are those of the ASCII range.
    - A table of the database is the list of its rows; a query with
      [.first()] is the first row that passes the filter.
    - A Python [dict] with string keys is a [gmap string _].
    - What a handler reads from outside (the random generator, the answer
      of the fulfillment service, the verified identity) is an argument of
      the handler. *)

From Stdlib Require Import QArith Qabs Lqa Lia ZArith Ascii String.
From stdpp Require Import gmap strings list fin_maps pretty sorting.

Local Open Scope Q_scope.
Local Open Scope string_scope.

(** ** Arithmetic helpers *)

Definition Qlt_bool (x y : Q) : bool := negb (Qle_bool y x).

(** Python's [sum]: a left fold that starts from [0].  The running total is
    kept in lowest terms, which does not change its value. *)
Definition Qplus_red (acc x : Q) : Q := Qred (acc + x).
Definition py_sum (l : list Q) : Q := fold_left Qplus_red l 0.

(** Python's [max(a, b)] and [min(a, b)]: the first argument is kept unless
    the second is strictly larger (smaller). *)
Definition py_max (a b : Q) : Q := if Qlt_bool a b then b else a.
Definition py_min (a b : Q) : Q := if Qlt_bool b a then b else a.

(** Python's [min(iterable, key=..., default=None)]: the first element
    whose key is the smallest. *)
Definition py_min_by {A : Type} (key : A -> Q) (l : list A) : option A :=
  match l with
  | [] => None
  | x :: l' =>
      Some (fold_left (fun best y => if Qlt_bool (key y) (key best) then y else best) l' x)
  end.

(** Python's [sorted(l, key=..., reverse=True)]: descending and stable
    (elements with equal keys keep their order). *)
Fixpoint insert_desc {A : Type} (key : A -> Q) (x : A) (l : list A) : list A :=
  match l with
  | [] => [x]
  | y :: l' => if Qle_bool (key y) (key x) then x :: y :: l' else y :: insert_desc key x l'
  end.

Definition sorted_desc {A : Type} (key : A -> Q) (l : list A) : list A :=
  foldr (insert_desc key) [] l.

(** The float literal [1e-7]: its exact binary64 value, a little below
    the decimal 0.0000001. *)
Definition float_1e_7 : Q := 944473296573929 # (2 ^ 73).

(** ** Configuration constants *)

Definition AUTH_DATE_MAX_AGE_SECONDS : Z := 3600 * 24.
Definition WITHDRAWAL_SENDER_USERNAME : string := "pusikSupport".
Definition UPGRADE_MAX_CHANCE : Q := 75.0.
Definition UPGRADE_MIN_CHANCE : Q := 3.0.
Definition UPGRADE_RISK_FACTOR : Q := 0.60.
Definition RTP_TARGET : Q := 0.88.

(** ** Gift data and image references *)

Definition TON_PRIZE_IMAGE_DEFAULT : string :=
  "https://case-bot.com/images/actions/ton.svg".

Definition GIFT_NAME_TO_ID_MAP_PY : gmap string string :=
  list_to_map [
    ("Santa Hat", "5983471780763796287"); ("Signet Ring", "5936085638515261992");
    ("Precious Peach", "5933671725160989227"); ("Plush Pepe", "5936013938331222567");
    ("Spiced Wine", "5913442287462908725"); ("Jelly Bunny", "5915502858152706668");
    ("Durov's Cap", "5915521180483191380"); ("Perfume Bottle", "5913517067138499193");
    ("Eternal Rose", "5882125812596999035"); ("Berry Box", "5882252952218894938");
    ("Vintage Cigar", "5857140566201991735"); ("Magic Potion", "5846226946928673709");
    ("Kissed Frog", "5845776576658015084"); ("Hex Pot", "5825801628657124140");
    ("Evil Eye", "5825480571261813595"); ("Sharp Tongue", "5841689550203650524");
    ("Trapped Heart", "5841391256135008713"); ("Skull Flower", "5839038009193792264");
    ("Scared Cat", "5837059369300132790"); ("Spy Agaric", "5821261908354794038");
    ("Homemade Cake", "5783075783622787539"); ("Genie Lamp", "5933531623327795414");
    ("Lunar Snake", "6028426950047957932"); ("Party Sparkler", "6003643167683903930");
    ("Jester Hat", "5933590374185435592"); ("Witch Hat", "5821384757304362229");
    ("Hanging Star", "5915733223018594841"); ("Love Candle", "5915550639663874519");
    ("Cookie Heart", "6001538689543439169"); ("Desk Calendar", "5782988952268964995");
    ("Jingle Bells", "6001473264306619020"); ("Snow Mittens", "5980789805615678057");
    ("Voodoo Doll", "5836780359634649414"); ("Mad Pumpkin", "5841632504448025405");
    ("Hypno Lollipop", "5825895989088617224"); ("B-Day Candle", "5782984811920491178");
    ("Bunny Muffin", "5935936766358847989"); ("Astral Shard", "5933629604416717361");
    ("Flying Broom", "5837063436634161765"); ("Crystal Ball", "5841336413697606412");
    ("Eternal Candle", "5821205665758053411"); ("Swiss Watch", "5936043693864651359");
    ("Ginger Cookie", "5983484377902875708"); ("Mini Oscar", "5879737836550226478");
    ("Lol Pop", "5170594532177215681"); ("Ion Gem", "5843762284240831056");
    ("Star Notepad", "5936017773737018241"); ("Loot Bag", "5868659926187901653");
    ("Love Potion", "5868348541058942091"); ("Toy Bear", "5868220813026526561");
    ("Diamond Ring", "5868503709637411929"); ("Sakura Flower", "5167939598143193218");
    ("Sleigh Bell", "5981026247860290310"); ("Top Hat", "5897593557492957738");
    ("Record Player", "5856973938650776169"); ("Winter Wreath", "5983259145522906006");
    ("Snow Globe", "5981132629905245483"); ("Electric Skull", "5846192273657692751");
    ("Tama Gadget", "6023752243218481939"); ("Candy Cane", "6003373314888696650");
    ("Neko Helmet", "5933793770951673155"); ("Jack-in-the-Box", "6005659564635063386");
    ("Easter Egg", "5773668482394620318"); ("Bonded Ring", "5870661333703197240");
    ("Pet Snake", "6023917088358269866"); ("Snake Box", "6023679164349940429");
    ("Xmas Stocking", "6003767644426076664"); ("Big Year", "6028283532500009446");
    ("Gem Signet", "5859442703032386168"); ("Light Sword", "5897581235231785485");
    ("Restless Jar", "5870784783948186838"); ("Nail Bracelet", "5870720080265871962");
    ("Heroic Helmet", "5895328365971244193"); ("Bow Tie", "5895544372761461960");
    ("Heart Locket", "5868455043362980631"); ("Lush Bouquet", "5871002671934079382");
    ("Whip Cupcake", "5933543975653737112"); ("Joyful Bundle", "5870862540036113469");
    ("Cupid Charm", "5868561433997870501"); ("Valentine Box", "5868595669182186720");
    ("Snoop Dogg", "6014591077976114307"); ("Swag Bag", "6012607142387778152");
    ("Snoop Cigar", "6012435906336654262"); ("Low Rider", "6014675319464657779");
    ("Westside Sign", "6014697240977737490") ].

Definition ascii_upper (c : ascii) : ascii :=
  let n := N_of_ascii c in
  if ((97 <=? n) && (n <=? 122))%N then ascii_of_N (n - 32) else c.

Definition ascii_lower (c : ascii) : ascii :=
  let n := N_of_ascii c in
  if ((65 <=? n) && (n <=? 90))%N then ascii_of_N (n + 32) else c.

(** The class [\s] of [re] on the ASCII range. *)
Definition ascii_is_space (c : ascii) : bool :=
  let n := N_of_ascii c in
  (((9 <=? n) && (n <=? 13)) || ((28 <=? n) && (n <=? 32)))%N.

Fixpoint str_map (f : ascii -> ascii) (s : string) : string :=
  match s with
  | EmptyString => EmptyString
  | String c s' => String (f c) (str_map f s')
  end.

Definition str_upper : string -> string := str_map ascii_upper.
Definition str_lower : string -> string := str_map ascii_lower.

(** [sub in s] *)
Fixpoint str_contains (sub s : string) : bool :=
  String.prefix sub s ||
  match s with
  | EmptyString => false
  | String _ s' => str_contains sub s'
  end.

(** [s.replace(c, by)] for a one-character [c] *)
Fixpoint str_replace_char (c : ascii) (by_ : string) (s : string) : string :=
  match s with
  | EmptyString => EmptyString
  | String x s' =>
      if Ascii.eqb x c then by_ ++ str_replace_char c by_ s'
      else String x (str_replace_char c by_ s')
  end.

(** [re.sub(r'C+', '-', s)] for a character class [C]: every maximal run of
    characters of the class becomes one dash. *)
Fixpoint sub_runs (cls : ascii -> bool) (in_run : bool) (s : string) : string :=
  match s with
  | EmptyString => EmptyString
  | String x s' =>
      if cls x then
        if in_run then sub_runs cls true s' else String "-" (sub_runs cls true s')
      else String x (sub_runs cls false s')
  end.

Definition str_endswith (s suffix : string) : bool :=
  String.prefix (String.rev suffix) (String.rev s).

Definition generate_image_filename_from_name (name_str : string) : string :=
  if String.eqb name_str EmptyString then "placeholder.png"
  else if String.eqb name_str "Dildo" then
    "https://raw.githubusercontent.com/Vasiliy-katsyka/newTacos/main/BackgroundEraser_20250717_003931098.png"
  else if String.eqb name_str "Skebob" then
    "https://raw.githubusercontent.com/Vasiliy-katsyka/skebobs/refs/heads/main/BackgroundEraser_20250718_034626591.png"
  else if String.eqb name_str "Baggin' Cat" then
    "https://raw.githubusercontent.com/Vasiliy-katsyka/BagginCat/refs/heads/main/IMG_20250718_234950_164.png"
  else if String.eqb name_str "placeholder_nothing.png" then
    "https://images.emojiterra.com/mozilla/512px/274c.png"
  else if str_contains "TON" (str_upper name_str) && str_contains "PRIZE" (str_upper name_str)
  then TON_PRIZE_IMAGE_DEFAULT
  else
    match GIFT_NAME_TO_ID_MAP_PY !! name_str with
    | Some (String c gift_id) =>
        "https://cdn.changes.tg/gifts/originals/" ++ String c gift_id ++ "/Original.png"
    | _ =>
        let cleaned :=
          sub_runs ascii_is_space false
            (str_replace_char "'" EmptyString (str_replace_char "&" "and" name_str)) in
        let filename := sub_runs (Ascii.eqb "-") false cleaned in
        if existsb (str_endswith (str_lower filename)) [".png"; ".jpg"; ".jpeg"; ".gif"; ".svg"]
        then filename else filename ++ ".png"
    end.

Definition UPDATED_FLOOR_PRICES : gmap string Q :=
  list_to_map [
    ("Plush Pepe", 3024.0); ("Neko Helmet", 15.0); ("Sharp Tongue", 17.0);
    ("Durov's Cap", 420.0); ("Voodoo Doll", 9.4); ("Vintage Cigar", 24.0);
    ("Astral Shard", 80.0); ("Scared Cat", 22.0); ("Swiss Watch", 25.0);
    ("Perfume Bottle", 88.0); ("Precious Peach", 270.0); ("Toy Bear", 16.3);
    ("Genie Lamp", 46.0); ("Loot Bag", 45.0); ("Kissed Frog", 24.0); ("Electric Skull", 10.9);
    ("Diamond Ring", 12.0); ("Mini Oscar", 40.5); ("Party Sparkler", 2.0);
    ("Homemade Cake", 2.0); ("Cookie Heart", 1.8); ("Jack-in-the-box", 2.0);
    ("Skull Flower", 3.4); ("Lol Pop", 1.1); ("Hypno Lollipop", 1.4); ("Desk Calendar", 1.1);
    ("B-Day Candle", 1.4); ("Record Player", 4.0); ("Jelly Bunny", 3.6); ("Tama Gadget", 4.0);
    ("Snow Globe", 2.0); ("Eternal Rose", 11.0); ("Love Potion", 5.4); ("Top Hat", 6.0);
    ("Berry Box", 4.1); ("Bunny Muffin", 4.0); ("Candy Cane", 1.6); ("Crystal Ball", 6.0);
    ("Easter Egg", 1.8); ("Eternal Candle", 3.1); ("Evil Eye", 4.2); ("Flying Broom", 4.5);
    ("Ginger Cookie", 2.7); ("Hanging Star", 4.1); ("Hex Pot", 3.1); ("Ion Gem", 44.0);
    ("Jester Hat", 2.0); ("Jingle Bells", 1.8); ("Love Candle", 6.7); ("Lunar Snake", 1.5);
    ("Mad Pumpkin", 6.2); ("Magic Potion", 54.0); ("Pet Snake", 3.2); ("Sakura Flower", 4.1);
    ("Santa Hat", 2.0); ("Signet Ring", 18.8); ("Sleigh Bell", 6.0); ("Snow Mittens", 2.9);
    ("Spiced Wine", 2.2); ("Spy Agaric", 2.8); ("Star Notepad", 2.8); ("Trapped Heart", 6.0);
    ("Winter Wreath", 2.0); ("Big Year", 4.4); ("Snake Box", 3.3); ("Bonded Ring", 60.5);
    ("Xmas Stocking", 2.5); ("Dildo", 43.0); ("Skebob", 10.0); ("Baggin' Cat", 3.0);
    ("Restless Jar", 4.0); ("Nail Bracelet", 70.0); ("Heroic Helmet", 190.0); ("Bow Tie", 3.0);
    ("Heart Locket", 990.0); ("Lush Bouquet", 3.0); ("Whip Cupcake", 2.0);
    ("Joyful Bundle", 3.0); ("Cupid Charm", 12.0); ("Valentine Box", 4.0);
    ("Snoop Dogg", 2.12); ("Swag Bag", 2.12); ("Snoop Cigar", 4.0); ("Low Rider", 30.0);
    ("Westside Sign", 98.0) ].

(** ** Calibration of the prize tables *)

(** An entry of a raw case definition: the keys [imageFilename] and
    [is_ton_prize] may be absent. *)
Record p_info_t := p_info {
  pi_name : string;
  pi_probability : Q;
  pi_imageFilename : option string;
  pi_is_ton_prize : option bool
}.

(** A case: [prizes] holds raw entries in [cases_data_backend_raw] and
    calibrated entries in [cases_data_backend]. *)
Module Case.
Record t (P : Type) := mk {
  id : string;
  name : string;
  imageFilename : string;
  priceTON : Q;
  prizes : list P
}.
Arguments mk {P}.
Arguments id {P}.
Arguments name {P}.
Arguments imageFilename {P}.
Arguments priceTON {P}.
Arguments prizes {P}.
End Case.

(** An entry of the working table of the calibrator and of its result. *)
Module Prize.
Record t := mk {
  name : string;
  probability : Q;
  floor_price : Q;
  imageFilename : string;
  is_ton_prize : bool
}.
Definition set_probability (q : Q) (p : t) : t :=
  mk (name p) q (floor_price p) (imageFilename p) (is_ton_prize p).
End Prize.

(** The loop that builds [prizes] from [case_data['prizes']]. *)
Definition build_prizes (case_data : Case.t p_info_t) (all_floor_prices : gmap string Q) : list Prize.t :=
  (fun p_info =>
     let prize_name := pi_name p_info in
     let floor_price := default 0 (all_floor_prices !! prize_name) in
     let image_filename :=
       default (generate_image_filename_from_name prize_name) (pi_imageFilename p_info) in
     Prize.mk prize_name (pi_probability p_info) floor_price image_filename
       (default false (pi_is_ton_prize p_info)))
  <$> Case.prizes case_data.

(** [sum(f(p) for p in prizes if p is not filler_prize)]: the entries are
    told apart by their position, as [is not] tells the dictionaries apart. *)
Definition sum_except (filler : nat) (f : Prize.t -> Q) (l : list Prize.t) : Q :=
  py_sum (snd <$> filter (fun ix => ix.1 <> filler) (imap (fun i p => (i, f p)) l)).

(** [if abs(sum_probs - 1) > 1e-7: prizes[0]['probability'] += 1 - sum_probs] *)
Definition final_correction (l : list Prize.t) : list Prize.t :=
  let sum_probs := py_sum (Prize.probability <$> l) in
  if Qlt_bool float_1e_7 (Qabs (sum_probs - 1)) then
    match l with
    | [] => []
    | p0 :: rest => Prize.set_probability (Prize.probability p0 + (1 - sum_probs)) p0 :: rest
    end
  else l.

Definition calculate_rtp_probabilities_proportional_fallback
    (case_data : Case.t p_info_t) (all_floor_prices : gmap string Q) : list Prize.t :=
  let case_price := Case.priceTON case_data in
  let target_ev := case_price * RTP_TARGET in
  let prizes := build_prizes case_data all_floor_prices in
  let current_ev := py_sum ((fun p => Prize.floor_price p * Prize.probability p) <$> prizes) in
  if Qle_bool current_ev 0 then [] else
  let scale := target_ev / current_ev in
  let prizes := (fun p => Prize.set_probability (Prize.probability p * scale) p) <$> prizes in
  let total_prob := py_sum (Prize.probability <$> prizes) in
  if Qle_bool total_prob 0 then [] else
  let prizes := (fun p => Prize.set_probability (Prize.probability p / total_prob) p) <$> prizes in
  final_correction prizes.

(** [min((p for p in prizes if p['floor_price'] > 0), key=..., default=None)],
    with the position of the entry found. *)
Definition filler_of (l : list Prize.t) : option (nat * Prize.t) :=
  py_min_by (fun ip => Prize.floor_price ip.2)
    (filter (fun ip => Qlt_bool 0 (Prize.floor_price ip.2) = true) (imap pair l)).

Definition calculate_rtp_probabilities
    (case_data : Case.t p_info_t) (all_floor_prices : gmap string Q) : list Prize.t :=
  let case_price := Case.priceTON case_data in
  let target_ev := case_price * RTP_TARGET in
  let prizes := build_prizes case_data all_floor_prices in
  if bool_decide (prizes = []) || forallb (fun p => Qeq_bool (Prize.floor_price p) 0) prizes
  then [] else
  match filler_of prizes with
  | None => calculate_rtp_probabilities_proportional_fallback case_data all_floor_prices
  | Some (fi, filler_prize) =>
      let sum_non_filler_ev :=
        sum_except fi (fun p => Prize.floor_price p * Prize.probability p) prizes in
      let non_filler_prob := sum_except fi Prize.probability prizes in
      let rem_ev := target_ev - sum_non_filler_ev in
      if Qle_bool (Prize.floor_price filler_prize) 0
      then calculate_rtp_probabilities_proportional_fallback case_data all_floor_prices else
      let req_filler_prob := rem_ev / Prize.floor_price filler_prize in
      if negb (Qle_bool 0 req_filler_prob && Qle_bool req_filler_prob 1)
      then calculate_rtp_probabilities_proportional_fallback case_data all_floor_prices else
      let prizes :=
        if Qlt_bool 0 non_filler_prob then
          let scale := (1 - req_filler_prob) / non_filler_prob in
          imap (fun i p =>
                  if bool_decide (i <> fi)
                  then Prize.set_probability (Prize.probability p * scale) p else p) prizes
        else prizes in
      let prizes :=
        imap (fun i p =>
                if bool_decide (i = fi) then Prize.set_probability req_filler_prob p else p)
             prizes in
      final_correction prizes
  end.

(** The expected value and the total probability of a table. *)
Definition expected_value (l : list Prize.t) : Q :=
  py_sum ((fun p => Prize.probability p * Prize.floor_price p) <$> l).
Definition total_probability (l : list Prize.t) : Q :=
  py_sum (Prize.probability <$> l).

(** ** Game data *)

Definition sorted_by_floor_desc (l : list p_info_t) : list p_info_t :=
  sorted_desc (fun p => default 0 (UPDATED_FLOOR_PRICES !! pi_name p)) l.

Definition case_all_in_01 : Case.t p_info_t :=
  Case.mk "all_in_01" "All In"
    "https://raw.githubusercontent.com/Vasiliy-katsyka/case/main/caseImages/All-In.jpg"
    0.1
    (sorted_by_floor_desc [
       p_info "Heart Locket" 0.0000001 None None; p_info "Plush Pepe" 0.0000005 None None;
       p_info "Durov's Cap" 0.000005 None None; p_info "Heroic Helmet" 0.00001 None None;
       p_info "Precious Peach" 0.00002 None None; p_info "Bonded Ring" 0.00005 None None;
       p_info "Lol Pop" 0.001 None None; p_info "Baggin' Cat" 0.01 None None;
       p_info "Whip Cupcake" 0.02 None None;
       p_info "Nothing" 0.9689144 (Some "placeholder_nothing.png") None ]).

Definition case_small_billionaire_05 : Case.t p_info_t :=
  Case.mk "small_billionaire_05" "Small Billionaire"
    "https://raw.githubusercontent.com/Vasiliy-katsyka/case/main/caseImages/Small-Billionaire.jpg"
    0.5
    (sorted_by_floor_desc [
       p_info "Westside Sign" 0.00005 None None; p_info "Perfume Bottle" 0.00015 None None;
       p_info "Nail Bracelet" 0.00016 None None; p_info "Vintage Cigar" 0.00018 None None;
       p_info "Signet Ring" 0.0002 None None; p_info "Swiss Watch" 0.00022 None None;
       p_info "Low Rider" 0.0005 None None; p_info "Skebob" 0.005 None None;
       p_info "Snake Box" 0.008 None None; p_info "Snoop Dogg" 0.02 None None;
       p_info "Swag Bag" 0.02 None None; p_info "Nothing" 0.94554 (Some "placeholder_nothing.png") None ]).

Definition case_lolpop : Case.t p_info_t :=
  Case.mk "lolpop" "Lol Pop Stash"
    "https://raw.githubusercontent.com/Vasiliy-katsyka/case/main/caseImages/Lol-Pop.jpg"
    2.0
    (sorted_by_floor_desc [
       p_info "Plush Pepe" 0.0000001 None None; p_info "Neko Helmet" 0.00001 None None;
       p_info "Snake Box" 0.0005 None None; p_info "Pet Snake" 0.0005 None None;
       p_info "Skull Flower" 0.0005 None None; p_info "Xmas Stocking" 0.05 None None;
       p_info "Spiced Wine" 0.05 None None; p_info "Bow Tie" 0.1 None None;
       p_info "Lush Bouquet" 0.1 None None; p_info "Joyful Bundle" 0.1 None None;
       p_info "Baggin' Cat" 0.1 None None; p_info "Party Sparkler" 0.1 None None;
       p_info "Homemade Cake" 0.1 None None; p_info "Jack-in-the-box" 0.1 None None;
       p_info "Santa Hat" 0.0484899 None None ]).

Definition case_recordplayer : Case.t p_info_t :=
  Case.mk "recordplayer" "Record Player Vault"
    "https://raw.githubusercontent.com/Vasiliy-katsyka/case/main/caseImages/Record-Player.jpg"
    3.0
    (sorted_by_floor_desc [
       p_info "Plush Pepe" 0.0000001 None None; p_info "Tama Gadget" 0.001 None None;
       p_info "Record Player" 0.001 None None; p_info "Big Year" 0.001 None None;
       p_info "Jelly Bunny" 0.001 None None; p_info "Crystal Ball" 0.001 None None;
       p_info "Evil Eye" 0.001 None None; p_info "Flying Broom" 0.001 None None;
       p_info "Skull Flower" 0.001 None None; p_info "Restless Jar" 0.05 None None;
       p_info "Snoop Cigar" 0.05 None None; p_info "Pet Snake" 0.05 None None;
       p_info "Eternal Candle" 0.05 None None; p_info "Hex Pot" 0.1 None None;
       p_info "Xmas Stocking" 0.1 None None; p_info "Snow Mittens" 0.091 None None;
       p_info "Spy Agaric" 0.1 None None; p_info "Star Notepad" 0.1 None None;
       p_info "Ginger Cookie" 0.1 None None; p_info "Party Sparkler" 0.15 None None;
       p_info "Lol Pop" 0.15 None None ]).

Definition case_girls_collection : Case.t p_info_t :=
  Case.mk "girls_collection" "Girl's Collection"
    "https://raw.githubusercontent.com/Vasiliy-katsyka/case/main/caseImages/girls.jpg"
    8.0
    (sorted_by_floor_desc [
       p_info "Loot Bag" 0.00001 None None; p_info "Genie Lamp" 0.00001 None None;
       p_info "Sharp Tongue" 0.00001 None None; p_info "Neko Helmet" 0.00001 None None;
       p_info "Toy Bear" 0.00001 None None; p_info "Eternal Rose" 0.0001 None None;
       p_info "Valentine Box" 0.1 None None; p_info "Cupid Charm" 0.1 None None;
       p_info "Berry Box" 0.2 None None; p_info "Sakura Flower" 0.2 None None;
       p_info "Bunny Muffin" 0.19985 None None; p_info "Star Notepad" 0.2 None None ]).

Definition case_mens_collection : Case.t p_info_t :=
  Case.mk "mens_collection" "Men's Collection"
    "https://raw.githubusercontent.com/Vasiliy-katsyka/case/main/caseImages/men.jpg"
    8.0
    (sorted_by_floor_desc [
       p_info "Durov's Cap" 0.000001 None None; p_info "Mini Oscar" 0.00001 None None;
       p_info "Perfume Bottle" 0.00001 None None; p_info "Scared Cat" 0.0001 None None;
       p_info "Vintage Cigar" 0.0001 None None; p_info "Signet Ring" 0.0001 None None;
       p_info "Swiss Watch" 0.0001 None None; p_info "Dildo" 0.001 None None; p_info "Top Hat" 0.3 None None;
       p_info "Record Player" 0.3 None None; p_info "Spiced Wine" 0.399579 None None ]).

Definition case_swisswatch : Case.t p_info_t :=
  Case.mk "swisswatch" "Swiss Watch Box"
    "https://raw.githubusercontent.com/Vasiliy-katsyka/case/main/caseImages/Swiss-Watch.jpg"
    10.0
    (sorted_by_floor_desc [
       p_info "Plush Pepe" 0.0000001 None None; p_info "Signet Ring" 0.00001 None None;
       p_info "Swiss Watch" 0.00001 None None; p_info "Neko Helmet" 0.00001 None None;
       p_info "Eternal Rose" 0.00005 None None; p_info "Electric Skull" 0.0001 None None;
       p_info "Skebob" 0.05 None None; p_info "Voodoo Doll" 0.1 None None;
       p_info "Diamond Ring" 0.1 None None; p_info "Love Candle" 0.1 None None;
       p_info "Mad Pumpkin" 0.1 None None; p_info "Sleigh Bell" 0.05 None None;
       p_info "Top Hat" 0.1 None None; p_info "Trapped Heart" 0.0998199 None None;
       p_info "Love Potion" 0.1 None None; p_info "Big Year" 0.1 None None;
       p_info "Record Player" 0.1 None None; p_info "Snake Box" 0.05 None None ]).

Definition case_perfumebottle : Case.t p_info_t :=
  Case.mk "perfumebottle" "Perfume Chest"
    "https://raw.githubusercontent.com/Vasiliy-katsyka/case/main/caseImages/Perfume-Bottle.jpg"
    20.0
    (sorted_by_floor_desc [
       p_info "Plush Pepe" 0.0000001 None None; p_info "Bonded Ring" 0.0000005 None None;
       p_info "Ion Gem" 0.000001 None None; p_info "Perfume Bottle" 0.000005 None None;
       p_info "Magic Potion" 0.00001 None None; p_info "Loot Bag" 0.00001 None None;
       p_info "Genie Lamp" 0.01 None None; p_info "Swiss Watch" 0.01 None None;
       p_info "Sharp Tongue" 0.02 None None; p_info "Neko Helmet" 0.02 None None;
       p_info "Kissed Frog" 0.05 None None; p_info "Electric Skull" 0.1 None None;
       p_info "Diamond Ring" 0.1 None None; p_info "Big Year" 0.1 None None;
       p_info "Snake Box" 0.4899734 None None; p_info "Pet Snake" 0.1 None None ]).

Definition case_vintagecigar : Case.t p_info_t :=
  Case.mk "vintagecigar" "Vintage Cigar Safe"
    "https://raw.githubusercontent.com/Vasiliy-katsyka/case/main/caseImages/Vintage-Cigar.jpg"
    40.0
    (sorted_by_floor_desc [
       p_info "Plush Pepe" 0.0000001 None None; p_info "Precious Peach" 0.000001 None None;
       p_info "Bonded Ring" 0.000005 None None; p_info "Mini Oscar" 0.00001 None None;
       p_info "Dildo" 0.005 None None; p_info "Perfume Bottle" 0.01 None None;
       p_info "Scared Cat" 0.1 None None; p_info "Vintage Cigar" 0.1 None None;
       p_info "Swiss Watch" 0.05 None None; p_info "Sharp Tongue" 0.1 None None;
       p_info "Genie Lamp" 0.1 None None; p_info "Toy Bear" 0.1349839 None None;
       p_info "Neko Helmet" 0.1 None None; p_info "Big Year" 0.1 None None; p_info "Snake Box" 0.1 None None;
       p_info "Pet Snake" 0.1 None None ]).

Definition case_astralshard : Case.t p_info_t :=
  Case.mk "astralshard" "Astral Shard Relic"
    "https://raw.githubusercontent.com/Vasiliy-katsyka/case/main/caseImages/Astral-Shard.jpg"
    100.0
    (sorted_by_floor_desc [
       p_info "Plush Pepe" 0.0000001 None None; p_info "Durov's Cap" 0.0000005 None None;
       p_info "Precious Peach" 0.000001 None None; p_info "Heroic Helmet" 0.000005 None None;
       p_info "Bonded Ring" 0.01 None None; p_info "Astral Shard" 0.05 None None;
       p_info "Ion Gem" 0.05 None None; p_info "Mini Oscar" 0.05 None None;
       p_info "Perfume Bottle" 0.05 None None; p_info "Magic Potion" 0.05 None None;
       p_info "Loot Bag" 0.0899934 None None; p_info "Scared Cat" 0.1 None None;
       p_info "Vintage Cigar" 0.1 None None; p_info "Swiss Watch" 0.1 None None;
       p_info "Toy Bear" 0.1 None None; p_info "Neko Helmet" 0.1 None None; p_info "Big Year" 0.05 None None;
       p_info "Pet Snake" 0.05 None None ]).

Definition case_plushpepe : Case.t p_info_t :=
  Case.mk "plushpepe" "Plush Pepe Hoard"
    "https://raw.githubusercontent.com/Vasiliy-katsyka/case/main/caseImages/Plush-Pepe.jpg"
    200.0
    (sorted_by_floor_desc [
       p_info "Plush Pepe" 0.000001 None None; p_info "Durov's Cap" 0.000005 None None;
       p_info "Heart Locket" 0.000001 None None; p_info "Precious Peach" 0.4 None None;
       p_info "Bonded Ring" 0.3 None None; p_info "Astral Shard" 0.299993 None None ]).

Definition cases_data_backend_raw : list (Case.t p_info_t) :=
  [case_all_in_01; case_small_billionaire_05; case_lolpop; case_recordplayer; case_girls_collection; case_mens_collection; case_swisswatch; case_perfumebottle; case_vintagecigar; case_astralshard; case_plushpepe].

(** [cases_data_backend]: [{**case, 'prizes': calculate_rtp_probabilities(...)}]
    for every raw case. *)
Definition cases_data_backend : list (Case.t Prize.t) :=
  (fun case =>
     Case.mk (Case.id case) (Case.name case) (Case.imageFilename case) (Case.priceTON case)
       (calculate_rtp_probabilities case UPDATED_FLOOR_PRICES))
  <$> cases_data_backend_raw.

(** ** Outcome sampler: [random.choices(population, weights=..., k=1)[0]] *)

(** [itertools.accumulate]: the running sums. *)
Fixpoint accumulate_from (acc : Q) (l : list Q) : list Q :=
  match l with
  | [] => []
  | w :: l' => (acc + w) :: accumulate_from (acc + w) l'
  end.

Definition accumulate (l : list Q) : list Q := accumulate_from 0 l.

(** [bisect.bisect_right(a, x, lo, hi)]: the loop halves the interval, so
    [hi - lo] rounds are enough; [fuel] counts them. *)
Fixpoint bisect_loop (fuel : nat) (a : list Q) (x : Q) (lo hi : nat) : nat :=
  match fuel with
  | O => lo
  | S fuel' =>
      if bool_decide (lo < hi)%nat then
        let mid := ((lo + hi) `div` 2)%nat in
        if Qlt_bool x (default 0 (a !! mid))
        then bisect_loop fuel' a x lo mid
        else bisect_loop fuel' a x (mid + 1)%nat hi
      else lo
  end.

Definition bisect (a : list Q) (x : Q) (lo hi : nat) : nat :=
  bisect_loop (hi - lo) a x lo hi.

(** One draw.  [r] is the value of [random()], in [0, 1).  [None] stands for
    the exception raised on an empty population or a total weight that is
    not positive. *)
Definition choices {A : Type} (population : list A) (weights : list Q) (r : Q) : option A :=
  let n := length population in
  let cum_weights := accumulate weights in
  if bool_decide (length cum_weights <> n) then None else
  match last cum_weights with
  | None => None
  | Some total =>
      if Qle_bool total 0 then None
      else population !! bisect cum_weights (r * total) 0 (n - 1)
  end.

(** ** Upgrade chance model *)

Definition Q_is_integral (q : Q) : bool := (Zpos (Qden (Qred q)) =? 1)%Z.

Section UpgradeChance.
(** [Decimal.__pow__] at an exponent that is not an integer returns a
    28-digit approximation of the real power; its value is left open. *)
Variable decimal_pow_frac : Q -> Q -> Q.

(** [base ** e].  At an integral exponent the power is the repeated
    product.  The base is positive at the only call. *)
Definition decimal_pow (base e : Q) : Q :=
  if Q_is_integral e then base ^ Qnum (Qred e) else decimal_pow_frac base e.

(** Lines 469-470 of the upgrade handler. *)
Definition upgrade_chance (val_current val_desired : Q) : Q :=
  let x := val_desired / val_current in
  py_min UPGRADE_MAX_CHANCE
    (py_max UPGRADE_MIN_CHANCE
       (UPGRADE_MAX_CHANCE * decimal_pow UPGRADE_RISK_FACTOR (x - 1))).
End UpgradeChance.


(** ** JSON values, requests and replies *)

#[local] Set Warnings "-register-all".
Inductive json :=
| JNull
| JBool (b : bool)
| JInt (n : Z)
| JNum (q : Q)
| JStr (s : string)
| JList (l : list json)
| JObj (fields : list (string * json)).

Definition JOptStr (o : option string) : json :=
  match o with Some s => JStr s | None => JNull end.

(** What a handler gives back: [jsonify(body), status], or an exception
    that no [except] clause of the handler catches (the framework answers
    500 and the session is closed without a commit). *)
Inductive reply :=
| Reply (body : json) (status : Z)
| Unhandled.

Definition error_reply (message : string) (status : Z) : reply :=
  Reply (JObj [("error", JStr message)]) status.

(** The dictionary returned by [validate_init_data], read at the keys
    [id], [username], [first_name] and [last_name]. *)
Record auth_data := {
  auth_id : Z;
  auth_username : option string;
  auth_first_name : option string;
  auth_last_name : option string
}.

(** Truth value of an optional string: [None] and the empty string are
    false. *)
Definition str_truthy (o : option string) : bool :=
  match o with
  | Some (String _ _) => true
  | _ => false
  end.

(** ** Database models

    The time stamp columns, which no handler reads, are left out. *)

Module User.
Record t := mk {
  id : Z;
  username : option string;
  first_name : option string;
  last_name : option string;
  ton_balance : Q;
  referral_code : option string;
  referred_by_id : option Z;
  referral_earnings_pending : Q;
  total_won_ton : Q
}.
Definition set_ton_balance (v : Q) (u : t) : t :=
  mk (id u) (username u) (first_name u) (last_name u) v (referral_code u)
     (referred_by_id u) (referral_earnings_pending u) (total_won_ton u).
Definition set_referred_by_id (v : option Z) (u : t) : t :=
  mk (id u) (username u) (first_name u) (last_name u) (ton_balance u) (referral_code u)
     v (referral_earnings_pending u) (total_won_ton u).
Definition set_referral_earnings_pending (v : Q) (u : t) : t :=
  mk (id u) (username u) (first_name u) (last_name u) (ton_balance u) (referral_code u)
     (referred_by_id u) v (total_won_ton u).
Definition set_total_won_ton (v : Q) (u : t) : t :=
  mk (id u) (username u) (first_name u) (last_name u) (ton_balance u) (referral_code u)
     (referred_by_id u) (referral_earnings_pending u) v.
End User.

Module NFT.
Record t := mk {
  id : Z;
  name : string;
  image_filename : option string;
  floor_price : Q
}.
End NFT.

Module InventoryItem.
Record t := mk {
  id : Z;
  user_id : Z;
  nft_id : option Z;
  item_name_override : option string;
  item_image_override : option string;
  current_value : Q;
  upgrade_multiplier : Q;
  is_ton_prize : bool
}.
End InventoryItem.

Module PromoCode.
Record t := mk {
  id : Z;
  code_text : string;
  activations_left : Z;
  ton_amount : Q
}.
Definition set_activations_left (v : Z) (p : t) : t :=
  mk (id p) (code_text p) v (ton_amount p).
End PromoCode.

Module UserPromoCodeRedemption.
Record t := mk {
  user_id : Z;
  promo_code_id : Z
}.
End UserPromoCodeRedemption.

(** The committed state of the database: the rows of every table and the
    counter that numbers new inventory items. *)
Record DB := mkDB {
  users : list User.t;
  nfts : list NFT.t;
  inventory_items : list InventoryItem.t;
  promo_codes : list PromoCode.t;
  user_promo_code_redemptions : list UserPromoCodeRedemption.t;
  inventory_items_next_id : Z
}.

Definition set_users (v : list User.t) (db : DB) : DB :=
  mkDB v (nfts db) (inventory_items db) (promo_codes db)
       (user_promo_code_redemptions db) (inventory_items_next_id db).
Definition set_inventory_items (v : list InventoryItem.t) (db : DB) : DB :=
  mkDB (users db) (nfts db) v (promo_codes db)
       (user_promo_code_redemptions db) (inventory_items_next_id db).
Definition set_promo_codes (v : list PromoCode.t) (db : DB) : DB :=
  mkDB (users db) (nfts db) (inventory_items db) v
       (user_promo_code_redemptions db) (inventory_items_next_id db).
Definition set_user_promo_code_redemptions (v : list UserPromoCodeRedemption.t) (db : DB) : DB :=
  mkDB (users db) (nfts db) (inventory_items db) (promo_codes db)
       v (inventory_items_next_id db).
Definition set_inventory_items_next_id (v : Z) (db : DB) : DB :=
  mkDB (users db) (nfts db) (inventory_items db) (promo_codes db)
       (user_promo_code_redemptions db) v.

(** [db.query(T).filter(...).first()]: the first row that passes, with its
    position in the table. *)
Definition query_first {A : Type} (f : A -> bool) (rows : list A) : option (nat * A) :=
  list_find (fun row => f row = true) rows.

Definition user_by_id (uid : Z) (db : DB) : option (nat * User.t) :=
  query_first (fun u => bool_decide (User.id u = uid)) (users db).

Definition item_of_user (item_id uid : Z) (db : DB) : option (nat * InventoryItem.t) :=
  query_first
    (fun i => bool_decide (InventoryItem.id i = item_id) &&
              bool_decide (InventoryItem.user_id i = uid))
    (inventory_items db).

Definition nft_by_name (name : string) (db : DB) : option (nat * NFT.t) :=
  query_first (fun n => bool_decide (NFT.name n = name)) (nfts db).

(** [item.nft]: the row of [nfts] that [nft_id] points to. *)
Definition nft_of_item (item : InventoryItem.t) (db : DB) : option NFT.t :=
  match InventoryItem.nft_id item with
  | None => None
  | Some nid => snd <$> query_first (fun n => bool_decide (NFT.id n = nid)) (nfts db)
  end.

(** ** Ledger handlers

    Every handler maps the committed database to a reply and the database
    committed when it returns: a path that returns before [db.commit()]
    leaves the database as it was. *)

Definition success_status : json := JStr "success".

(** [str(x)] of an optional string inside an f-string. *)
Definition fmt_opt (o : option string) : string := default "None" o.

Section Handlers.
(** Library code whose value is left open: the power of [Decimal] at an
    exponent that is not an integer, and the text that a float prints as. *)
Variable decimal_pow_frac : Q -> Q -> Q.
Variable float_repr : Q -> string.

(** [amount] is the value of [float(data.get('amount', 0))], [None] when
    the conversion raises. *)
Definition instant_topup_api (auth : option auth_data) (amount : option Q) (db : DB)
    : reply * DB :=
  match auth with
  | None => (error_reply "Auth failed" 401, db)
  | Some auth =>
      let uid := auth_id auth in
      match amount with
      | None => (error_reply "Invalid format." 400, db)
      | Some amount =>
          if negb (Qle_bool 0.1 amount && Qle_bool amount 10000)
          then (error_reply "Invalid amount." 400, db) else
          match user_by_id uid db with
          | None => (error_reply "User not found" 404, db)
          | Some (ui, user) =>
              let user := User.set_ton_balance (User.ton_balance user + amount) user in
              (Reply (JObj [("status", success_status);
                            ("new_balance_ton", JNum (User.ton_balance user))]) 200,
               set_users (<[ui := user]> (users db)) db)
          end
      end
  end.

(** The row that one iteration of the loop of [open_case_api] adds. *)
Definition won_item (uid : Z) (chosen : Prize.t) (db : DB) (new_id : Z) : InventoryItem.t :=
  let dbnft := nft_by_name (Prize.name chosen) db in
  InventoryItem.mk new_id uid ((fun r => NFT.id r.2) <$> dbnft)
    (Some (Prize.name chosen)) (Some (Prize.imageFilename chosen))
    (Prize.floor_price chosen) 1.0 (Prize.is_ton_prize chosen).

(** The loop [for _ in range(mult)]: [rand k] is the value of [random()]
    in round [k]; [None] when [random.choices] raises. *)
Fixpoint draw_items (uid : Z) (prizes : list Prize.t) (db : DB) (rand : nat -> Q)
    (new_id : Z) (round rounds : nat) : option (list InventoryItem.t) :=
  match rounds with
  | O => Some []
  | S rounds' =>
      chosen ← choices prizes (Prize.probability <$> prizes) (rand round);
      rest ← draw_items uid prizes db rand (new_id + 1)%Z (S round) rounds';
      Some (won_item uid chosen db new_id :: rest)
  end.

Definition won_prize_json (item : InventoryItem.t) : json :=
  JObj [("id", JInt (InventoryItem.id item));
        ("name", JOptStr (InventoryItem.item_name_override item));
        ("imageFilename", JOptStr (InventoryItem.item_image_override item));
        ("currentValue", JNum (InventoryItem.current_value item));
        ("is_ton_prize", JBool (InventoryItem.is_ton_prize item))].

(** [mult] is the value of [int(data.get('multiplier', 1))]. *)
Definition open_case_api (auth : option auth_data) (case_id : option string) (mult : Z)
    (rand : nat -> Q) (db : DB) : reply * DB :=
  match auth with
  | None => (error_reply "Auth failed" 401, db)
  | Some auth =>
      let uid := auth_id auth in
      if negb (str_truthy case_id) || negb (bool_decide (mult ∈ [1; 2; 3]%Z))
      then (error_reply "Invalid request" 400, db) else
      match user_by_id uid db with
      | None => (error_reply "User not found" 404, db)
      | Some (ui, user) =>
          match find (fun c => bool_decide (Some (Case.id c) = case_id)) cases_data_backend with
          | None => (error_reply "Case not found" 404, db)
          | Some tcase =>
              let cost := Case.priceTON tcase * inject_Z mult in
              if Qlt_bool (User.ton_balance user) cost
              then (error_reply "Not enough TON" 400, db) else
              let user := User.set_ton_balance (User.ton_balance user - cost) user in
              match draw_items uid (Case.prizes tcase) db rand
                      (inventory_items_next_id db) 0 (Z.to_nat mult) with
              | None => (Unhandled, db)
              | Some items =>
                  (Reply (JObj [("status", success_status);
                                ("won_prizes", JList (won_prize_json <$> items));
                                ("new_balance_ton", JNum (User.ton_balance user))]) 200,
                   set_inventory_items_next_id (inventory_items_next_id db + mult)%Z
                     (set_inventory_items (inventory_items db ++ items)
                        (set_users (<[ui := user]> (users db)) db)))
              end
          end
      end
  end.

(** *** Withdrawal of a gift *)

Record withdrawal_payload := {
  giftname : option string;
  receiverUsername : string;
  senderUsername : string
}.

(** The body of an answer with an error status, as
    [e.response.json().get("error", ...)] meets it. *)
Inductive error_body :=
| BodyNotJson                       (* [json()] raises [JSONDecodeError] *)
| BodyObject (error : option string) (* an object, with or without "error" *)
| BodyOtherJson.                    (* a JSON value that is not an object *)

(** The outcome of [requests.post(...)] followed by [raise_for_status()]. *)
Inductive fulfillment :=
| Delivered                                 (* no exception *)
| NoResponse                                (* connection error or time-out *)
| ErrorStatus (status_code : Z) (body : error_body).  (* a 4xx or 5xx answer *)

(** The [except RequestException] clause: the message of the 502 reply,
    or [None] when [.get] is applied to a value without that method and
    [AttributeError] leaves the clause. *)
Definition withdrawal_error_message (outcome : fulfillment) : option string :=
  match outcome with
  | Delivered => None
  | NoResponse =>
      Some "Withdrawal service is currently unavailable. Please try again later."
  | ErrorStatus status_code BodyNotJson =>
      Some ("Withdrawal service returned an invalid response (Status "
            ++ pretty status_code ++ ").")
  | ErrorStatus _ (BodyObject error) =>
      Some ("Withdrawal service failed: " ++ default "Unknown API error" error)
  | ErrorStatus _ BodyOtherJson => None
  end.

(** [post] is the fulfillment service.  The third component of the result
    lists the payloads sent to it. *)
Definition withdraw_gift_api (auth : option auth_data) (inventory_item_id : option Z)
    (post : withdrawal_payload -> fulfillment) (db : DB)
    : reply * DB * list withdrawal_payload :=
  match auth with
  | None => (error_reply "Authentication failed" 401, db, [])
  | Some auth =>
      let uid := auth_id auth in
      match auth_username auth with
      | Some (String c rest) =>
          let username := String c rest in
          match inventory_item_id with
          | None | Some 0%Z => (error_reply "inventory_item_id required." 400, db, [])
          | Some item_id =>
              match item_of_user item_id uid db with
              | None => (error_reply "Item not found." 404, db, [])
              | Some (ii, item) =>
                  if InventoryItem.is_ton_prize item
                  then (error_reply "Cannot withdraw TON prizes." 400, db, []) else
                  let gift_name :=
                    match nft_of_item item db with
                    | Some nft => Some (NFT.name nft)
                    | None => InventoryItem.item_name_override item
                    end in
                  let payload :=
                    {| giftname := gift_name; receiverUsername := username;
                       senderUsername := WITHDRAWAL_SENDER_USERNAME |} in
                  match post payload with
                  | Delivered =>
                      (Reply (JObj [("status", success_status);
                                    ("message", JStr ("Your '" ++ fmt_opt gift_name
                                                      ++ "' has been sent!"))]) 200,
                       set_inventory_items (delete ii (inventory_items db)) db,
                       [payload])
                  | failure =>
                      match withdrawal_error_message failure with
                      | Some error_message => (error_reply error_message 502, db, [payload])
                      | None =>
                          (error_reply
                             "An internal server error occurred during the withdrawal process."
                             500, db, [payload])
                      end
                  end
              end
          end
      | _ => (error_reply "Your Telegram account needs a username." 400, db, [])
      end
  end.

(** *** Upgrade *)

(** [roll] is the value of [random.uniform(0, 100)]. *)
Definition upgrade_item_v2_api (auth : option auth_data) (inventory_item_id : option Z)
    (desired_item_name : option string) (roll : Q) (db : DB) : reply * DB :=
  match auth with
  | None => (error_reply "Auth failed" 401, db)
  | Some auth =>
      let uid := auth_id auth in
      match inventory_item_id, desired_item_name with
      | Some item_id, Some desired_name =>
          if bool_decide (item_id = 0%Z) || negb (str_truthy desired_item_name)
          then (error_reply "Missing parameters." 400, db) else
          match user_by_id uid db, item_of_user item_id uid db, nft_by_name desired_name db with
          | Some (ui, user), Some (ii, item), Some (_, desired_nft) =>
              if InventoryItem.is_ton_prize item
                 || Qle_bool (InventoryItem.current_value item) 0
              then (error_reply "Invalid item for upgrade." 400, db) else
              let val_current := InventoryItem.current_value item in
              let val_desired := NFT.floor_price desired_nft in
              if Qle_bool val_desired val_current
              then (error_reply "Desired item must be more valuable." 400, db) else
              let chance := upgrade_chance decimal_pow_frac val_current val_desired in
              if Qlt_bool roll chance then
                let user :=
                  User.set_total_won_ton
                    (User.total_won_ton user + (val_desired - val_current)) user in
                let new_item :=
                  InventoryItem.mk (inventory_items_next_id db) uid (Some (NFT.id desired_nft))
                    (Some (NFT.name desired_nft)) (NFT.image_filename desired_nft)
                    val_desired 1.0 false in
                (Reply (JObj [("status", success_status);
                              ("item", JObj [
                                 ("id", JInt (InventoryItem.id new_item));
                                 ("name", JOptStr (InventoryItem.item_name_override new_item));
                                 ("imageFilename",
                                  JOptStr (InventoryItem.item_image_override new_item));
                                 ("currentValue",
                                  JNum (InventoryItem.current_value new_item))])]) 200,
                 set_inventory_items_next_id (inventory_items_next_id db + 1)%Z
                   (set_inventory_items (delete ii (inventory_items db) ++ [new_item])
                      (set_users (<[ui := user]> (users db)) db)))
              else
                let user :=
                  User.set_total_won_ton (User.total_won_ton user - val_current) user in
                (Reply (JObj [("status", JStr "failed"); ("item_lost", JBool true)]) 200,
                 set_inventory_items (delete ii (inventory_items db))
                   (set_users (<[ui := user]> (users db)) db))
          | _, _, _ => (error_reply "Invalid data." 404, db)
          end
      | _, _ => (error_reply "Missing parameters." 400, db)
      end
  end.

(** *** Conversion and sale *)

Definition convert_to_ton_api (auth : option auth_data) (inventory_item_id : option Z)
    (db : DB) : reply * DB :=
  match auth with
  | None => (error_reply "Auth failed" 401, db)
  | Some auth =>
      let uid := auth_id auth in
      match inventory_item_id with
      | None | Some 0%Z => (error_reply "inventory_item_id required" 400, db)
      | Some item_id =>
          match user_by_id uid db, item_of_user item_id uid db with
          | Some (ui, user), Some (ii, item) =>
              if InventoryItem.is_ton_prize item
              then (error_reply "Cannot convert TON" 400, db) else
              let val := InventoryItem.current_value item in
              let user := User.set_ton_balance (User.ton_balance user + val) user in
              let user :=
                User.set_total_won_ton (py_max 0 (User.total_won_ton user - val)) user in
              (Reply (JObj [("status", success_status);
                            ("new_balance_ton", JNum (User.ton_balance user))]) 200,
               set_inventory_items (delete ii (inventory_items db))
                 (set_users (<[ui := user]> (users db)) db))
          | _, _ => (error_reply "Not found" 404, db)
          end
      end
  end.

(** [user.inventory] *)
Definition inventory_of (uid : Z) (db : DB) : list InventoryItem.t :=
  filter (fun i => InventoryItem.user_id i = uid) (inventory_items db).

Definition sellable (uid : Z) (i : InventoryItem.t) : bool :=
  bool_decide (InventoryItem.user_id i = uid) && negb (InventoryItem.is_ton_prize i).

Definition sell_all_items_api (auth : option auth_data) (db : DB) : reply * DB :=
  match auth with
  | None => (error_reply "Auth failed" 401, db)
  | Some auth =>
      let uid := auth_id auth in
      match user_by_id uid db with
      | None => (error_reply "User not found" 404, db)
      | Some (ui, user) =>
          let items_to_sell :=
            filter (fun i => InventoryItem.is_ton_prize i = false) (inventory_of uid db) in
          if bool_decide (items_to_sell = []) then
            (Reply (JObj [("status", JStr "no_items");
                          ("message", JStr "No items to sell.")]) 200, db)
          else
            let total_val := py_sum (InventoryItem.current_value <$> items_to_sell) in
            let user := User.set_ton_balance (User.ton_balance user + total_val) user in
            let user :=
              User.set_total_won_ton (py_max 0 (User.total_won_ton user - total_val)) user in
            (Reply (JObj [("status", success_status);
                          ("message", JStr (pretty (length items_to_sell) ++ " items sold."));
                          ("new_balance_ton", JNum (User.ton_balance user))]) 200,
             set_inventory_items
               (filter (fun i => sellable uid i = false) (inventory_items db))
               (set_users (<[ui := user]> (users db)) db))
      end
  end.

(** *** Referral earnings and promo codes *)

Definition withdraw_referral_earnings_api (auth : option auth_data) (db : DB) : reply * DB :=
  match auth with
  | None => (error_reply "Auth failed" 401, db)
  | Some auth =>
      let uid := auth_id auth in
      match user_by_id uid db with
      | None => (error_reply "User not found" 404, db)
      | Some (ui, user) =>
          if Qlt_bool 0 (User.referral_earnings_pending user) then
            let amount := User.referral_earnings_pending user in
            let user := User.set_ton_balance (User.ton_balance user + amount) user in
            let user := User.set_referral_earnings_pending 0.0 user in
            (Reply (JObj [("status", success_status);
                          ("new_balance_ton", JNum (User.ton_balance user));
                          ("new_referral_earnings_pending", JNum 0.0)]) 200,
             set_users (<[ui := user]> (users db)) db)
          else (Reply (JObj [("status", JStr "no_earnings")]) 200, db)
      end
  end.

(** [s.strip()] *)
Fixpoint str_lstrip (s : string) : string :=
  match s with
  | String c s' => if ascii_is_space c then str_lstrip s' else s
  | EmptyString => EmptyString
  end.
Definition str_strip (s : string) : string :=
  String.rev (str_lstrip (String.rev (str_lstrip s))).

Definition redeemed_by (uid promo_id : Z) (db : DB) : bool :=
  bool_decide (is_Some (query_first
    (fun r => bool_decide (UserPromoCodeRedemption.user_id r = uid) &&
              bool_decide (UserPromoCodeRedemption.promo_code_id r = promo_id))
    (user_promo_code_redemptions db))).

(** [promocode_text] is the value of [flask_request.json.get('promocode_text', "")]. *)
Definition redeem_promocode_api (auth : option auth_data) (promocode_text : string)
    (db : DB) : reply * DB :=
  match auth with
  | None => (error_reply "Auth failed" 401, db)
  | Some auth =>
      let uid := auth_id auth in
      let code := str_strip promocode_text in
      if negb (str_truthy (Some code)) then (error_reply "Code required." 400, db) else
      match user_by_id uid db,
            query_first (fun p => bool_decide (PromoCode.code_text p = code)) (promo_codes db)
      with
      | Some (ui, user), Some (pi, promo) =>
          if negb (bool_decide (PromoCode.activations_left promo = (-1)%Z))
             && bool_decide (PromoCode.activations_left promo <= 0)%Z
          then (error_reply "Code expired." 400, db) else
          if redeemed_by uid (PromoCode.id promo) db
          then (error_reply "Already redeemed." 400, db) else
          let promo :=
            if negb (bool_decide (PromoCode.activations_left promo = (-1)%Z))
            then PromoCode.set_activations_left (PromoCode.activations_left promo - 1)%Z promo
            else promo in
          let user :=
            User.set_ton_balance (User.ton_balance user + PromoCode.ton_amount promo) user in
          (Reply (JObj [("status", success_status);
                        ("message", JStr ("Redeemed! +" ++ float_repr (PromoCode.ton_amount promo)
                                          ++ " TON"));
                        ("new_balance_ton", JNum (User.ton_balance user))]) 200,
           set_user_promo_code_redemptions
             (user_promo_code_redemptions db
                ++ [UserPromoCodeRedemption.mk uid (PromoCode.id promo)])
             (set_promo_codes (<[pi := promo]> (promo_codes db))
                (set_users (<[ui := user]> (users db)) db)))
      | _, _ => (error_reply "Invalid data." 404, db)
      end
  end.

(** *** Referral registration *)

(** Truth value of [referred.referred_by_id]: [None] and [0] are false. *)
Definition id_truthy (o : option Z) : bool :=
  match o with
  | Some n => negb (bool_decide (n = 0%Z))
  | None => false
  end.

(** [rnd] is the value of [random.randint(1000, 9999)].  The notification
    sent to the referrer changes nothing in the database and cannot fail
    the request; it is left out. *)
Definition register_referral_api (user_id : option Z)
    (username first_name last_name referral_code : option string) (rnd : Z) (db : DB)
    : reply * DB :=
  match user_id, referral_code with
  | Some uid, Some ref_code =>
      if negb (id_truthy user_id) || negb (str_truthy referral_code)
      then (error_reply "Missing data" 400, db) else
      (* the rows that the session sees, and the position of [referred] *)
      let '(rows, ri, referred) :=
        match user_by_id uid db with
        | Some (ri, referred) => (users db, ri, referred)
        | None =>
            let referred :=
              User.mk uid username first_name last_name 0.0
                (Some ("ref_" ++ pretty uid ++ "_" ++ pretty rnd)) None 0.0 0.0 in
            ((users db ++ [referred])%list, length (users db), referred)
        end in
      if id_truthy (User.referred_by_id referred)
      then (Reply (JObj [("status", JStr "already_referred")]) 200, db) else
      let referrer :=
        query_first (fun u => bool_decide (User.referral_code u = Some ref_code)) rows in
      let referred :=
        match referrer with
        | Some (_, referrer) =>
            if negb (bool_decide (User.id referrer = User.id referred))
            then User.set_referred_by_id (Some (User.id referrer)) referred
            else referred
        | None => referred
        end in
      (Reply (JObj [("status", success_status)]) 200,
       set_users (<[ri := referred]> rows) db)
  | _, _ => (error_reply "Missing data" 400, db)
  end.
End Handlers.

(** ** Authentication of the init data

    [hashlib.sha256] and [hmac.new(key, msg, hashlib.sha256)] on byte
    strings (FIPS 180-4 and RFC 2104).  A byte is a number below 256 and a
    word a number below [2^32]. *)

Module SHA256.
Local Open Scope N_scope.

Definition w32 (x : N) : N := x mod 2 ^ 32.
Definition add32 (x y : N) : N := w32 (x + y).
Definition rotr (n x : N) : N := N.lor (N.shiftr x n) (w32 (N.shiftl x (32 - n))).
Definition not32 (x : N) : N := N.lxor x 0xffffffff.

Definition Ch (x y z : N) : N := N.lxor (N.land x y) (N.land (not32 x) z).
Definition Maj (x y z : N) : N := N.lxor (N.lxor (N.land x y) (N.land x z)) (N.land y z).
Definition Sigma0 (x : N) : N := N.lxor (N.lxor (rotr 2 x) (rotr 13 x)) (rotr 22 x).
Definition Sigma1 (x : N) : N := N.lxor (N.lxor (rotr 6 x) (rotr 11 x)) (rotr 25 x).
Definition sigma0 (x : N) : N := N.lxor (N.lxor (rotr 7 x) (rotr 18 x)) (N.shiftr x 3).
Definition sigma1 (x : N) : N := N.lxor (N.lxor (rotr 17 x) (rotr 19 x)) (N.shiftr x 10).

(** The constants are derived as the standard defines them: the first 32
    bits of the fractional parts of the cube roots (for [K]) and of the square
    roots (for [H0]) of the first primes. *)
Definition is_prime (n : N) : bool :=
  (1 <? n) && forallb (fun d => negb (n mod d =? 0)) (N.of_nat <$> seq 2 (N.to_nat n - 2)).

Definition primes : list N := filter (fun n => is_prime n = true) (N.of_nat <$> seq 0 312).

(** The integer cube root, bit by bit from bit 39 down. *)
Definition cube_root (n : N) : N :=
  fold_left (fun r b => let r' := r + 2 ^ N.of_nat b in if r' * r' * r' <=? n then r' else r)
            (rev (seq 0 40)) 0.

Definition K : list N := (fun p => w32 (cube_root (p * 2 ^ 96))) <$> take 64 primes.

Definition H0 : list N := (fun p => w32 (N.sqrt (p * 2 ^ 64))) <$> take 8 primes.

(** Big-endian bytes of a number, [n] of them. *)
Fixpoint be_bytes (n : nat) (x : N) : list N :=
  match n with
  | O => []
  | S n' => (N.shiftr x (8 * N.of_nat n')) mod 256 :: be_bytes n' x
  end.

Definition be_word (bytes : list N) : N :=
  fold_left (fun acc b => acc * 256 + b) bytes 0.

(** The message followed by the byte 0x80, zero bytes up to 56 modulo 64,
    and the bit length on eight bytes. *)
Definition pad (msg : list N) : list N :=
  let len := length msg in
  let zeros := ((119 - len `mod` 64) `mod` 64)%nat in
  (msg ++ [0x80] ++ replicate zeros 0 ++ be_bytes 8 (8 * N.of_nat len))%list.

(** Cuts a list in pieces of [n] elements; [fuel] bounds their number. *)
Fixpoint chunks {A : Type} (fuel n : nat) (l : list A) : list (list A) :=
  match fuel with
  | O => []
  | S fuel' =>
      match l with
      | [] => []
      | _ => take n l :: chunks fuel' n (drop n l)
      end
  end.

(** The message schedule, most recent word first: [rev_w] holds
    [W(t-1), W(t-2), ...]. *)
Fixpoint extend_schedule (rounds : nat) (rev_w : list N) : list N :=
  match rounds with
  | O => rev_w
  | S rounds' =>
      let w i := default 0 (rev_w !! i) in
      extend_schedule rounds'
        (add32 (add32 (sigma1 (w 1%nat)) (w 6%nat)) (add32 (sigma0 (w 14%nat)) (w 15%nat))
         :: rev_w)
  end.

Definition schedule (block : list N) : list N :=
  rev (extend_schedule 48 (rev (be_word <$> chunks 16 4 block))).

Definition round (state : list N) (kw : N * N) : list N :=
  match state with
  | [a; b; c; d; e; f; g; h] =>
      let t1 := add32 (add32 (add32 h (Sigma1 e)) (add32 (Ch e f g) kw.1)) kw.2 in
      let t2 := add32 (Sigma0 a) (Maj a b c) in
      [add32 t1 t2; a; b; c; add32 d t1; e; f; g]
  | _ => state
  end.

Definition compress (state block : list N) : list N :=
  zip_with add32 state (fold_left round (zip K (schedule block)) state).

(** The digest, 32 bytes. *)
Definition digest (msg : list N) : list N :=
  let padded := pad msg in
  mjoin (be_bytes 4 <$> fold_left compress (chunks (length padded) 64 padded) H0).

(** [hmac.new(key, msg, hashlib.sha256).digest()] *)
Definition hmac (key msg : list N) : list N :=
  let key := if bool_decide (64 < length key)%nat then digest key else key in
  let key := (key ++ replicate (64 - length key) 0)%list in
  digest ((N.lxor 0x5c <$> key) ++ digest ((N.lxor 0x36 <$> key) ++ msg))%list.

Definition hex_digit (d : N) : ascii :=
  ascii_of_N (if d <? 10 then 48 + d else 87 + d).

(** [.hexdigest()]: two lower-case hexadecimal digits for every byte. *)
Definition hex (bytes : list N) : string :=
  string_of_list_ascii
    (mjoin ((fun b => [hex_digit (b / 16); hex_digit (b mod 16)]) <$> bytes)).

(** [s.encode()] for a string of bytes. *)
Definition encode (s : string) : list N := N_of_ascii <$> list_ascii_of_string s.
End SHA256.

(** [urllib.parse.unquote] on a string of bytes: every [%XY] with two
    hexadecimal digits becomes the byte they write; any other [%] stays.
    (The replacement of bytes that are not UTF-8 text is not represented.) *)
Definition hex_value (c : ascii) : option N :=
  let n := N_of_ascii c in
  if ((48 <=? n) && (n <=? 57))%N then Some (n - 48)%N
  else if ((65 <=? n) && (n <=? 70))%N then Some (n - 55)%N
  else if ((97 <=? n) && (n <=? 102))%N then Some (n - 87)%N
  else None.

Fixpoint unquote (s : string) : string :=
  match s with
  | EmptyString => EmptyString
  | String c s' =>
      if Ascii.eqb c "%" then
        match s' with
        | String h (String l s'') =>
            match hex_value h, hex_value l with
            | Some a, Some b => String (ascii_of_N (16 * a + b)) (unquote s'')
            | _, _ => String c (unquote s')
            end
        | _ => String c (unquote s')
        end
      else String c (unquote s')
  end.

(** [s.split(sep)] for a one-character separator. *)
Fixpoint str_split (sep : ascii) (s : string) : list string :=
  match s with
  | EmptyString => [EmptyString]
  | String c s' =>
      if Ascii.eqb c sep then EmptyString :: str_split sep s'
      else match str_split sep s' with
           | piece :: pieces => String c piece :: pieces
           | [] => [String c EmptyString]
           end
  end.

(** [s.split(sep, 1)] when it has two parts. *)
Fixpoint str_split_once (sep : ascii) (s : string) : option (string * string) :=
  match s with
  | EmptyString => None
  | String c s' =>
      if Ascii.eqb c sep then Some (EmptyString, s')
      else (fun parts => (String c parts.1, parts.2)) <$> str_split_once sep s'
  end.

(** [sep.join(l)] *)
Fixpoint str_join (sep : string) (l : list string) : string :=
  match l with
  | [] => EmptyString
  | [s] => s
  | s :: l' => s +:+ sep +:+ str_join sep l'
  end.

(** [urllib.parse.parse_qsl] with its default arguments: fields are cut
    at [&]; a field without [=] or with an empty value is dropped. *)
Definition parse_qsl (qs : string) : list (string * string) :=
  omap (fun name_value =>
          match str_split_once "=" name_value with
          | Some (name, String c value) =>
              Some (unquote (str_replace_char "+" " " name),
                    unquote (str_replace_char "+" " " (String c value)))
          | _ => None
          end)
       (str_split "&" qs).

(** [urllib.parse.parse_qs]: the values of a name, in their order. *)
Definition parse_qs (qs : string) : gmap string (list string) :=
  foldl (fun parsed_result nv => <[nv.1 := (default [] (parsed_result !! nv.1) ++ [nv.2])%list]> parsed_result)
        ∅ (parse_qsl qs).

Definition newline : string := String (ascii_of_N 10) EmptyString.

(** [sorted(...)] of a list of strings. *)
Definition sorted_strings (l : list string) : list string := merge_sort String.le l.

(** Lines 322-324: the digest that the supplied hash is compared with.
    [None] when a value list is empty and [v[0]] raises. *)
Definition expected_hash (data : gmap string (list string)) (token : string) : option string :=
  lines ← mapM (fun kv => (fun v0 => kv.1 +:+ "=" +:+ v0) <$> head kv.2) (map_to_list data);
  let check_str := str_join newline (sorted_strings lines) in
  let secret := SHA256.hmac (SHA256.encode "WebAppData") (SHA256.encode token) in
  Some (SHA256.hex (SHA256.hmac secret (SHA256.encode check_str))).

Section Auth.
(** Library code whose value is left open: [json.loads] and [int], each
    [None] where it raises. *)
Variable json_loads : string -> option json.
Variable py_int : json -> option Z.

(** Lines 325-327: the user data, with its [id] made an integer. *)
Definition load_user_data (data : gmap string (list string)) : option (list (string * json)) :=
  user_field ← data !! "user" ≫= head;
  match json_loads (unquote user_field) with
  | Some (JObj user_data) =>
      id_value ← snd <$> list_find (fun kv => kv.1 = "id") user_data;
      n ← py_int id_value.2;
      Some ((fun kv => if bool_decide (kv.1 = "id") then (kv.1, JInt n) else kv) <$> user_data)
  | _ => None
  end.

(** [None] of an argument is an absent header or an unset token.  Every
    exception inside the [try] gives [None]. *)
Definition validate_init_data (init_data_str token : option string)
    : option (list (string * json)) :=
  match init_data_str, token with
  | Some (String c0 s0), Some (String c1 s1) =>
      let init_data_str := String c0 s0 in
      let token := String c1 s1 in
      let data := parse_qs init_data_str in
      match data !! "hash" with
      | None => None
      | Some hash_values =>
          hash_val ← head hash_values;
          let data := delete "hash" data in
          expected ← expected_hash data token;
          if bool_decide (expected = hash_val) then load_user_data data else None
      end
  | _, _ => None
  end.
End Auth.

(** ** Start-up population of the gift table

    [UPDATED_FLOOR_PRICES.items()]: the entries in the order of the
    dictionary literal. *)
Definition UPDATED_FLOOR_PRICES_items : list (string * Q) :=
  [
    ("Plush Pepe", 3024.0); ("Neko Helmet", 15.0); ("Sharp Tongue", 17.0);
    ("Durov's Cap", 420.0); ("Voodoo Doll", 9.4); ("Vintage Cigar", 24.0);
    ("Astral Shard", 80.0); ("Scared Cat", 22.0); ("Swiss Watch", 25.0);
    ("Perfume Bottle", 88.0); ("Precious Peach", 270.0); ("Toy Bear", 16.3);
    ("Genie Lamp", 46.0); ("Loot Bag", 45.0); ("Kissed Frog", 24.0); ("Electric Skull", 10.9);
    ("Diamond Ring", 12.0); ("Mini Oscar", 40.5); ("Party Sparkler", 2.0);
    ("Homemade Cake", 2.0); ("Cookie Heart", 1.8); ("Jack-in-the-box", 2.0);
    ("Skull Flower", 3.4); ("Lol Pop", 1.1); ("Hypno Lollipop", 1.4); ("Desk Calendar", 1.1);
    ("B-Day Candle", 1.4); ("Record Player", 4.0); ("Jelly Bunny", 3.6); ("Tama Gadget", 4.0);
    ("Snow Globe", 2.0); ("Eternal Rose", 11.0); ("Love Potion", 5.4); ("Top Hat", 6.0);
    ("Berry Box", 4.1); ("Bunny Muffin", 4.0); ("Candy Cane", 1.6); ("Crystal Ball", 6.0);
    ("Easter Egg", 1.8); ("Eternal Candle", 3.1); ("Evil Eye", 4.2); ("Flying Broom", 4.5);
    ("Ginger Cookie", 2.7); ("Hanging Star", 4.1); ("Hex Pot", 3.1); ("Ion Gem", 44.0);
    ("Jester Hat", 2.0); ("Jingle Bells", 1.8); ("Love Candle", 6.7); ("Lunar Snake", 1.5);
    ("Mad Pumpkin", 6.2); ("Magic Potion", 54.0); ("Pet Snake", 3.2); ("Sakura Flower", 4.1);
    ("Santa Hat", 2.0); ("Signet Ring", 18.8); ("Sleigh Bell", 6.0); ("Snow Mittens", 2.9);
    ("Spiced Wine", 2.2); ("Spy Agaric", 2.8); ("Star Notepad", 2.8); ("Trapped Heart", 6.0);
    ("Winter Wreath", 2.0); ("Big Year", 4.4); ("Snake Box", 3.3); ("Bonded Ring", 60.5);
    ("Xmas Stocking", 2.5); ("Dildo", 43.0); ("Skebob", 10.0); ("Baggin' Cat", 3.0);
    ("Restless Jar", 4.0); ("Nail Bracelet", 70.0); ("Heroic Helmet", 190.0); ("Bow Tie", 3.0);
    ("Heart Locket", 990.0); ("Lush Bouquet", 3.0); ("Whip Cupcake", 2.0);
    ("Joyful Bundle", 3.0); ("Cupid Charm", 12.0); ("Valentine Box", 4.0);
    ("Snoop Dogg", 2.12); ("Swag Bag", 2.12); ("Snoop Cigar", 4.0); ("Low Rider", 30.0);
    ("Westside Sign", 98.0)  ].

Definition set_nfts (v : list NFT.t) (db : DB) : DB :=
  mkDB (users db) v (inventory_items db) (promo_codes db)
       (user_promo_code_redemptions db) (inventory_items_next_id db).

(** One round of the loop of [initial_setup_and_logging].  [rows] are the
    rows of [nfts] that the session has loaded, with the changes made so
    far; [added] are the rows passed to [db.add], which no query of the
    loop sees, the session being made with [autoflush=False]. *)
Definition setup_round (state : list NFT.t * list (string * string * Q))
    (entry : string * Q) : list NFT.t * list (string * string * Q) :=
  let '(rows, added) := state in
  let '(name, price) := entry in
  let img := generate_image_filename_from_name name in
  match query_first (fun n => bool_decide (NFT.name n = name)) rows with
  | None => (rows, (added ++ [(name, img, price)])%list)
  | Some (i, nft) =>
      if negb (Qeq_bool (NFT.floor_price nft) price)
         || negb (bool_decide (NFT.image_filename nft = Some img))
      then (<[i := NFT.mk (NFT.id nft) (NFT.name nft) (Some img) price]> rows, added)
      else (rows, added)
  end.

(** The loop over [items], then the commit: the added rows get the next
    values of the key, in the order of their addition.  [nfts_next_id] is
    the value that the database gives to the first of them. *)
Definition populate_nfts (items : list (string * Q)) (nfts_next_id : Z) (db : DB) : DB :=
  let '(rows, added) := foldl setup_round (nfts db, []) items in
  set_nfts
    (rows ++ imap (fun k '(name, img, price) =>
                     NFT.mk (nfts_next_id + Z.of_nat k)%Z name (Some img) price) added)
    db.

Definition initial_setup_and_logging (nfts_next_id : Z) (db : DB) : DB :=
  populate_nfts UPDATED_FLOOR_PRICES_items nfts_next_id db.

(** ** The routes that only read, and the account page *)

(** An entry of ["inventory"] in the reply of [get_user_data_api]. *)
Definition inventory_entry_json (db : DB) (i : InventoryItem.t) : json :=
  JObj [("id", JInt (InventoryItem.id i));
        ("name", JOptStr match nft_of_item i db with
                         | Some nft => Some (NFT.name nft)
                         | None => InventoryItem.item_name_override i
                         end);
        ("imageFilename", JOptStr (InventoryItem.item_image_override i));
        ("currentValue", JNum (InventoryItem.current_value i));
        ("is_ton_prize", JBool (InventoryItem.is_ton_prize i))].

(** [db.query(User).filter(User.referred_by_id == uid).count()] *)
Definition refs_count (uid : Z) (db : DB) : nat :=
  length (filter (fun u => User.referred_by_id u = Some uid) (users db)).

Definition user_data_json (user : User.t) (db : DB) : json :=
  JObj [("id", JInt (User.id user));
        ("username", JOptStr (User.username user));
        ("first_name", JOptStr (User.first_name user));
        ("last_name", JOptStr (User.last_name user));
        ("tonBalance", JNum (User.ton_balance user));
        ("inventory", JList (inventory_entry_json db <$> inventory_of (User.id user) db));
        ("referralCode", JOptStr (User.referral_code user));
        ("referralEarningsPending", JNum (User.referral_earnings_pending user));
        ("invited_friends_count", JInt (Z.of_nat (refs_count (User.id user) db)))].

(** [rnd] is the value of [random.randint(1000, 9999)].  The column
    [referral_code] is declared unique: the commit of a new account whose
    code another row holds raises [IntegrityError], which the handler does
    not catch. *)
Definition get_user_data_api (auth : option auth_data) (rnd : Z) (db : DB) : reply * DB :=
  match auth with
  | None => (error_reply "Auth failed" 401, db)
  | Some auth =>
      let uid := auth_id auth in
      match user_by_id uid db with
      | Some (_, user) => (Reply (user_data_json user db) 200, db)
      | None =>
          let user :=
            User.mk uid (auth_username auth) (auth_first_name auth) (auth_last_name auth) 0.0
              (Some ("ref_" ++ pretty uid ++ "_" ++ pretty rnd)) None 0.0 0.0 in
          if bool_decide (Exists (fun u => User.referral_code u = User.referral_code user)
                            (users db))
          then (Unhandled, db)
          else
            let db := set_users (users db ++ [user]) db in
            (Reply (user_data_json user db) 200, db)
      end
  end.

(** [u.first_name or u.username or f"User_{str(u.id)[:4]}"] *)
Definition leader_name (u : User.t) : string :=
  match User.first_name u with
  | Some (String c s) => String c s
  | _ =>
      match User.username u with
      | Some (String c s) => String c s
      | _ => "User_" ++ String.substring 0 4 (pretty (User.id u))
      end
  end.

(** [(u.first_name or "U")[0].upper()] *)
Definition leader_avatar (u : User.t) : string :=
  match User.first_name u with
  | Some (String c _) => String (ascii_upper c) EmptyString
  | _ => "U"
  end.

(** [order_by(User.total_won_ton.desc()).limit(100)].  Rows with equal
    winnings come in the order of the table here; the database may order
    them otherwise. *)
Definition leaders (db : DB) : list User.t :=
  take 100 (sorted_desc User.total_won_ton (users db)).

Definition get_leaderboard_api (db : DB) : reply :=
  Reply (JList (imap (fun i u =>
                        JObj [("rank", JInt (Z.of_nat i + 1));
                              ("name", JStr (leader_name u));
                              ("avatarChar", JStr (leader_avatar u));
                              ("income", JNum (User.total_won_ton u));
                              ("user_id", JInt (User.id u))])
                      (leaders db))) 200.

(** ** The bot: [/start] with a referral code *)

(** The JSON body posted to [/api/register_referral]. *)
Record referral_payload := {
  rp_user_id : Z;
  rp_username : option string;
  rp_first_name : option string;
  rp_last_name : option string;
  rp_referral_code : string
}.

(** Lines 138-142: the second word of the message, when it starts with
    [ref_]. *)
Definition referral_code_found (text : string) : option string :=
  match str_split " " text with
  | _ :: part :: _ => if String.prefix "ref_" part then Some part else None
  | _ => None
  end.

(** The request that [send_welcome] posts, if any.  [chat_id] is
    [message.chat.id]; the names are those of [message.from_user].  The
    welcome picture, sent in every case, is left out. *)
Definition send_welcome (chat_id : Z) (username first_name last_name : option string)
    (text : string) : option referral_payload :=
  match referral_code_found text with
  | Some (String c code) =>
      Some {| rp_user_id := chat_id; rp_username := username; rp_first_name := first_name;
              rp_last_name := last_name; rp_referral_code := String c code |}
  | _ => None
  end.

(** * Statements: states, predicates and sample data used by the properties *)

(** A case whose only prize with a market value has weight zero, at a
    price that the filler cannot pay back. *)
Definition case_disabled_prize : Case.t p_info_t :=
  Case.mk "disabled" "Disabled prize" "disabled.jpg" 2.0
    [p_info "Lol Pop" 0 None None;
     p_info "Nothing" 1 (Some "placeholder_nothing.png") None].

(** A case that the proportional fallback calibrates: the expected value of
    the raw weights is above the target, so the filler would need a negative
    probability. *)
Definition case_fallback : Case.t p_info_t :=
  Case.mk "fallback" "Fallback" "fallback.jpg" 1.0
    [p_info "Astral Shard" 0.1 None None; p_info "Lol Pop" 0.9 None None].


(** An inventory row made from an entry of a table. *)
Definition drawn_from (table : list Prize.t) (uid : Z) (db : DB) (item : InventoryItem.t) : Prop :=
  exists chosen, chosen ∈ table /\ item = won_item uid chosen db (InventoryItem.id item).


(** An account with balance 10.0 and nothing else. *)
Definition alice : User.t :=
  User.mk 7 (Some "alice") None None 10.0 (Some "ref_7_1234") None 0.0 0.0.
Definition db_one_account : DB := mkDB [alice] [] [] [] [] 1.

Definition auth_alice : auth_data :=
  {| auth_id := 7; auth_username := Some "alice";
     auth_first_name := None; auth_last_name := None |}.


(** The random generator that always returns 0.5. *)
Definition always_half : nat -> Q := fun _ => 0.5.

(** The ledger operations and the handler that serves each. *)
Inductive operation :=
| TopUp (auth : option auth_data) (amount : option Q)
| OpenCase (auth : option auth_data) (case_id : option string) (mult : Z) (rand : nat -> Q)
| Upgrade (auth : option auth_data) (inventory_item_id : option Z)
    (desired_item_name : option string) (roll : Q)
| ConvertToTon (auth : option auth_data) (inventory_item_id : option Z)
| SellAll (auth : option auth_data)
| RedeemPromo (auth : option auth_data) (promocode_text : string)
| WithdrawReferralEarnings (auth : option auth_data)
| WithdrawGift (auth : option auth_data) (inventory_item_id : option Z)
    (post : withdrawal_payload -> fulfillment).

Definition run (decimal_pow_frac : Q -> Q -> Q) (float_repr : Q -> string)
    (op : operation) (db : DB) : reply * DB :=
  match op with
  | TopUp auth amount => instant_topup_api auth amount db
  | OpenCase auth case_id mult rand => open_case_api auth case_id mult rand db
  | Upgrade auth item_id desired roll =>
      upgrade_item_v2_api decimal_pow_frac auth item_id desired roll db
  | ConvertToTon auth item_id => convert_to_ton_api auth item_id db
  | SellAll auth => sell_all_items_api auth db
  | RedeemPromo auth text => redeem_promocode_api float_repr auth text db
  | WithdrawReferralEarnings auth => withdraw_referral_earnings_api auth db
  | WithdrawGift auth item_id post =>
      let result := withdraw_gift_api auth item_id post db in (result.1.1, result.1.2)
  end.

Definition valuations_non_negative (db : DB) : Prop :=
  Forall (fun item => 0 <= InventoryItem.current_value item) (inventory_items db).

Definition promo_amounts_non_negative (db : DB) : Prop :=
  Forall (fun promo => 0 <= PromoCode.ton_amount promo) (promo_codes db).

(** The accounts of [db'] are those of [db], but for one row whose balance
    stays non-negative if it was. *)
Definition balance_safe (db db' : DB) : Prop :=
  users db' = users db
  \/ exists ui user user',
       users db !! ui = Some user
       /\ users db' = <[ui := user']> (users db)
       /\ User.id user' = User.id user
       /\ (0 <= User.ton_balance user -> 0 <= User.ton_balance user').

(** An account with an empty balance and a promo code whose amount is
    negative. *)
Definition db_negative_promo : DB :=
  mkDB [User.mk 7 (Some "alice") None None 0.0 (Some "ref_7_1234") None 0.0 0.0]
       [] [] [PromoCode.mk 1 "MINUS" (-1) (-5)] [] 1.

Definition after_negative_promo : DB :=
  (run (fun _ _ => 0) (fun _ => "-5.0") (RedeemPromo (Some auth_alice) "MINUS")
       db_negative_promo).2.

Definition expired (promo : PromoCode.t) : bool :=
  negb (bool_decide (PromoCode.activations_left promo = (-1)%Z))
  && bool_decide (PromoCode.activations_left promo <= 0)%Z.

(** The row of the promo code after a redemption. *)
Definition decremented (promo : PromoCode.t) : PromoCode.t :=
  if negb (bool_decide (PromoCode.activations_left promo = (-1)%Z))
  then PromoCode.set_activations_left (PromoCode.activations_left promo - 1)%Z promo
  else promo.

(** The committed state after a redemption. *)
Definition redeemed (db : DB) (uid : Z) (ui : nat) (user : User.t) (pi : nat)
    (promo : PromoCode.t) : DB :=
  set_user_promo_code_redemptions
    (user_promo_code_redemptions db ++ [UserPromoCodeRedemption.mk uid (PromoCode.id promo)])
    (set_promo_codes (<[pi := decremented promo]> (promo_codes db))
       (set_users
          (<[ui := User.set_ton_balance (User.ton_balance user + PromoCode.ton_amount promo) user]>
             (users db)) db)).

(** An account with an empty balance and a promo code with one activation
    left and amount 5. *)
Definition alice_broke : User.t :=
  User.mk 7 (Some "alice") None None 0.0 (Some "ref_7_1234") None 0.0 0.0.
Definition gift5 : PromoCode.t := PromoCode.mk 1 "GIFT5" 1 5.
Definition db_promo : DB := mkDB [alice_broke] [] [] [gift5] [] 1.
Definition show_5 : Q -> string := fun _ => "5.0".
Definition db_promo_redeemed : DB :=
  (redeem_promocode_api show_5 (Some auth_alice) "GIFT5" db_promo).2.

(** The payload sent for an item. *)
Definition payload_for (username : string) (item : InventoryItem.t) (db : DB)
    : withdrawal_payload :=
  {| giftname := match nft_of_item item db with
                 | Some nft => Some (NFT.name nft)
                 | None => InventoryItem.item_name_override item
                 end;
     receiverUsername := username;
     senderUsername := WITHDRAWAL_SENDER_USERNAME |}.

(** An account that owns one gift. *)
Definition lol_pop_item : InventoryItem.t :=
  InventoryItem.mk 1 7 None (Some "Lol Pop") None 1.1 1.0 false.
Definition db_one_gift : DB := mkDB [alice] [] [lol_pop_item] [] [] 2.

(** The fulfillment service answers 500 with the JSON body [[]]. *)
Definition post_error_list : withdrawal_payload -> fulfillment :=
  fun _ => ErrorStatus 500 BodyOtherJson.




(** An account that owns a Party Sparkler worth 2.0, and the Record Player,
    worth 4.0, in the gift table: the chance is 45, a roll of 50 fails. *)
Definition sparkler_item : InventoryItem.t :=
  InventoryItem.mk 1 7 None (Some "Party Sparkler") None 2.0 1.0 false.
Definition record_player : NFT.t := NFT.mk 1 "Record Player" None 4.0.
Definition db_upgrade : DB := mkDB [alice] [record_player] [sparkler_item] [] [] 2.
Definition no_pow : Q -> Q -> Q := fun _ _ => 0.

(** The check of the specification: the lines [key=value] of all fields but
    the signature, sorted and joined by newlines, signed with the key
    [HMAC-SHA256(key="WebAppData", message=token)]; the payload passes when
    the hexadecimal digest is the supplied signature. *)
Definition check_line (kv : string * list string) : string :=
  kv.1 +:+ "=" +:+ default EmptyString (head kv.2).

Definition data_check_string (data : gmap string (list string)) : string :=
  str_join newline (sorted_strings (check_line <$> map_to_list (delete "hash" data))).

Definition specified_signature (data : gmap string (list string)) (token : string) : string :=
  SHA256.hex
    (SHA256.hmac (SHA256.hmac (SHA256.encode "WebAppData") (SHA256.encode token))
       (SHA256.encode (data_check_string data))).

Definition signature_matches (data : gmap string (list string)) (token : string) : Prop :=
  data !! "hash" ≫= head = Some (specified_signature data token).

Definition test_token : string := "12345:TESTTOKEN".

(** A payload without a [user] field, signed with [test_token]. *)
Definition payload_without_user : string :=
  "auth_date=1700000000&query_id=AAE"
  +:+ "&hash=973e29586d50ead65d26ffaf51b40fcea7184ba727cc2a20f79cc9a8322b201d".

(** A payload dated one second after the epoch, with the user
    [{"id":42}], signed with [test_token]. *)
Definition payload_of_1970 : string :=
  "auth_date=1&user=%7B%22id%22%3A42%7D"
  +:+ "&hash=240db81c05477ae8ee7e4ab9e426e378373315db749e19b749784e161a6449af".

Definition double_quote : string := String (ascii_of_N 34) EmptyString.
Definition user_42_text : string := "{" +:+ double_quote +:+ "id" +:+ double_quote +:+ ":42}".

(** The account that a registration creates. *)
Definition new_account (uid : Z) (username first_name last_name : option string) (rnd : Z)
    : User.t :=
  User.mk uid username first_name last_name 0.0
    (Some ("ref_" +:+ pretty uid +:+ "_" +:+ pretty rnd)) None 0.0 0.0.


(** Every character of [s] passes [P]. *)
Fixpoint str_all (P : ascii -> bool) (s : string) : bool :=
  match s with
  | EmptyString => true
  | String c s' => P c && str_all P s'
  end.
(** The extensions that [generate_image_filename_from_name] looks for. *)
Definition image_extensions : list string := [".png"; ".jpg"; ".jpeg"; ".gif"; ".svg"].

(** The status code of a reply; none when the handler was left by an
    exception. *)
Definition reply_status (r : reply) : option Z :=
  match r with
  | Reply _ status => Some status
  | Unhandled => None
  end.

(** The identity that an operation is performed with. *)
Definition operation_auth (op : operation) : option auth_data :=
  match op with
  | TopUp auth _ | OpenCase auth _ _ _ | Upgrade auth _ _ _ | ConvertToTon auth _
  | SellAll auth | RedeemPromo auth _ | WithdrawReferralEarnings auth
  | WithdrawGift auth _ _ => auth
  end.

(** What belongs to the accounts other than [uid] is in [db'] as it is in
    [db]: their rows of [users], at the same positions, their inventory, in
    the same order, and their redemptions. *)
Definition others_untouched (uid : Z) (db db' : DB) : Prop :=
  (forall i account,
      users db !! i = Some account -> User.id account <> uid ->
      users db' !! i = Some account)
  /\ filter (fun item => InventoryItem.user_id item <> uid) (inventory_items db')
     = filter (fun item => InventoryItem.user_id item <> uid) (inventory_items db)
  /\ filter (fun r => UserPromoCodeRedemption.user_id r <> uid) (user_promo_code_redemptions db')
     = filter (fun r => UserPromoCodeRedemption.user_id r <> uid) (user_promo_code_redemptions db)
  /\ nfts db' = nfts db.





Definition always_delivered : withdrawal_payload -> fulfillment := fun _ => Delivered.

(** [s] is empty or starts with a character that is not white space. *)
Definition starts_clean (s : string) : Prop :=
  match s with
  | String c _ => ascii_is_space c = false
  | EmptyString => True
  end.

(** No account is recorded as its own referrer. *)
Definition no_self_referral (db : DB) : Prop :=
  Forall (fun u => User.referred_by_id u <> Some (User.id u)) (users db).

(** A digit or a letter from [a] to [f]. *)
Definition is_lower_hex (c : ascii) : bool :=
  let n := N_of_ascii c in
  (((48 <=? n) && (n <=? 57)) || ((97 <=? n) && (n <=? 102)))%N.

(** A decoder that knows the text [{"id":42}] only, and [int] on JSON
    integers. *)
Definition loads_user_42 (s : string) : option json :=
  if String.eqb s user_42_text then Some (JObj [("id", JInt 42)]) else None.
Definition int_of_json (j : json) : option Z :=
  match j with
  | JInt n => Some n
  | _ => None
  end.

(** An account 8 without a referrer, beside the account 7. *)
Definition bob : User.t := User.mk 8 (Some "bob") None None 0.0 (Some "ref_8_5678") None 0.0 0.0.
Definition db_two_accounts : DB := mkDB [alice; bob] [] [] [] [] 1.

(** The identity of a newcomer, the account 9. *)
Definition auth_carol : auth_data :=
  {| auth_id := 9; auth_username := Some "carol";
     auth_first_name := Some "Carol"; auth_last_name := None |}.

(** [u] comes before [v] on the leaderboard only if it has won at least as
    much. *)
Definition ranks_before (u v : User.t) : Prop := User.total_won_ton v <= User.total_won_ton u.

(** Two accounts without a first name. *)
Definition db_leaders : DB :=
  mkDB [User.mk 12345678 None None None 0.0 None None 0.0 1.5;
        User.mk 7 (Some "alice") None None 0.0 None None 0.0 4.0] [] [] [] [] 1.

(** The table that the commit of the start-up population leaves: the loaded
    rows, followed by the added rows with their new keys. *)
Definition committed_nfts (nfts_next_id : Z) (state : list NFT.t * list (string * string * Q))
    : list NFT.t :=
  (state.1 ++ imap (fun k '(name, img, price) =>
                      NFT.mk (nfts_next_id + Z.of_nat k)%Z name (Some img) price) state.2)%list.

(** The gift of [entry] is in [table] with the price of the entry and the
    image reference made from its name. *)
Definition installed (entry : string * Q) (table : list NFT.t) : Prop :=
  exists i nft,
    query_first (fun n => bool_decide (NFT.name n = entry.1)) table = Some (i, nft)
    /\ NFT.floor_price nft == entry.2
    /\ NFT.image_filename nft = Some (generate_image_filename_from_name entry.1).

(** A gift table with an outdated Lol Pop and a gift that the catalog does
    not know. *)
Definition db_old_gifts : DB :=
  mkDB [] [NFT.mk 1 "Lol Pop" None 0.5; NFT.mk 2 "Retired Gift" (Some "retired.png") 9.0]
       [] [] [] 1.

(** A character other than the space. *)
Definition not_blank (c : ascii) : bool := negb (Ascii.eqb c " ").

(** The referral code that the backend gives to a new account. *)
Definition issued_code (uid rnd : Z) : string :=
  "ref_" +:+ pretty uid +:+ "_" +:+ pretty rnd.

(** The probability of an entry lies between 0 and 1. *)
Definition valid_probability (p : Prize.t) : Prop :=
  0 <= Prize.probability p /\ Prize.probability p <= 1.

(** The list [a] is in ascending order. *)
Definition ascending (a : list Q) : Prop :=
  forall i j u v, (i <= j)%nat -> a !! i = Some u -> a !! j = Some v -> u <= v.

(** An entry with its probability put to zero: what is left is the name,
    the floor price, the image reference and the TON flag. *)
Definition without_probability (p : Prize.t) : Prize.t := Prize.set_probability 0 p.

(** The floor prices of a catalog are not negative. *)
Definition floors_non_negative (floors : gmap string Q) : Prop :=
  forall name v, floors !! name = Some v -> 0 <= v.


(** A case of two prizes, one of them with weight zero. *)
Definition coin_table : list Prize.t :=
  [Prize.mk "Nothing" 0 0 "nothing.png" false; Prize.mk "Lol Pop" 1 1.1 "lolpop.png" false].

(** No account holds the referral code that a new account [uid] gets with
    the random number [rnd]: the row of the new account can be written. *)
Definition code_is_free (uid rnd : Z) (db : DB) : Prop :=
  Forall (fun u => User.referral_code u <> Some (issued_code uid rnd)) (users db).

(** * Properties *)

(** ** Arithmetic *)

Lemma Qlt_bool_iff (x y : Q) : Qlt_bool x y = true <-> x < y.
Proof.
  unfold Qlt_bool. rewrite negb_true_iff. split.
  - intros H. apply Qnot_le_lt. intros Hle. apply Qle_bool_iff in Hle. congruence.
  - intros H. destruct (Qle_bool y x) eqn:E; [|reflexivity].
    apply Qle_bool_iff in E. exfalso. exact (Qlt_not_le _ _ H E).
Qed.

Lemma Qlt_bool_false (x y : Q) : Qlt_bool x y = false <-> y <= x.
Proof.
  unfold Qlt_bool. rewrite negb_false_iff. apply Qle_bool_iff.
Qed.

Lemma Qle_bool_false (x y : Q) : Qle_bool x y = false <-> y < x.
Proof.
  rewrite <- Qlt_bool_iff. unfold Qlt_bool. destruct (Qle_bool x y); simpl; intuition congruence.
Qed.

Lemma fold_left_Qplus (l : list Q) (a : Q) : fold_left Qplus_red l a == a + py_sum l.
Proof.
  unfold py_sum. revert a. induction l as [|x l IH]; intros a; simpl.
  - lra.
  - rewrite (IH (Qplus_red a x)), (IH (Qplus_red 0 x)). unfold Qplus_red.
    pose proof (Qred_correct (a + x)). pose proof (Qred_correct (0 + x)). lra.
Qed.

Lemma py_sum_cons (x : Q) (l : list Q) : py_sum (x :: l) == x + py_sum l.
Proof.
  unfold py_sum at 1. simpl. rewrite fold_left_Qplus. unfold Qplus_red.
  pose proof (Qred_correct (0 + x)). lra.
Qed.

Lemma py_sum_nonneg (l : list Q) : Forall (fun x => 0 <= x) l -> 0 <= py_sum l.
Proof.
  induction 1 as [|x l Hx _ IH].
  - unfold py_sum. simpl. lra.
  - rewrite py_sum_cons. lra.
Qed.

Lemma float_1e_7_below : float_1e_7 < 0.0000001.
Proof. reflexivity. Qed.

Lemma py_max_spec (a b : Q) : a <= py_max a b /\ b <= py_max a b /\ (py_max a b = a \/ py_max a b = b).
Proof.
  unfold py_max. destruct (Qlt_bool a b) eqn:E.
  - apply Qlt_bool_iff in E. repeat split; [lra | lra | now right].
  - apply Qlt_bool_false in E. repeat split; [lra | lra | now left].
Qed.

Lemma py_min_spec (a b : Q) : py_min a b <= a /\ py_min a b <= b /\ (py_min a b = a \/ py_min a b = b).
Proof.
  unfold py_min. destruct (Qlt_bool b a) eqn:E.
  - apply Qlt_bool_iff in E. repeat split; [lra | lra | now right].
  - apply Qlt_bool_false in E. repeat split; [lra | lra | now left].
Qed.

(** ** The calibrator *)

Lemma total_probability_cons (p : Prize.t) (l : list Prize.t) :
  total_probability (p :: l) == Prize.probability p + total_probability l.
Proof. unfold total_probability. rewrite fmap_cons. apply py_sum_cons. Qed.

(** The last step leaves an empty table empty and a table with entries
    non-empty. *)
Lemma final_correction_nil (l : list Prize.t) : final_correction l = [] <-> l = [].
Proof.
  unfold final_correction. split.
  - destruct (Qlt_bool float_1e_7 _); destruct l; simpl; congruence.
  - intros ->. reflexivity.
Qed.

(** What the last step does on a table with entries: beyond the
    threshold the residual goes to the first entry and the total is 1; within
    it the table is returned as it is. *)
Lemma final_correction_total (p0 : Prize.t) (rest : list Prize.t) :
  let l := p0 :: rest in
  (float_1e_7 < Qabs (total_probability l - 1) ->
     final_correction l
       = Prize.set_probability (Prize.probability p0 + (1 - total_probability l)) p0 :: rest
     /\ total_probability (final_correction l) == 1)
  /\ (Qabs (total_probability l - 1) <= float_1e_7 -> final_correction l = l).
Proof.
  intros l. unfold final_correction. fold (total_probability l).
  destruct (Qlt_bool float_1e_7 (Qabs (total_probability l - 1))) eqn:E.
  - split; [intros _ | intros H; apply Qlt_bool_iff in E; lra].
    split; [reflexivity|].
    subst l.
    pose proof (total_probability_cons p0 rest) as H0.
    pose proof (total_probability_cons
                  (Prize.set_probability
                     (Prize.probability p0 + (1 - total_probability (p0 :: rest))) p0) rest) as H1.
    simpl in H1. cbn iota. lra.
  - split; [intros H; apply Qlt_bool_false in E; lra | reflexivity].
Qed.

Lemma final_correction_within (l : list Prize.t) :
  l <> [] -> Qabs (total_probability (final_correction l) - 1) <= float_1e_7.
Proof.
  destruct l as [|p0 rest]; [congruence|]. intros _.
  destruct (final_correction_total p0 rest) as [Hfar Hnear].
  destruct (Qlt_le_dec float_1e_7 (Qabs (total_probability (p0 :: rest) - 1))) as [H|H].
  - destruct (Hfar H) as [_ ->]. vm_compute. discriminate.
  - rewrite (Hnear H). exact H.
Qed.

(** Both methods end with the last step, or return the empty table. *)
Lemma fallback_shape (case_data : Case.t p_info_t) (all_floor_prices : gmap string Q) :
  let table := calculate_rtp_probabilities_proportional_fallback case_data all_floor_prices in
  table = [] \/ exists pre, table = final_correction pre.
Proof.
  unfold calculate_rtp_probabilities_proportional_fallback. simpl.
  repeat match goal with |- context [if ?b then _ else _] => destruct b end; eauto.
Qed.

Lemma calculate_shape (case_data : Case.t p_info_t) (all_floor_prices : gmap string Q) :
  let table := calculate_rtp_probabilities case_data all_floor_prices in
  table = [] \/ exists pre, table = final_correction pre.
Proof.
  pose proof (fallback_shape case_data all_floor_prices) as Hfb. simpl in Hfb.
  unfold calculate_rtp_probabilities. simpl.
  destruct (_ || _); [now left|].
  destruct (filler_of _) as [[fi filler]|]; [|exact Hfb].
  destruct (Qle_bool _ 0); [exact Hfb|].
  destruct (negb _); [exact Hfb|].
  right. eauto.
Qed.

(** C1, evaluated on the code.  The calibrated tables miss the target
    expected value [priceTON * RTP_TARGET] by more than 1e-6: every case of
    the shipped catalog (all calibrated by the filler-anchored method) does,
    the Plush Pepe Hoard returning about 95.44 for a target of 176, and so does
    a case calibrated by the proportional fallback, which returns the expected
    value of the raw weights, 8.99, for a target of 0.88. *)
Theorem rtp_target_missed :
  Forall (fun case =>
            Qlt_bool 0.000001
              (Qabs (expected_value (Case.prizes case) - Case.priceTON case * RTP_TARGET)) = true)
         cases_data_backend
  /\ expected_value (calculate_rtp_probabilities case_plushpepe UPDATED_FLOOR_PRICES)
     == 1010497396986729 # 10587500000000
  /\ Case.priceTON case_plushpepe * RTP_TARGET == 176
  /\ calculate_rtp_probabilities case_fallback UPDATED_FLOOR_PRICES
     = calculate_rtp_probabilities_proportional_fallback case_fallback UPDATED_FLOOR_PRICES
  /\ expected_value (calculate_rtp_probabilities case_fallback UPDATED_FLOOR_PRICES) == 8.99
  /\ Case.priceTON case_fallback * RTP_TARGET == 0.88.
Proof.
  split; [|repeat split; vm_compute; reflexivity].
  apply Forall_forall. intros case Hin. apply list_elem_of_In in Hin.
  revert case Hin. apply forallb_forall. vm_compute. reflexivity.
Qed.

(** C2 as stated fails: the case below has a prize of positive floor
    value, yet the calibrator returns the empty table, whose probabilities sum
    to 0. *)
Lemma empty_table_despite_positive_floor :
  (exists p, p ∈ build_prizes case_disabled_prize UPDATED_FLOOR_PRICES /\ 0 < Prize.floor_price p)
  /\ calculate_rtp_probabilities case_disabled_prize UPDATED_FLOOR_PRICES = []
  /\ ~ Qabs (total_probability
               (calculate_rtp_probabilities case_disabled_prize UPDATED_FLOOR_PRICES) - 1)
       <= 0.0000001.
Proof.
  split; [|split].
  - eexists. split; [apply list_elem_of_here|]. vm_compute. reflexivity.
  - vm_compute. reflexivity.
  - vm_compute. intros H. apply H. reflexivity.
Qed.

(** C2, amended.  Whenever the calibrator, by either method, returns a
    table with entries, its probabilities sum to 1 within 1e-7.  The table is
    the last step applied to a table with entries: when that table's sum is
    further than the float 1e-7 from 1 the residual is added to its first
    probability and the sum is exactly 1; otherwise the table is returned as it
    is. *)
Theorem calibrated_table_sums_to_one
    (case_data : Case.t p_info_t) (all_floor_prices : gmap string Q) (table : list Prize.t) :
  table = calculate_rtp_probabilities case_data all_floor_prices
  \/ table = calculate_rtp_probabilities_proportional_fallback case_data all_floor_prices ->
  table <> [] ->
  Qabs (total_probability table - 1) <= 0.0000001
  /\ exists p0 rest,
       table = final_correction (p0 :: rest)
       /\ (float_1e_7 < Qabs (total_probability (p0 :: rest) - 1) ->
             table = Prize.set_probability
                       (Prize.probability p0 + (1 - total_probability (p0 :: rest))) p0 :: rest
             /\ total_probability table == 1)
       /\ (Qabs (total_probability (p0 :: rest) - 1) <= float_1e_7 -> table = p0 :: rest).
Proof.
  intros Htable Hne.
  assert (exists pre, table = final_correction pre) as [pre Hpre].
  { destruct Htable as [-> | ->];
      [destruct (calculate_shape case_data all_floor_prices) as [H|H]
      |destruct (fallback_shape case_data all_floor_prices) as [H|H]];
      simpl in H; congruence || exact H. }
  destruct pre as [|p0 rest].
  { exfalso. apply Hne. rewrite Hpre. reflexivity. }
  split.
  - rewrite Hpre. pose proof (final_correction_within (p0 :: rest)) as H.
    apply Qle_trans with float_1e_7; [apply H; congruence|].
    apply Qlt_le_weak, float_1e_7_below.
  - exists p0, rest. split; [exact Hpre|].
    destruct (final_correction_total p0 rest) as [Hfar Hnear].
    rewrite Hpre. split; assumption.
Qed.

Lemma calibrated_table_sums_to_one_witness :
  calculate_rtp_probabilities case_plushpepe UPDATED_FLOOR_PRICES <> []
  /\ Qabs (total_probability (calculate_rtp_probabilities case_plushpepe UPDATED_FLOOR_PRICES) - 1)
     <= 0.0000001.
Proof.
  assert (calculate_rtp_probabilities case_plushpepe UPDATED_FLOOR_PRICES <> []) as Hne
    by (vm_compute; discriminate).
  split; [exact Hne|].
  exact (proj1 (calibrated_table_sums_to_one case_plushpepe UPDATED_FLOOR_PRICES _
                  (or_introl eq_refl) Hne)).
Defined.

(** ** The upgrade chance *)




(** ** The sampler *)

Lemma bisect_loop_bounds (fuel : nat) (a : list Q) (x : Q) (lo hi : nat) :
  (lo <= hi)%nat ->
  (lo <= bisect_loop fuel a x lo hi <= hi)%nat.
Proof.
  revert lo hi. induction fuel as [|fuel IH]; intros lo hi Hle; [simpl; lia|].
  change (bisect_loop (S fuel) a x lo hi)
    with (if bool_decide (lo < hi)%nat then
            if Qlt_bool x (default 0 (a !! ((lo + hi) `div` 2)%nat))
            then bisect_loop fuel a x lo ((lo + hi) `div` 2)%nat
            else bisect_loop fuel a x ((lo + hi) `div` 2 + 1)%nat hi
          else lo).
  case_bool_decide as Hlt; [|lia].
  assert (lo <= (lo + hi) `div` 2 < hi)%nat as Hmid.
  { split; [apply Nat.div_le_lower_bound | apply Nat.Div0.div_lt_upper_bound]; lia. }
  destruct (Qlt_bool x _).
  - specialize (IH lo ((lo + hi) `div` 2)%nat ltac:(lia)). lia.
  - specialize (IH ((lo + hi) `div` 2 + 1)%nat hi ltac:(lia)). lia.
Qed.

Lemma length_accumulate_from (acc : Q) (l : list Q) :
  length (accumulate_from acc l) = length l.
Proof. revert acc. induction l as [|w l IH]; intros acc; simpl; [|rewrite IH]; reflexivity. Qed.





(** ** Opening a case *)



(** ** The ledger: balances *)

Lemma query_first_Some {A : Type} (f : A -> bool) (rows : list A) (i : nat) (row : A) :
  query_first f rows = Some (i, row) -> rows !! i = Some row /\ f row = true.
Proof.
  unfold query_first. intros H. apply list_find_Some in H. tauto.
Qed.

Lemma query_first_elem_of {A : Type} (f : A -> bool) (rows : list A) (i : nat) (row : A) :
  query_first f rows = Some (i, row) -> row ∈ rows.
Proof.
  intros H. apply query_first_Some in H. apply list_elem_of_lookup. exists i. tauto.
Qed.

Lemma balance_safe_row (db db' : DB) (i : nat) (account : User.t) :
  balance_safe db db' ->
  users db !! i = Some account ->
  0 <= User.ton_balance account ->
  exists account',
    users db' !! i = Some account'
    /\ User.id account' = User.id account
    /\ 0 <= User.ton_balance account'.
Proof.
  intros [Heq | (ui & user & user' & Hui & Heq & Hid & Hbal)] Hi Hpos; rewrite Heq.
  - exists account. auto.
  - destruct (decide (ui = i)) as [->|Hne].
    + exists user'. rewrite list_lookup_insert_eq by (eapply lookup_lt_Some; eauto).
      assert (user = account) as -> by congruence. auto.
    + exists account. rewrite list_lookup_insert_ne by exact Hne. auto.
Qed.

(** A row changed at the position where the query found it. *)
Lemma balance_safe_update (db db' : DB) (uid : Z) (ui : nat) (user user' : User.t) :
  user_by_id uid db = Some (ui, user) ->
  users db' = <[ui := user']> (users db) ->
  User.id user' = User.id user ->
  (0 <= User.ton_balance user -> 0 <= User.ton_balance user') ->
  balance_safe db db'.
Proof.
  intros Hq Heq Hid Hbal. right. exists ui, user, user'.
  apply query_first_Some in Hq. tauto.
Qed.

Lemma Forall_filter_keep {A : Type} (P : A -> Prop) (Q : A -> Prop)
    `{forall x, Decision (Q x)} (l : list A) :
  Forall P l -> Forall P (filter Q l).
Proof.
  rewrite !Forall_forall. intros Hall x Hx. apply list_elem_of_filter in Hx. apply Hall, Hx.
Qed.

Ltac split_handler :=
  repeat match goal with
         | |- context [match ?x with _ => _ end] => destruct x eqn:?
         end.

Ltac unchanged := left; reflexivity.

Ltac updated :=
  eapply balance_safe_update; [eassumption | reflexivity | reflexivity | cbn; intros ].

Lemma instant_topup_balance_safe (auth : option auth_data) (amount : option Q) (db : DB) :
  balance_safe db (instant_topup_api auth amount db).2.
Proof.
  unfold instant_topup_api. split_handler; cbn [snd]; try unchanged.
  updated.
  match goal with H : negb _ = false |- _ =>
    apply negb_false_iff, andb_true_iff in H; destruct H as [H _]; apply Qle_bool_iff in H end.
  lra.
Qed.

Lemma open_case_balance_safe (auth : option auth_data) (case_id : option string) (mult : Z)
    (rand : nat -> Q) (db : DB) :
  balance_safe db (open_case_api auth case_id mult rand db).2.
Proof.
  unfold open_case_api. split_handler; cbn [snd]; try unchanged.
  updated.
  match goal with H : Qlt_bool _ _ = false |- _ => apply Qlt_bool_false in H end.
  lra.
Qed.

Lemma upgrade_balance_safe (decimal_pow_frac : Q -> Q -> Q) (auth : option auth_data)
    (inventory_item_id : option Z) (desired_item_name : option string) (roll : Q) (db : DB) :
  balance_safe db
    (upgrade_item_v2_api decimal_pow_frac auth inventory_item_id desired_item_name roll db).2.
Proof.
  unfold upgrade_item_v2_api. split_handler; cbn [snd]; try unchanged; updated; assumption.
Qed.

Lemma withdraw_referral_earnings_balance_safe (auth : option auth_data) (db : DB) :
  balance_safe db (withdraw_referral_earnings_api auth db).2.
Proof.
  unfold withdraw_referral_earnings_api. split_handler; cbn [snd]; try unchanged.
  updated.
  match goal with H : Qlt_bool _ _ = true |- _ => apply Qlt_bool_iff in H end.
  lra.
Qed.

Lemma withdraw_gift_balance_safe (auth : option auth_data) (inventory_item_id : option Z)
    (post : withdrawal_payload -> fulfillment) (db : DB) :
  balance_safe db (withdraw_gift_api auth inventory_item_id post db).1.2.
Proof.
  unfold withdraw_gift_api. split_handler; cbn [fst snd]; unchanged.
Qed.

Lemma convert_to_ton_balance_safe (auth : option auth_data) (inventory_item_id : option Z)
    (db : DB) :
  valuations_non_negative db ->
  balance_safe db (convert_to_ton_api auth inventory_item_id db).2.
Proof.
  intros Hval. unfold convert_to_ton_api. split_handler; cbn [snd]; try unchanged.
  all: updated.
  all: match goal with H : item_of_user _ _ _ = Some _ |- _ =>
         apply query_first_elem_of in H; eapply Forall_forall in H; [|exact Hval] end.
  all: cbn beta in *; lra.
Qed.

Lemma sell_all_items_balance_safe (auth : option auth_data) (db : DB) :
  valuations_non_negative db ->
  balance_safe db (sell_all_items_api auth db).2.
Proof.
  intros Hval. unfold sell_all_items_api. split_handler; cbn [snd]; try unchanged.
  updated.
  match goal with |- context [py_sum ?l] => assert (0 <= py_sum l) end; [|lra].
  apply py_sum_nonneg, Forall_fmap.
  unfold inventory_of. do 2 apply Forall_filter_keep. exact Hval.
Qed.

Lemma redeem_promocode_balance_safe (float_repr : Q -> string) (auth : option auth_data)
    (promocode_text : string) (db : DB) :
  promo_amounts_non_negative db ->
  balance_safe db (redeem_promocode_api float_repr auth promocode_text db).2.
Proof.
  intros Hpromo. unfold redeem_promocode_api. split_handler; cbn [snd]; try unchanged.
  all: updated.
  all: match goal with H : query_first _ (promo_codes _) = Some _ |- _ =>
         apply query_first_elem_of in H; eapply Forall_forall in H; [|exact Hpromo] end.
  all: cbn beta in *; lra.
Qed.

Lemma choices_Some_elem_of {A : Type} (population : list A) (weights : list Q) (r : Q)
    (chosen : A) :
  choices population weights r = Some chosen -> chosen ∈ population.
Proof.
  unfold choices. case_bool_decide; [discriminate|].
  destruct (last _); [|discriminate]. destruct (Qle_bool _ _); [discriminate|].
  intros Hlookup. apply list_elem_of_lookup. eauto.
Qed.

Lemma draw_items_drawn_from (uid : Z) (table : list Prize.t) (db : DB) (rand : nat -> Q)
    (new_id : Z) (round rounds : nat) (items : list InventoryItem.t) :
  draw_items uid table db rand new_id round rounds = Some items ->
  Forall (drawn_from table uid db) items.
Proof.
  revert new_id round items.
  induction rounds as [|rounds IH]; intros new_id round items; simpl.
  - intros [= <-]. constructor.
  - destruct (choices _ _ _) as [chosen|] eqn:Hc; [|discriminate]. simpl.
    destruct (draw_items _ _ _ _ _ _ _) as [rest|] eqn:Hr; [|discriminate]. simpl.
    intros [= <-]. constructor; [|eapply IH; exact Hr].
    exists chosen. split; [eapply choices_Some_elem_of; exact Hc | reflexivity].
Qed.

(** No entry of a calibrated table of the catalog has a negative value. *)
Lemma catalog_floor_prices_non_negative (tcase : Case.t Prize.t) (prize : Prize.t) :
  tcase ∈ cases_data_backend -> prize ∈ Case.prizes tcase -> 0 <= Prize.floor_price prize.
Proof.
  intros Hcase Hprize.
  assert (forallb (fun c => forallb (fun p => Qle_bool 0 (Prize.floor_price p)) (Case.prizes c))
            cases_data_backend = true) as Hall by (vm_compute; reflexivity).
  rewrite forallb_forall in Hall. apply list_elem_of_In in Hcase, Hprize.
  specialize (Hall tcase Hcase). rewrite forallb_forall in Hall.
  apply Qle_bool_iff, Hall, Hprize.
Qed.

(** Every operation keeps the valuations of the inventory non-negative. *)
Lemma run_keeps_valuations (decimal_pow_frac : Q -> Q -> Q) (float_repr : Q -> string)
    (op : operation) (db : DB) :
  valuations_non_negative db ->
  valuations_non_negative (run decimal_pow_frac float_repr op db).2.
Proof.
  unfold valuations_non_negative. intros Hval.
  destruct op; cbn [run].
  - unfold instant_topup_api. split_handler; cbn [snd]; exact Hval.
  - unfold open_case_api. split_handler; cbn [snd]; try exact Hval.
    cbn. apply Forall_app. split; [exact Hval|].
    match goal with H : draw_items _ _ _ _ _ _ _ = Some _ |- _ =>
      apply draw_items_drawn_from in H; eapply Forall_impl; [exact H|] end.
    intros item (chosen & Hin & ->). cbn.
    match goal with H : find _ cases_data_backend = Some _ |- _ =>
      apply find_some in H; destruct H as [H _]; apply list_elem_of_In in H;
      exact (catalog_floor_prices_non_negative _ _ H Hin) end.
  - unfold upgrade_item_v2_api. split_handler; cbn [snd]; try exact Hval; cbn.
    + apply Forall_app. split; [apply Forall_delete, Hval|].
      constructor; [|constructor]. cbn.
      repeat match goal with
             | H : _ || _ = false |- _ => apply orb_false_iff in H; destruct H
             | H : Qle_bool _ _ = false |- _ => apply Qle_bool_false in H
             end.
      lra.
    + apply Forall_delete, Hval.
  - unfold convert_to_ton_api. split_handler; cbn [snd]; try exact Hval; cbn;
      apply Forall_delete, Hval.
  - unfold sell_all_items_api. split_handler; cbn [snd]; try exact Hval; cbn.
    apply Forall_filter_keep, Hval.
  - unfold redeem_promocode_api. split_handler; cbn [snd]; exact Hval.
  - unfold withdraw_referral_earnings_api. split_handler; cbn [snd]; exact Hval.
  - unfold withdraw_gift_api. split_handler; cbn [fst snd]; try exact Hval; cbn;
      apply Forall_delete, Hval.
Qed.

(** Every operation keeps the amounts of the promo codes. *)
Lemma run_keeps_promo_amounts (decimal_pow_frac : Q -> Q -> Q) (float_repr : Q -> string)
    (op : operation) (db : DB) :
  promo_amounts_non_negative db ->
  promo_amounts_non_negative (run decimal_pow_frac float_repr op db).2.
Proof.
  unfold promo_amounts_non_negative. intros Hpromo.
  destruct op; cbn [run].
  - unfold instant_topup_api. split_handler; cbn [snd]; exact Hpromo.
  - unfold open_case_api. split_handler; cbn [snd]; exact Hpromo.
  - unfold upgrade_item_v2_api. split_handler; cbn [snd]; exact Hpromo.
  - unfold convert_to_ton_api. split_handler; cbn [snd]; exact Hpromo.
  - unfold sell_all_items_api. split_handler; cbn [snd]; exact Hpromo.
  - unfold redeem_promocode_api. split_handler; cbn [snd]; try exact Hpromo; cbn.
    all: apply Forall_insert; [exact Hpromo|].
    all: match goal with H : query_first _ (promo_codes _) = Some _ |- _ =>
           apply query_first_elem_of in H; eapply Forall_forall in H; [|exact Hpromo] end.
    all: cbn in *; assumption.
  - unfold withdraw_referral_earnings_api. split_handler; cbn [snd]; exact Hpromo.
  - unfold withdraw_gift_api. split_handler; cbn [fst snd]; exact Hpromo.
Qed.

(** C5 as stated fails: the balance of an account that redeems a promo code
    of negative amount goes from 0 to -5. *)
Lemma balance_negative_after_negative_promo :
  (exists account,
     users db_negative_promo !! 0%nat = Some account /\ 0 <= User.ton_balance account)
  /\ exists account',
       users after_negative_promo !! 0%nat = Some account' /\ User.ton_balance account' < 0.
Proof.
  split.
  - eexists. split; [reflexivity|]. vm_compute. discriminate.
  - eexists. split; [vm_compute; reflexivity|]. vm_compute. reflexivity.
Qed.

(** C5, amended.  In a database where the valuations of the inventory and
    the amounts of the promo codes are non-negative, an account whose balance
    is non-negative keeps a non-negative balance through any single ledger
    operation, and the operation keeps both conditions. *)
Theorem balance_stays_non_negative
    (decimal_pow_frac : Q -> Q -> Q) (float_repr : Q -> string)
    (op : operation) (db : DB) (i : nat) (account : User.t) :
  valuations_non_negative db ->
  promo_amounts_non_negative db ->
  users db !! i = Some account ->
  0 <= User.ton_balance account ->
  (exists account',
     users (run decimal_pow_frac float_repr op db).2 !! i = Some account'
     /\ User.id account' = User.id account
     /\ 0 <= User.ton_balance account')
  /\ valuations_non_negative (run decimal_pow_frac float_repr op db).2
  /\ promo_amounts_non_negative (run decimal_pow_frac float_repr op db).2.
Proof.
  intros Hval Hpromo Hi Hpos.
  split; [|split; [apply run_keeps_valuations, Hval | apply run_keeps_promo_amounts, Hpromo]].
  apply (balance_safe_row db); [|exact Hi|exact Hpos].
  destruct op; cbn [run].
  - apply instant_topup_balance_safe.
  - apply open_case_balance_safe.
  - apply upgrade_balance_safe.
  - apply convert_to_ton_balance_safe, Hval.
  - apply sell_all_items_balance_safe, Hval.
  - apply redeem_promocode_balance_safe, Hpromo.
  - apply withdraw_referral_earnings_balance_safe.
  - apply withdraw_gift_balance_safe.
Qed.

Lemma balance_stays_non_negative_witness :
  valuations_non_negative db_one_account
  /\ promo_amounts_non_negative db_one_account
  /\ users db_one_account !! 0%nat = Some alice
  /\ 0 <= User.ton_balance alice
  /\ exists account',
       users (run (fun _ _ => 0) (fun _ => "5.0")
                  (OpenCase (Some auth_alice) (Some "lolpop") 3 always_half)
                  db_one_account).2 !! 0%nat = Some account'
       /\ User.id account' = User.id alice
       /\ 0 <= User.ton_balance account'.
Proof.
  assert (valuations_non_negative db_one_account) as H1 by constructor.
  assert (promo_amounts_non_negative db_one_account) as H2 by constructor.
  assert (0 <= User.ton_balance alice) as H4 by (vm_compute; discriminate).
  split; [exact H1|]. split; [exact H2|]. split; [reflexivity|]. split; [exact H4|].
  exact (proj1 (balance_stays_non_negative (fun _ _ => 0) (fun _ => "5.0")
                  (OpenCase (Some auth_alice) (Some "lolpop") 3 always_half)
                  db_one_account 0 alice H1 H2 eq_refl H4)).
Defined.

(** ** Promo codes *)

Lemma query_first_insert {A : Type} (f : A -> bool) (rows : list A) (i : nat) (row row' : A) :
  query_first f rows = Some (i, row) ->
  f row' = true ->
  query_first f (<[i := row']> rows) = Some (i, row').
Proof.
  unfold query_first. intros H Hrow'. apply list_find_Some in H as (Hi & _ & Hbefore).
  apply list_find_Some. split; [|split].
  - apply list_lookup_insert_eq. eapply lookup_lt_Some. exact Hi.
  - exact Hrow'.
  - intros j y Hj Hlt. rewrite list_lookup_insert_ne in Hj by lia. eapply Hbefore; eauto.
Qed.

(** The handler, once its two queries are known. *)
Lemma redeem_promocode_eval (float_repr : Q -> string) (auth : auth_data) (text : string)
    (db : DB) (ui : nat) (user : User.t) (pi : nat) (promo : PromoCode.t) :
  str_truthy (Some (str_strip text)) = true ->
  user_by_id (auth_id auth) db = Some (ui, user) ->
  query_first (fun p => bool_decide (PromoCode.code_text p = str_strip text)) (promo_codes db)
  = Some (pi, promo) ->
  redeem_promocode_api float_repr (Some auth) text db
  = if expired promo then (error_reply "Code expired." 400, db)
    else if redeemed_by (auth_id auth) (PromoCode.id promo) db
         then (error_reply "Already redeemed." 400, db)
         else (Reply (JObj [("status", success_status);
                            ("message",
                             JStr ("Redeemed! +" +:+ float_repr (PromoCode.ton_amount promo)
                                   +:+ " TON"));
                            ("new_balance_ton",
                             JNum (User.ton_balance user + PromoCode.ton_amount promo))]) 200,
               redeemed db (auth_id auth) ui user pi promo).
Proof.
  intros Hcode Huser Hpromo. unfold redeem_promocode_api.
  rewrite Hcode, Huser, Hpromo. cbn [negb]. cbv iota. fold (expired promo).
  destruct (expired promo); [reflexivity|].
  destruct (redeemed_by _ _ _); [reflexivity|].
  unfold redeemed, decremented.
  destruct (negb (bool_decide (PromoCode.activations_left promo = (-1)%Z))); reflexivity.
Qed.

(** C6, amended.  A first redemption of a promo code that is unlimited or
    has activations left succeeds: it credits the amount and decrements the
    activations unless the code is unlimited (-1), which is never decremented
    and never expires.  A second attempt by the same account fails and changes
    nothing; it fails as expired when the first redemption used the last
    activation, because the handler tests expiry first, and as already redeemed
    otherwise.  With one activation, amount 5 and balance 0: the balance
    becomes 5, no activation is left, the second attempt gets the expired
    error and the balance stays 5. *)
Theorem promo_redeemed_once (float_repr : Q -> string) (auth : auth_data) (text : string)
    (db : DB) (ui : nat) (user : User.t) (pi : nat) (promo : PromoCode.t) :
  str_truthy (Some (str_strip text)) = true ->
  user_by_id (auth_id auth) db = Some (ui, user) ->
  query_first (fun p => bool_decide (PromoCode.code_text p = str_strip text)) (promo_codes db)
  = Some (pi, promo) ->
  redeemed_by (auth_id auth) (PromoCode.id promo) db = false ->
  (PromoCode.activations_left promo = -1 \/ 1 <= PromoCode.activations_left promo)%Z ->
  let after := redeemed db (auth_id auth) ui user pi promo in
  redeem_promocode_api float_repr (Some auth) text db
  = (Reply (JObj [("status", success_status);
                  ("message",
                   JStr ("Redeemed! +" +:+ float_repr (PromoCode.ton_amount promo) +:+ " TON"));
                  ("new_balance_ton",
                   JNum (User.ton_balance user + PromoCode.ton_amount promo))]) 200,
     after)
  /\ (exists user',
        users after !! ui = Some user'
        /\ User.ton_balance user' = User.ton_balance user + PromoCode.ton_amount promo)
  /\ (exists promo',
        promo_codes after !! pi = Some promo'
        /\ PromoCode.ton_amount promo' = PromoCode.ton_amount promo
        /\ PromoCode.activations_left promo'
           = if bool_decide (PromoCode.activations_left promo = -1)%Z
             then (-1)%Z else (PromoCode.activations_left promo - 1)%Z)
  /\ redeem_promocode_api float_repr (Some auth) text after
     = (error_reply (if bool_decide (PromoCode.activations_left promo = 1)%Z
                     then "Code expired." else "Already redeemed.") 400,
        after).
Proof.
  intros Hcode Huser Hpromo Hfresh Hleft after.
  pose proof (query_first_Some _ _ _ _ Huser) as [Hui Hid].
  pose proof (query_first_Some _ _ _ _ Hpromo) as [Hpi Htext].
  assert (expired promo = false) as Hexp.
  { unfold expired. destruct Hleft as [-> | Hge]; [reflexivity|].
    rewrite (bool_decide_false (_ <= 0)%Z) by lia. apply andb_false_r. }
  split; [|split; [|split]].
  - rewrite (redeem_promocode_eval float_repr auth text db ui user pi promo Hcode Huser Hpromo).
    rewrite Hexp, Hfresh. reflexivity.
  - exists (User.set_ton_balance (User.ton_balance user + PromoCode.ton_amount promo) user).
    split; [|reflexivity]. subst after. cbn.
    apply list_lookup_insert_eq. eapply lookup_lt_Some. exact Hui.
  - exists (decremented promo). split; [|split].
    + subst after. cbn. apply list_lookup_insert_eq. eapply lookup_lt_Some. exact Hpi.
    + unfold decremented. destruct (negb _); reflexivity.
    + unfold decremented.
      destruct (bool_decide (PromoCode.activations_left promo = (-1)%Z)) eqn:E; cbn;
        [apply bool_decide_eq_true in E; exact E | reflexivity].
  - assert (user_by_id (auth_id auth) after
            = Some (ui, User.set_ton_balance
                          (User.ton_balance user + PromoCode.ton_amount promo) user)) as Huser'.
    { subst after. unfold user_by_id. cbn. eapply query_first_insert; [exact Huser|exact Hid]. }
    assert (query_first (fun p => bool_decide (PromoCode.code_text p = str_strip text))
              (promo_codes after) = Some (pi, decremented promo)) as Hpromo'.
    { subst after. cbn. eapply query_first_insert; [exact Hpromo|].
      unfold decremented. destruct (negb _); exact Htext. }
    rewrite (redeem_promocode_eval float_repr auth text after _ _ _ _ Hcode Huser' Hpromo').
    assert (PromoCode.id (decremented promo) = PromoCode.id promo) as Hpid.
    { unfold decremented. destruct (negb _); reflexivity. }
    assert (redeemed_by (auth_id auth) (PromoCode.id (decremented promo)) after = true) as Hred.
    { unfold redeemed_by. apply bool_decide_eq_true. unfold query_first.
      eapply (list_find_elem_of _ _ (UserPromoCodeRedemption.mk (auth_id auth) (PromoCode.id promo))).
      - subst after. cbn. apply elem_of_app. right. apply list_elem_of_here.
      - cbn. rewrite Hpid, !bool_decide_true by reflexivity. reflexivity. }
    assert (PromoCode.activations_left (decremented promo)
            = if bool_decide (PromoCode.activations_left promo = -1)%Z
              then (-1)%Z else (PromoCode.activations_left promo - 1)%Z) as Hact.
    { unfold decremented.
      destruct (bool_decide (PromoCode.activations_left promo = (-1)%Z)) eqn:E; cbn;
        [apply bool_decide_eq_true in E; exact E | reflexivity]. }
    assert (expired (decremented promo)
            = bool_decide (PromoCode.activations_left promo = 1)%Z) as Hexp'.
    { unfold expired. rewrite Hact.
      destruct (bool_decide (PromoCode.activations_left promo = (-1)%Z)) eqn:E.
      - apply bool_decide_eq_true in E. rewrite E. reflexivity.
      - apply bool_decide_eq_false in E. destruct Hleft as [Hunl | Hge]; [contradiction|].
        destruct (bool_decide (PromoCode.activations_left promo = 1%Z)) eqn:E1.
        + apply bool_decide_eq_true in E1. rewrite E1. reflexivity.
        + apply bool_decide_eq_false in E1.
          rewrite (bool_decide_false (_ <= 0)%Z) by lia. apply andb_false_r. }
    rewrite Hexp', Hred.
    destruct (bool_decide (PromoCode.activations_left promo = 1%Z)); reflexivity.
Qed.

(** C6 as stated fails: the first redemption succeeds and leaves a balance
    of 5 and no activation, but the second attempt is answered with the expired
    error, not with the already-redeemed error. *)
Lemma second_redemption_reports_expired :
  (redeem_promocode_api show_5 (Some auth_alice) "GIFT5" db_promo).1
  = Reply (JObj [("status", success_status);
                 ("message", JStr "Redeemed! +5.0 TON");
                 ("new_balance_ton", JNum (0.0 + 5))]) 200
  /\ User.ton_balance <$> users db_promo_redeemed = [0.0 + 5]
  /\ PromoCode.activations_left <$> promo_codes db_promo_redeemed = [0%Z]
  /\ redeem_promocode_api show_5 (Some auth_alice) "GIFT5" db_promo_redeemed
     = (error_reply "Code expired." 400, db_promo_redeemed)
  /\ (redeem_promocode_api show_5 (Some auth_alice) "GIFT5" db_promo_redeemed).1
     <> error_reply "Already redeemed." 400.
Proof.
  repeat split; try (vm_compute; reflexivity). vm_compute. discriminate.
Qed.

Lemma promo_redeemed_once_witness :
  str_truthy (Some (str_strip "GIFT5")) = true
  /\ user_by_id (auth_id auth_alice) db_promo = Some (0%nat, alice_broke)
  /\ query_first (fun p => bool_decide (PromoCode.code_text p = str_strip "GIFT5"))
       (promo_codes db_promo) = Some (0%nat, gift5)
  /\ redeemed_by (auth_id auth_alice) (PromoCode.id gift5) db_promo = false
  /\ (PromoCode.activations_left gift5 = -1 \/ 1 <= PromoCode.activations_left gift5)%Z
  /\ redeem_promocode_api show_5 (Some auth_alice) "GIFT5"
       (redeemed db_promo (auth_id auth_alice) 0 alice_broke 0 gift5)
     = (error_reply "Code expired." 400, redeemed db_promo (auth_id auth_alice) 0 alice_broke 0 gift5).
Proof.
  assert (str_truthy (Some (str_strip "GIFT5")) = true) as H1 by reflexivity.
  assert (user_by_id (auth_id auth_alice) db_promo = Some (0%nat, alice_broke)) as H2 by reflexivity.
  assert (query_first (fun p => bool_decide (PromoCode.code_text p = str_strip "GIFT5"))
            (promo_codes db_promo) = Some (0%nat, gift5)) as H3 by reflexivity.
  assert (redeemed_by (auth_id auth_alice) (PromoCode.id gift5) db_promo = false) as H4
    by reflexivity.
  assert (PromoCode.activations_left gift5 = -1 \/ 1 <= PromoCode.activations_left gift5)%Z
    as H5 by (right; reflexivity).
  repeat (split; [assumption|]).
  exact (proj2 (proj2 (proj2
           (promo_redeemed_once show_5 auth_alice "GIFT5" db_promo 0 alice_broke 0 gift5
              H1 H2 H3 H4 H5)))).
Defined.

(** ** Withdrawal of a gift *)

(** X1.  A withdrawal of an owned item that is not a currency prize, by an
    account with a username: the service is called once; the item is deleted
    exactly when the call succeeds; when it fails the database is returned
    untouched, with status 502, or 500 when the error body is a JSON value that
    is not an object. *)
Lemma withdraw_gift_deletes_iff_delivered
    (auth : auth_data) (username : string) (item_id : Z)
    (post : withdrawal_payload -> fulfillment) (db : DB) (ii : nat) (item : InventoryItem.t) :
  auth_username auth = Some username ->
  str_truthy (Some username) = true ->
  item_id <> 0%Z ->
  item_of_user item_id (auth_id auth) db = Some (ii, item) ->
  InventoryItem.is_ton_prize item = false ->
  let payload := payload_for username item db in
  let result := withdraw_gift_api (Some auth) (Some item_id) post db in
  result.2 = [payload]
  /\ (post payload = Delivered ->
      result.1.2 = set_inventory_items (delete ii (inventory_items db)) db
      /\ exists body, result.1.1 = Reply body 200)
  /\ (post payload <> Delivered ->
      result.1.2 = db
      /\ exists message,
           result.1.1 = error_reply message
                          (match withdrawal_error_message (post payload) with
                           | Some _ => 502
                           | None => 500
                           end)%Z).
Proof.
  intros Hname Htruthy Hid Hitem Hton payload result. subst result.
  unfold withdraw_gift_api. rewrite Hname.
  destruct username as [|c rest]; [discriminate|].
  destruct item_id as [|p|p]; [congruence| |];
    rewrite Hitem, Hton; fold (payload_for (String c rest) item db); fold payload;
    (destruct (post payload) as [| |status [| |]] eqn:Hpost; cbn;
     (split; [reflexivity|]);
     (split; [intros Hd; first [discriminate | split; [reflexivity|eauto]]
             |intros Hn; first [congruence | split; [reflexivity|eauto]]])).
Qed.

(** C7, evaluated on the code.  When the service fails with a JSON body
    that is not an object, the handler keeps the item and the database, but
    answers with the internal error and status 500, not with the 502 of an
    external-service failure. *)
Theorem withdrawal_failure_reported_as_internal_error :
  withdraw_gift_api (Some auth_alice) (Some 1%Z) post_error_list db_one_gift
  = (error_reply "An internal server error occurred during the withdrawal process." 500,
     db_one_gift,
     [{| giftname := Some "Lol Pop"; receiverUsername := "alice";
         senderUsername := "pusikSupport" |}]).
Proof. reflexivity. Qed.

(** ** Upgrade *)



(** ** Authentication *)

(** The implementations of SHA-256 and HMAC agree with the published test
    vectors (FIPS 180-4 "abc"; RFC 4231, test case 2). *)
Example sha256_abc :
  SHA256.hex (SHA256.digest (SHA256.encode "abc"))
  = "ba7816bf8f01cfea414140de5dae2223b00361a396177a9cb410ff61f20015ad".
Proof. vm_compute. reflexivity. Qed.

Example hmac_sha256_rfc4231_2 :
  SHA256.hex (SHA256.hmac (SHA256.encode "Jefe") (SHA256.encode "what do ya want for nothing?"))
  = "5bdcc146bf60754e6a042426089575c75a003f089d2739839dec58b964ec3843".
Proof. vm_compute. reflexivity. Qed.

(** [parse_qs] never maps a name to an empty list of values. *)
Lemma parse_qs_values_nonempty (qs : string) (k : string) (vs : list string) :
  parse_qs qs !! k = Some vs -> vs <> [].
Proof.
  unfold parse_qs.
  assert (forall (pairs : list (string * string)) (acc : gmap string (list string)),
             (forall k vs, acc !! k = Some vs -> vs <> []) ->
             forall k vs,
               foldl (fun parsed_result nv =>
                        <[nv.1 := (default [] (parsed_result !! nv.1) ++ [nv.2])%list]>
                          parsed_result) acc pairs !! k = Some vs ->
               vs <> []) as Hfold.
  { induction pairs as [|nv pairs IH]; intros acc Hacc k' vs'; simpl; [apply Hacc|].
    apply IH. intros k0 vs0. rewrite lookup_insert. case_decide.
    - intros [= <-]. destruct (default [] (acc !! nv.1)); discriminate.
    - apply Hacc. }
  apply Hfold. intros k0 vs0. rewrite lookup_empty. discriminate.
Qed.

(** On such a dictionary the digest computed by the handler is the one of
    the specification. *)
Lemma expected_hash_specified (data : gmap string (list string)) (token : string) :
  (forall k vs, data !! k = Some vs -> vs <> []) ->
  expected_hash (delete "hash" data) token = Some (specified_signature data token).
Proof.
  intros Hne. unfold expected_hash.
  assert (mapM (fun kv => (fun v0 => kv.1 +:+ "=" +:+ v0) <$> head kv.2)
               (map_to_list (delete "hash" data))
          = Some (check_line <$> map_to_list (delete "hash" data))) as ->.
  { apply mapM_Some_2, Forall2_fmap_r, Forall_Forall2_diag, Forall_forall.
    intros [k vs] Hin. apply elem_of_map_to_list in Hin.
    apply lookup_delete_Some in Hin as [_ Hin]. apply Hne in Hin.
    destruct vs; [congruence|reflexivity]. }
  cbn [mbind option_bind]. unfold specified_signature, data_check_string. reflexivity.
Qed.

(** The tail of the validation, for any expected digest. *)
Lemma validate_tail {A : Type} (hash_values : option (list string)) (expected : string)
    (user : option A) :
  match hash_values with
  | None => None
  | Some hash_values =>
      hash_val ← head hash_values;
      expected ← Some expected;
      if bool_decide (expected = hash_val) then user else None
  end
  = (hash_val ← hash_values ≫= head; if bool_decide (expected = hash_val) then user else None).
Proof. destruct hash_values as [[|hash_val rest]|]; reflexivity. Qed.

Lemma checked_Some {A : Type} (supplied : option string) (expected : string)
    (user : option A) (user_data : A) :
  (hash_val ← supplied; if bool_decide (expected = hash_val) then user else None)
  = Some user_data
  <-> supplied = Some expected /\ user = Some user_data.
Proof.
  destruct supplied as [hash_val|]; cbn; [|intuition discriminate].
  case_bool_decide as E; [subst hash_val|]; intuition congruence.
Qed.

(** The validation of a non-empty payload with a non-empty token: the
    supplied hash is compared with the digest of the specification, and the
    user data is loaded when they agree. *)
Lemma validate_init_data_eval
    (json_loads : string -> option json) (py_int : json -> option Z)
    (init_data token : string) :
  init_data <> EmptyString ->
  token <> EmptyString ->
  validate_init_data json_loads py_int (Some init_data) (Some token)
  = (hash_val ← parse_qs init_data !! "hash" ≫= head;
     if bool_decide (specified_signature (parse_qs init_data) token = hash_val)
     then load_user_data json_loads py_int (delete "hash" (parse_qs init_data))
     else None).
Proof.
  intros Hinit Htoken. unfold validate_init_data.
  destruct init_data as [|c0 s0]; [congruence|].
  destruct token as [|c1 s1]; [congruence|].
  rewrite (expected_hash_specified _ _ (parse_qs_values_nonempty (String c0 s0))).
  apply validate_tail.
Qed.

(** C9, amended.  The validation accepts a payload exactly when the init
    data and the token are present and non-empty, the payload passes the
    signature check of the specification, and its [user] field decodes to an
    object with an integer [id]; what it returns is that user.  Neither the
    current time nor [AUTH_DATE_MAX_AGE_SECONDS] enters: [auth_date] is only
    one of the signed fields. *)
Theorem validate_init_data_accepts_iff
    (json_loads : string -> option json) (py_int : json -> option Z)
    (init_data_str token : option string) (user_data : list (string * json)) :
  validate_init_data json_loads py_int init_data_str token = Some user_data
  <-> exists init_data token_text,
        init_data_str = Some init_data /\ init_data <> EmptyString
        /\ token = Some token_text /\ token_text <> EmptyString
        /\ signature_matches (parse_qs init_data) token_text
        /\ load_user_data json_loads py_int (delete "hash" (parse_qs init_data))
           = Some user_data.
Proof.
  unfold signature_matches. split.
  - intros H.
    destruct init_data_str as [[|c0 s0]|]; try discriminate H.
    destruct token as [[|c1 s1]|]; try discriminate H.
    rewrite validate_init_data_eval in H by discriminate.
    apply checked_Some in H.
    exists (String c0 s0), (String c1 s1).
    split; [reflexivity|]. split; [discriminate|]. split; [reflexivity|].
    split; [discriminate|]. exact H.
  - intros (init_data & token_text & -> & Hinit & -> & Htoken & Hsig).
    rewrite validate_init_data_eval by assumption.
    apply checked_Some. exact Hsig.
Qed.

(** C9 as stated fails: the payload below carries the signature that the
    check of the specification computes, and yet it is rejected, because it has
    no [user] field. *)
Lemma signed_payload_without_user_rejected :
  signature_matches (parse_qs payload_without_user) test_token
  /\ forall (json_loads : string -> option json) (py_int : json -> option Z),
       validate_init_data json_loads py_int (Some payload_without_user) (Some test_token)
       = None.
Proof.
  split.
  - vm_compute. reflexivity.
  - intros json_loads py_int. vm_compute. reflexivity.
Qed.

(** No age check: the payload of 1970 is accepted as soon as its user text
    decodes. *)
Lemma payload_of_1970_accepted
    (json_loads : string -> option json) (py_int : json -> option Z) :
  json_loads user_42_text = Some (JObj [("id", JInt 42)]) ->
  py_int (JInt 42) = Some 42%Z ->
  validate_init_data json_loads py_int (Some payload_of_1970) (Some test_token)
  = Some [("id", JInt 42)].
Proof.
  intros Hloads Hint.
  rewrite validate_init_data_eval by discriminate.
  apply checked_Some. split; [vm_compute; reflexivity|].
  unfold load_user_data.
  assert (delete "hash" (parse_qs payload_of_1970) !! "user" ≫= head = Some user_42_text) as ->
    by (vm_compute; reflexivity).
  cbn [mbind option_bind].
  assert (unquote user_42_text = user_42_text) as -> by (vm_compute; reflexivity).
  rewrite Hloads.
  assert (snd <$> list_find (fun kv : string * json => kv.1 = "id") [("id", JInt 42)]
          = Some ("id", JInt 42)) as -> by (vm_compute; reflexivity).
  cbn [mbind option_bind snd]. rewrite Hint. vm_compute. reflexivity.
Qed.

(** ** Referral registration *)





(** A new account 8 registers against the database of Alice: with her code
    it is linked to her, with an unknown code it is not; the reply is the
    same. *)
Example referral_linked_or_not :
  register_referral_api (Some 8%Z) (Some "bob") None None (Some "ref_7_1234") 5555 db_one_account
  = (Reply (JObj [("status", success_status)]) 200,
     set_users
       [alice;
        User.mk 8 (Some "bob") None None 0.0 (Some "ref_8_5555") (Some 7%Z) 0.0 0.0]
       db_one_account)
  /\ register_referral_api (Some 8%Z) (Some "bob") None None (Some "ref_0_0000") 5555
       db_one_account
     = (Reply (JObj [("status", success_status)]) 200,
        set_users
          [alice; User.mk 8 (Some "bob") None None 0.0 (Some "ref_8_5555") None 0.0 0.0]
          db_one_account).
Proof. split; vm_compute; reflexivity. Qed.

(** ** When the calibrated table has entries *)

Lemma py_sum_positive (l : list Q) :
  Forall (fun x => 0 <= x) l -> Exists (fun x => 0 < x) l -> 0 < py_sum l.
Proof.
  induction 1 as [|x l Hx Hall IH]; intros Hex.
  - inversion Hex.
  - rewrite py_sum_cons. pose proof (py_sum_nonneg l Hall).
    inversion Hex as [? ? Hpos | ? ? Hrest]; subst; [lra|].
    specialize (IH Hrest). lra.
Qed.

Lemma final_correction_nonempty (l : list Prize.t) : l <> [] -> final_correction l <> [].
Proof. intros Hne H. apply (proj1 (final_correction_nil l)) in H. congruence. Qed.

(** With a positive price, positive raw weights, no negative floor value
    and a prize of positive floor value, the fallback returns a table with
    entries. *)
Lemma fallback_nonempty (case_data : Case.t p_info_t) (all_floor_prices : gmap string Q) :
  0 < Case.priceTON case_data ->
  Forall (fun p => 0 < pi_probability p) (Case.prizes case_data) ->
  (forall name v, all_floor_prices !! name = Some v -> 0 <= v) ->
  Exists (fun p => 0 < default 0 (all_floor_prices !! pi_name p)) (Case.prizes case_data) ->
  calculate_rtp_probabilities_proportional_fallback case_data all_floor_prices <> [].
Proof.
  intros Hprice Hweights Hfloors Hvalued.
  unfold calculate_rtp_probabilities_proportional_fallback. cbv zeta.
  assert (forall p : p_info_t, 0 <= default 0 (all_floor_prices !! pi_name p)) as Hfloor.
  { intros p. destruct (all_floor_prices !! pi_name p) eqn:E; cbn; [eauto|lra]. }
  set (current_ev := py_sum _).
  assert (0 < current_ev) as Hev.
  { subst current_ev. unfold build_prizes. rewrite <- list_fmap_compose.
    apply py_sum_positive.
    - apply Forall_fmap. eapply Forall_impl; [exact Hweights|]. intros p Hp. cbn in Hp |- *.
      apply Qmult_le_0_compat; [apply Hfloor | apply Qlt_le_weak, Hp].
    - apply Exists_fmap. apply Exists_exists in Hvalued as (p & Hin & Hp).
      apply Exists_exists. exists p. split; [exact Hin|]. cbn.
      assert (0 < pi_probability p) by (eapply Forall_forall in Hweights; eauto).
      apply Qmult_lt_0_compat; assumption. }
  destruct (Qle_bool current_ev 0) eqn:E; [apply Qle_bool_iff in E; lra|].
  assert (0 < Case.priceTON case_data * RTP_TARGET / current_ev) as Hscale.
  { apply Qlt_shift_div_l; [exact Hev|]. change RTP_TARGET with 0.88. lra. }
  set (scale := Case.priceTON case_data * RTP_TARGET / current_ev) in *.
  destruct (Exists_exists (fun p => 0 < default 0 (all_floor_prices !! pi_name p))
              (Case.prizes case_data)) as [Hsome _].
  destruct (Hsome Hvalued) as (p0 & Hin0 & _).
  set (total_prob := py_sum _).
  assert (0 < total_prob) as Htotal.
  { subst total_prob. unfold build_prizes. rewrite <- !list_fmap_compose.
    apply py_sum_positive.
    - apply Forall_fmap. eapply Forall_impl; [exact Hweights|]. intros p Hp. cbn in Hp |- *.
      apply Qlt_le_weak, Qmult_lt_0_compat; assumption.
    - apply Exists_fmap, Exists_exists. exists p0. split; [exact Hin0|]. cbn.
      assert (0 < pi_probability p0) by (eapply Forall_forall in Hweights; eauto).
      apply Qmult_lt_0_compat; assumption. }
  destruct (Qle_bool total_prob 0) eqn:E'; [apply Qle_bool_iff in E'; lra|].
  apply final_correction_nonempty. unfold build_prizes.
  destruct (Case.prizes case_data); [inversion Hvalued|discriminate].
Qed.

(** X2.  For a case with a positive price and positive raw weights, a
    price catalog without negative floor prices and at least one prize with a
    positive floor price, the calibrator returns a table with entries. *)
Lemma calibrated_table_nonempty (case_data : Case.t p_info_t) (all_floor_prices : gmap string Q) :
  0 < Case.priceTON case_data ->
  Forall (fun p => 0 < pi_probability p) (Case.prizes case_data) ->
  (forall name v, all_floor_prices !! name = Some v -> 0 <= v) ->
  Exists (fun p => 0 < default 0 (all_floor_prices !! pi_name p)) (Case.prizes case_data) ->
  calculate_rtp_probabilities case_data all_floor_prices <> [].
Proof.
  intros Hprice Hweights Hfloors Hvalued.
  pose proof (fallback_nonempty case_data all_floor_prices Hprice Hweights Hfloors Hvalued)
    as Hfb.
  unfold calculate_rtp_probabilities. cbv zeta.
  assert (build_prizes case_data all_floor_prices <> []) as Hne.
  { unfold build_prizes. destruct (Case.prizes case_data); [inversion Hvalued|discriminate]. }
  rewrite (bool_decide_false _ Hne). cbn [orb].
  assert (forallb (fun p => Qeq_bool (Prize.floor_price p) 0)
            (build_prizes case_data all_floor_prices) = false) as ->.
  { apply not_true_is_false. intros Hall. rewrite forallb_forall in Hall.
    apply Exists_exists in Hvalued as (p & Hin & Hp).
    assert (exists q, q ∈ build_prizes case_data all_floor_prices
                      /\ Prize.floor_price q = default 0 (all_floor_prices !! pi_name p))
      as (q & Hq & Hfloor).
    { unfold build_prizes. eexists. split.
      - apply list_elem_of_fmap. exists p. split; [reflexivity|exact Hin].
      - reflexivity. }
    apply list_elem_of_In in Hq. specialize (Hall q Hq).
    apply Qeq_bool_iff in Hall. rewrite Hfloor in Hall. lra. }
  destruct (filler_of _) as [[fi filler_prize]|]; [|exact Hfb].
  destruct (Qle_bool _ 0); [exact Hfb|].
  destruct (negb _); [exact Hfb|].
  apply final_correction_nonempty.
  destruct (build_prizes case_data all_floor_prices) as [|p l]; [congruence|].
  destruct (Qlt_bool 0 _); discriminate.
Qed.

(** ** Registration of an account that has a referrer *)

(** The handler answers before it looks the code up, and commits nothing. *)
Lemma register_referral_already_referred
    (uid : Z) (username first_name last_name : option string)
    (ref_code : string) (rnd : Z) (db : DB) (ri : nat) (referred : User.t) :
  uid <> 0%Z ->
  str_truthy (Some ref_code) = true ->
  user_by_id uid db = Some (ri, referred) ->
  id_truthy (User.referred_by_id referred) = true ->
  register_referral_api (Some uid) username first_name last_name (Some ref_code) rnd db
  = (Reply (JObj [("status", JStr "already_referred")]) 200, db).
Proof.
  intros Hid Hcode Hq Href. unfold register_referral_api.
  cbn [id_truthy]. rewrite (bool_decide_false _ Hid), Hcode, Hq. cbn [negb orb].
  rewrite Href. reflexivity.
Qed.

(** ** Image references *)

Lemma str_app_cons (x : ascii) (a b : string) : String x a ++ b = String x (a ++ b).
Proof. reflexivity. Qed.

Lemma str_app_assoc (a b c : string) : (a ++ b) ++ c = a ++ (b ++ c).
Proof. induction a as [|x a IH]; [reflexivity|]. rewrite !str_app_cons, IH. reflexivity. Qed.

Lemma str_app_empty (a : string) : a ++ EmptyString = a.
Proof. induction a as [|x a IH]; [reflexivity|]. rewrite str_app_cons, IH. reflexivity. Qed.

Lemma str_rev_app (a t : string) : String.rev_app a t = String.rev a ++ t.
Proof.
  revert t. induction a as [|x a IH]; intros t; [reflexivity|].
  unfold String.rev. simpl. rewrite (IH (String x t)), (IH (String x EmptyString)).
  rewrite str_app_assoc. reflexivity.
Qed.

Lemma str_rev_append (a b : string) : String.rev (a ++ b) = String.rev b ++ String.rev a.
Proof.
  induction a as [|x a IH].
  - change (EmptyString ++ b) with b. rewrite str_app_empty. reflexivity.
  - rewrite str_app_cons. unfold String.rev at 1 3. simpl.
    rewrite !str_rev_app, IH, str_app_assoc. reflexivity.
Qed.

Lemma str_prefix_app (p x y : string) :
  String.prefix p x = true -> String.prefix p (x ++ y) = true.
Proof.
  revert x. induction p as [|c p IH]; intros x; [intros _; destruct (x ++ y); reflexivity|].
  destruct x as [|d x]; [discriminate|]. rewrite str_app_cons. simpl.
  destruct (ascii_dec c d); [apply IH|discriminate].
Qed.

Lemma str_endswith_app (a s suffix : string) :
  str_endswith s suffix = true -> str_endswith (a ++ s) suffix = true.
Proof. unfold str_endswith. rewrite str_rev_append. apply str_prefix_app. Qed.

Lemma str_map_app (f : ascii -> ascii) (a b : string) :
  str_map f (a ++ b) = str_map f a ++ str_map f b.
Proof.
  induction a as [|x a IH]; [reflexivity|]. rewrite str_app_cons. simpl.
  rewrite IH. reflexivity.
Qed.

Lemma str_all_app (P : ascii -> bool) (a b : string) :
  str_all P (a ++ b) = str_all P a && str_all P b.
Proof.
  induction a as [|x a IH]; [reflexivity|]. rewrite str_app_cons. simpl.
  rewrite IH, andb_assoc. reflexivity.
Qed.

Lemma sub_runs_class_gone (cls : ascii -> bool) (in_run : bool) (s : string) :
  cls "-"%char = false -> str_all (fun c => negb (cls c)) (sub_runs cls in_run s) = true.
Proof.
  intros Hdash. revert in_run. induction s as [|x s IH]; intros in_run; simpl; [reflexivity|].
  destruct (cls x) eqn:E.
  - destruct in_run; [apply IH|]. simpl. rewrite Hdash. simpl. apply IH.
  - simpl. rewrite E. simpl. apply IH.
Qed.

Lemma sub_runs_keeps (P : ascii -> bool) (cls : ascii -> bool) (in_run : bool) (s : string) :
  P "-"%char = true -> str_all P s = true -> str_all P (sub_runs cls in_run s) = true.
Proof.
  intros Hdash. revert in_run. induction s as [|x s IH]; intros in_run; simpl; [reflexivity|].
  intros [Hx Hs]%andb_true_iff.
  destruct (cls x).
  - destruct in_run; [apply IH, Hs|]. simpl. rewrite Hdash. apply IH, Hs.
  - simpl. rewrite Hx. apply IH, Hs.
Qed.

Lemma gift_ids_without_space (name gift_id : string) :
  GIFT_NAME_TO_ID_MAP_PY !! name = Some gift_id ->
  str_all (fun c => negb (ascii_is_space c)) gift_id = true.
Proof.
  unfold GIFT_NAME_TO_ID_MAP_PY. intros H%elem_of_list_to_map_2.
  apply list_elem_of_In in H. revert H.
  match goal with |- In _ ?l -> _ =>
    assert (forallb (fun kv => str_all (fun c => negb (ascii_is_space c)) kv.2) l = true) as Hall
      by (vm_compute; reflexivity) end.
  intros Hin. rewrite forallb_forall in Hall. exact (Hall _ Hin).
Qed.

(** X3.  Whatever the name, the image reference ends, letter case apart, in
    one of the five image extensions. *)
Theorem image_reference_has_extension (name_str : string) :
  existsb (str_endswith (str_lower (generate_image_filename_from_name name_str)))
    image_extensions = true.
Proof.
  unfold generate_image_filename_from_name, image_extensions.
  repeat match goal with
         | |- context [if String.eqb ?a ?b then _ else _] =>
             destruct (String.eqb a b); [vm_compute; reflexivity|]
         end.
  destruct (_ && _); [vm_compute; reflexivity|].
  destruct (GIFT_NAME_TO_ID_MAP_PY !! name_str) as [[|c gift_id]|].
  2:{ cbn [existsb]. apply orb_true_iff. left.
      unfold str_lower. rewrite !str_map_app. do 2 apply str_endswith_app.
      vm_compute. reflexivity. }
  all: cbv zeta;
    match goal with |- context [if ?b then _ else _] => destruct b eqn:E end;
    [exact E | cbn [existsb]; apply orb_true_iff; left;
               unfold str_lower; rewrite str_map_app; apply str_endswith_app;
               vm_compute; reflexivity].
Qed.

(** X4.  Whatever the name, the image reference holds no white space. *)
Theorem image_reference_without_space (name_str : string) :
  str_all (fun c => negb (ascii_is_space c)) (generate_image_filename_from_name name_str) = true.
Proof.
  unfold generate_image_filename_from_name.
  repeat match goal with
         | |- context [if String.eqb ?a ?b then _ else _] =>
             destruct (String.eqb a b); [vm_compute; reflexivity|]
         end.
  destruct (_ && _); [vm_compute; reflexivity|].
  destruct (GIFT_NAME_TO_ID_MAP_PY !! name_str) as [[|c gift_id]|] eqn:Hid.
  2:{ rewrite !str_all_app. apply gift_ids_without_space in Hid. rewrite Hid. reflexivity. }
  all: cbv zeta;
    match goal with |- context [if ?b then _ else _] => destruct b end;
    rewrite ?str_all_app; rewrite ?andb_true_iff; repeat split;
    try (apply sub_runs_keeps; [reflexivity|]; apply sub_runs_class_gone; reflexivity).
Qed.

(** ** Invariants of the handlers *)

(** X5.  A request that is not answered with status 200 commits nothing:
    after any ledger operation, registration of a referral or request of the
    account page, either the status is 200 or the database is what it was. *)
Theorem error_replies_commit_nothing
    (decimal_pow_frac : Q -> Q -> Q) (float_repr : Q -> string) (db : DB) :
  (forall op,
      reply_status (run decimal_pow_frac float_repr op db).1 = Some 200%Z
      \/ (run decimal_pow_frac float_repr op db).2 = db)
  /\ (forall user_id username first_name last_name referral_code rnd,
        reply_status
          (register_referral_api user_id username first_name last_name referral_code rnd db).1
        = Some 200%Z
        \/ (register_referral_api user_id username first_name last_name referral_code rnd db).2
           = db)
  /\ (forall auth rnd,
        reply_status (get_user_data_api auth rnd db).1 = Some 200%Z
        \/ (get_user_data_api auth rnd db).2 = db).
Proof.
  split; [|split].
  - intros op. destruct op; cbn [run].
    + unfold instant_topup_api. split_handler; cbn; auto.
    + unfold open_case_api. split_handler; cbn; auto.
    + unfold upgrade_item_v2_api. split_handler; cbn; auto.
    + unfold convert_to_ton_api. split_handler; cbn; auto.
    + unfold sell_all_items_api. split_handler; cbn; auto.
    + unfold redeem_promocode_api. split_handler; cbn; auto.
    + unfold withdraw_referral_earnings_api. split_handler; cbn; auto.
    + unfold withdraw_gift_api. split_handler; cbn; auto.
  - intros. unfold register_referral_api. split_handler; cbn; auto.
  - intros. unfold get_user_data_api. split_handler; cbn; auto.
Qed.

Lemma filter_delete_out {A : Type} (P : A -> Prop) `{forall x, Decision (P x)}
    (l : list A) (i : nat) (x : A) :
  l !! i = Some x -> ~ P x -> filter P (delete i l) = filter P l.
Proof.
  revert i. induction l as [|y l IH]; intros i Hi Hx; [discriminate|].
  destruct i as [|i]; simpl in *.
  - injection Hi as ->. rewrite filter_cons_False by exact Hx. reflexivity.
  - rewrite !filter_cons. rewrite (IH i Hi Hx). reflexivity.
Qed.

Lemma filter_app_out {A : Type} (P : A -> Prop) `{forall x, Decision (P x)}
    (l l' : list A) :
  Forall (fun x => ~ P x) l' -> filter P (l ++ l')%list = filter P l.
Proof.
  intros Hall. rewrite filter_app.
  assert (filter P l' = []) as ->; [|apply app_nil_r].
  induction Hall as [|x l' Hx _ IH]; [reflexivity|].
  rewrite filter_cons_False by exact Hx. exact IH.
Qed.

Lemma filter_filter_weaker {A : Type} (P Q : A -> Prop)
    `{forall x, Decision (P x)} `{forall x, Decision (Q x)} (l : list A) :
  (forall x, P x -> Q x) -> filter P (filter Q l) = filter P l.
Proof.
  intros Himp. induction l as [|x l IH]; [reflexivity|].
  rewrite (filter_cons Q). destruct (decide (Q x)) as [Hq|Hq].
  - rewrite !filter_cons. rewrite IH. reflexivity.
  - rewrite IH. rewrite filter_cons_False; [reflexivity|]. intros Hp. apply Hq, Himp, Hp.
Qed.

Lemma others_untouched_refl (uid : Z) (db : DB) : others_untouched uid db db.
Proof. repeat split; auto. Qed.

(** The row of the caller, found by [user_by_id], is the only row of
    [users] that an update at its position changes. *)
Lemma users_update_others (uid : Z) (db : DB) (ui : nat) (user user' : User.t) :
  user_by_id uid db = Some (ui, user) ->
  forall i account,
    users db !! i = Some account -> User.id account <> uid ->
    <[ui := user']> (users db) !! i = Some account.
Proof.
  intros Hq i account Hi Hne. apply query_first_Some in Hq as [Hui Hid].
  apply bool_decide_eq_true in Hid.
  rewrite list_lookup_insert_ne; [exact Hi|]. intros ->. congruence.
Qed.

Lemma items_delete_others (item_id uid : Z) (db : DB) (ii : nat) (item : InventoryItem.t) :
  item_of_user item_id uid db = Some (ii, item) ->
  filter (fun item => InventoryItem.user_id item <> uid) (delete ii (inventory_items db))
  = filter (fun item => InventoryItem.user_id item <> uid) (inventory_items db).
Proof.
  intros Hq. apply query_first_Some in Hq as [Hii Hid].
  apply andb_true_iff in Hid as [_ Hid]. apply bool_decide_eq_true in Hid.
  eapply filter_delete_out; [exact Hii|]. intros Hne. exact (Hne Hid).
Qed.

Lemma drawn_items_of_caller (uid : Z) (table : list Prize.t) (db : DB) (rand : nat -> Q)
    (new_id : Z) (round rounds : nat) (items : list InventoryItem.t) :
  draw_items uid table db rand new_id round rounds = Some items ->
  Forall (fun item => ~ InventoryItem.user_id item <> uid) items.
Proof.
  intros H. apply draw_items_drawn_from in H.
  eapply Forall_impl; [exact H|]. intros item (chosen & _ & ->) Hne. apply Hne. reflexivity.
Qed.

(** X6.  A ledger operation performed with the identity of one account
    leaves the rows, the inventory and the redemptions of every other account,
    and the gift table, as they were. *)
Theorem operation_touches_only_the_caller
    (decimal_pow_frac : Q -> Q -> Q) (float_repr : Q -> string)
    (op : operation) (auth : auth_data) (db : DB) :
  operation_auth op = Some auth ->
  others_untouched (auth_id auth) db (run decimal_pow_frac float_repr op db).2.
Proof.
  intros Hauth. destruct op; cbn [operation_auth] in Hauth; subst; cbn [run].
  - unfold instant_topup_api. split_handler; cbn [snd]; try apply others_untouched_refl.
    repeat split; cbn; auto. eapply users_update_others; eassumption.
  - unfold open_case_api. split_handler; cbn [snd]; try apply others_untouched_refl.
    repeat split; cbn; auto.
    + eapply users_update_others; eassumption.
    + apply filter_app_out. eapply drawn_items_of_caller; eassumption.
  - unfold upgrade_item_v2_api. split_handler; cbn [snd]; try apply others_untouched_refl.
    all: repeat split; cbn; auto.
    all: try (eapply users_update_others; eassumption).
    + rewrite filter_app_out by (constructor; [cbn; tauto|constructor]).
      eapply items_delete_others; eassumption.
    + eapply items_delete_others; eassumption.
  - unfold convert_to_ton_api. split_handler; cbn [snd]; try apply others_untouched_refl.
    all: repeat split; cbn; auto.
    all: try (eapply users_update_others; eassumption).
    all: eapply items_delete_others; eassumption.
  - unfold sell_all_items_api. split_handler; cbn [snd]; try apply others_untouched_refl.
    repeat split; cbn; auto.
    + eapply users_update_others; eassumption.
    + apply filter_filter_weaker. intros item Hne. unfold sellable.
      rewrite bool_decide_false by exact Hne. reflexivity.
  - unfold redeem_promocode_api. split_handler; cbn [snd]; try apply others_untouched_refl.
    all: repeat split; cbn; auto.
    all: try (eapply users_update_others; eassumption).
    all: apply filter_app_out; constructor; [cbn; tauto|constructor].
  - unfold withdraw_referral_earnings_api. split_handler; cbn [snd];
      try apply others_untouched_refl.
    repeat split; cbn; auto. eapply users_update_others; eassumption.
  - unfold withdraw_gift_api. split_handler; cbn [fst snd]; try apply others_untouched_refl.
    all: repeat split; cbn; auto.
    all: eapply items_delete_others; eassumption.
Qed.

(** A top-up by the account 7 leaves the row of the account 8 alone. *)
Lemma operation_touches_only_the_caller_witness :
  operation_auth (TopUp (Some auth_alice) (Some 5)) = Some auth_alice
  /\ others_untouched 7
       (mkDB [alice; User.mk 8 None None None 1.0 None None 0.0 0.0] [] [] [] [] 1)
       (run no_pow show_5 (TopUp (Some auth_alice) (Some 5))
          (mkDB [alice; User.mk 8 None None None 1.0 None None 0.0 0.0] [] [] [] [] 1)).2.
Proof.
  split; [reflexivity|].
  exact (operation_touches_only_the_caller no_pow show_5 (TopUp (Some auth_alice) (Some 5))
           auth_alice _ eq_refl).
Defined.

(** X7.  Whatever the operation, the promo codes keep their place, text,
    key and amount; an unlimited code (-1) stays unlimited, and a code with a
    number of activations left keeps a number that is not negative and not above
    what it was, so that it never turns into an unlimited code. *)
Theorem promo_counters_stay_in_range
    (decimal_pow_frac : Q -> Q -> Q) (float_repr : Q -> string)
    (op : operation) (db : DB) (i : nat) (promo : PromoCode.t) :
  promo_codes db !! i = Some promo ->
  exists promo',
    promo_codes (run decimal_pow_frac float_repr op db).2 !! i = Some promo'
    /\ PromoCode.id promo' = PromoCode.id promo
    /\ PromoCode.code_text promo' = PromoCode.code_text promo
    /\ PromoCode.ton_amount promo' = PromoCode.ton_amount promo
    /\ (PromoCode.activations_left promo = (-1)%Z -> PromoCode.activations_left promo' = (-1)%Z)
    /\ (0 <= PromoCode.activations_left promo ->
        0 <= PromoCode.activations_left promo' <= PromoCode.activations_left promo)%Z.
Proof.
  intros Hi.
  assert (forall db', promo_codes db' = promo_codes db ->
            exists promo',
              promo_codes db' !! i = Some promo'
              /\ PromoCode.id promo' = PromoCode.id promo
              /\ PromoCode.code_text promo' = PromoCode.code_text promo
              /\ PromoCode.ton_amount promo' = PromoCode.ton_amount promo
              /\ (PromoCode.activations_left promo = (-1)%Z ->
                  PromoCode.activations_left promo' = (-1)%Z)
              /\ (0 <= PromoCode.activations_left promo ->
                  0 <= PromoCode.activations_left promo' <= PromoCode.activations_left promo)%Z)
    as Hsame.
  { intros db' ->. exists promo. repeat split; auto; lia. }
  destruct op; cbn [run].
  - apply Hsame. unfold instant_topup_api. split_handler; reflexivity.
  - apply Hsame. unfold open_case_api. split_handler; reflexivity.
  - apply Hsame. unfold upgrade_item_v2_api. split_handler; reflexivity.
  - apply Hsame. unfold convert_to_ton_api. split_handler; reflexivity.
  - apply Hsame. unfold sell_all_items_api. split_handler; reflexivity.
  - unfold redeem_promocode_api. split_handler; cbn [snd]; try (apply Hsame; reflexivity).
    all: cbn [promo_codes set_user_promo_code_redemptions set_promo_codes].
    all: match goal with H : query_first _ (promo_codes _) = Some (?pi, ?p) |- _ =>
           apply query_first_Some in H as [Hpi _];
           destruct (decide (pi = i)) as [->|Hne];
           [ rewrite list_lookup_insert_eq by (eapply lookup_lt_Some; exact Hpi);
             assert (p = promo) as -> by congruence
           | rewrite list_lookup_insert_ne by exact Hne; exists promo;
             repeat split; auto; lia ]
         end.
    all: eexists; split; [reflexivity|]; cbn.
    all: repeat match goal with
                | H : _ && _ = false |- _ => apply andb_false_iff in H
                | H : negb _ = true |- _ => apply negb_true_iff in H
                | H : negb _ = false |- _ => apply negb_false_iff in H
                | H : bool_decide _ = true |- _ => apply bool_decide_eq_true in H
                | H : bool_decide _ = false |- _ => apply bool_decide_eq_false in H
                end.
    all: repeat split; auto; try lia.
    all: try (intuition (try congruence; try lia)).
    all: repeat match goal with
                | H : bool_decide _ = true |- _ => apply bool_decide_eq_true in H
                | H : bool_decide _ = false |- _ => apply bool_decide_eq_false in H
                end; lia.
  - apply Hsame. unfold withdraw_referral_earnings_api. split_handler; reflexivity.
  - apply Hsame. unfold withdraw_gift_api. split_handler; reflexivity.
Qed.

(** The code GIFT5, with one activation left, has none after its
    redemption. *)
Lemma promo_counters_stay_in_range_witness :
  promo_codes db_promo !! 0%nat = Some gift5
  /\ exists promo',
       promo_codes (run no_pow show_5 (RedeemPromo (Some auth_alice) "GIFT5") db_promo).2
         !! 0%nat = Some promo'
       /\ PromoCode.activations_left promo' = 0%Z.
Proof.
  split; [reflexivity|].
  destruct (promo_counters_stay_in_range no_pow show_5 (RedeemPromo (Some auth_alice) "GIFT5")
              db_promo 0 gift5 eq_refl) as (promo' & Hrow & _).
  exists promo'. split; [exact Hrow|].
  vm_compute in Hrow. injection Hrow as <-. reflexivity.
Defined.

(** ** Sale of the whole inventory *)


(** The caller is found again, at the same position, after an update of
    its row that keeps the key. *)
Lemma user_by_id_updated (uid : Z) (db db' : DB) (ui : nat) (user user' : User.t) :
  user_by_id uid db = Some (ui, user) ->
  User.id user' = User.id user ->
  users db' = <[ui := user']> (users db) ->
  user_by_id uid db' = Some (ui, user').
Proof.
  intros Hq Hid Husers. unfold user_by_id. rewrite Husers.
  apply query_first_insert with (row := user); [exact Hq|].
  apply query_first_Some in Hq as [_ Hq]. rewrite Hid. exact Hq.
Qed.




(** ** Withdrawal of the referral earnings *)



(** ** Withdrawal of a gift: what is sent to the fulfillment service *)

(** X10.  The fulfillment service is contacted at most once in a request,
    and only for an item that the caller owns and that is not a TON prize, with
    the user name of the caller as the receiver. *)
Theorem fulfillment_contacted_only_for_owned_gift
    (auth : option auth_data) (inventory_item_id : option Z)
    (post : withdrawal_payload -> fulfillment) (db : DB) (payload : withdrawal_payload) :
  payload ∈ (withdraw_gift_api auth inventory_item_id post db).2 ->
  exists caller username item_id ii item,
    auth = Some caller
    /\ auth_username caller = Some username
    /\ inventory_item_id = Some item_id
    /\ item_of_user item_id (auth_id caller) db = Some (ii, item)
    /\ InventoryItem.is_ton_prize item = false
    /\ payload = payload_for username item db
    /\ (withdraw_gift_api auth inventory_item_id post db).2 = [payload].
Proof.
  unfold withdraw_gift_api. split_handler; cbn [fst snd]; intros Hin.
  all: try (apply elem_of_nil in Hin; contradiction).
  all: apply list_elem_of_singleton in Hin; subst payload.
  all: eexists _, _, _, _, _; repeat split; try eassumption; try reflexivity.
  all: unfold payload_for; match goal with H : nft_of_item _ _ = _ |- _ => rewrite H end;
    reflexivity.
Qed.

(** The account 7 withdraws its Lol Pop: one request, for that gift, to
    [alice]. *)
Lemma fulfillment_contacted_only_for_owned_gift_witness :
  payload_for "alice" lol_pop_item db_one_gift
    ∈ (withdraw_gift_api (Some auth_alice) (Some 1%Z) always_delivered db_one_gift).2
  /\ exists ii item,
       item_of_user 1 7 db_one_gift = Some (ii, item)
       /\ InventoryItem.is_ton_prize item = false.
Proof.
  assert (payload_for "alice" lol_pop_item db_one_gift
            ∈ (withdraw_gift_api (Some auth_alice) (Some 1%Z) always_delivered db_one_gift).2)
    as Hin by (apply list_elem_of_singleton; reflexivity).
  split; [exact Hin|].
  destruct (fulfillment_contacted_only_for_owned_gift _ _ _ _ _ Hin)
    as (caller & username & item_id & ii & item & Hc & _ & Hi & Hq & Hton & _).
  injection Hc as <-. injection Hi as <-. exists ii, item. split; [exact Hq|exact Hton].
Defined.

(** ** The promo code as typed *)

Lemma str_lstrip_clean (s : string) : starts_clean (str_lstrip s).
Proof.
  induction s as [|c s IH]; simpl; [exact I|].
  destruct (ascii_is_space c) eqn:E; [exact IH|exact E].
Qed.

Lemma str_lstrip_of_clean (s : string) : starts_clean s -> str_lstrip s = s.
Proof. destruct s as [|c s]; simpl; [reflexivity|]. intros ->. reflexivity. Qed.

Lemma str_lstrip_split (s : string) : exists w, s = w ++ str_lstrip s.
Proof.
  induction s as [|c s [w IH]]; simpl; [exists EmptyString; reflexivity|].
  destruct (ascii_is_space c).
  - exists (String c w). rewrite str_app_cons, <- IH. reflexivity.
  - exists EmptyString. reflexivity.
Qed.

Lemma str_rev_cons (c : ascii) (s : string) :
  String.rev (String c s) = String.rev s ++ String c EmptyString.
Proof. exact (str_rev_append (String c EmptyString) s). Qed.

Lemma str_rev_involutive (s : string) : String.rev (String.rev s) = s.
Proof.
  induction s as [|c s IH]; [reflexivity|].
  rewrite str_rev_cons, str_rev_append, IH. reflexivity.
Qed.

Lemma starts_clean_prefix (x y : string) : starts_clean (x ++ y) -> starts_clean x.
Proof. destruct x as [|c x]; [intros _; exact I|]. rewrite str_app_cons. exact id. Qed.

Lemma str_strip_idempotent (s : string) : str_strip (str_strip s) = str_strip s.
Proof.
  unfold str_strip.
  set (t := str_lstrip s). set (u := str_lstrip (String.rev t)).
  assert (starts_clean (String.rev u)) as Hclean.
  { destruct (str_lstrip_split (String.rev t)) as [w Hw]. fold u in Hw.
    apply (f_equal String.rev) in Hw. rewrite str_rev_involutive, str_rev_append in Hw.
    apply starts_clean_prefix with (String.rev w). rewrite <- Hw. apply str_lstrip_clean. }
  rewrite (str_lstrip_of_clean _ Hclean), str_rev_involutive.
  rewrite (str_lstrip_of_clean u (str_lstrip_clean _)). reflexivity.
Qed.

Lemma str_strip_of_space (s : string) : str_all ascii_is_space s = true -> str_strip s = EmptyString.
Proof.
  intros Hs. unfold str_strip.
  assert (str_lstrip s = EmptyString) as ->; [|reflexivity].
  induction s as [|c s IH]; [reflexivity|]. simpl in Hs |- *.
  apply andb_true_iff in Hs as [-> Hs]. exact (IH Hs).
Qed.

(** X11.  The promo code is read without the white space around it: the
    request with the stripped text has the reply and the effect of the request
    with the text as typed, and a text of white space only is answered with
    the code-required error and changes nothing. *)
Theorem redeem_promocode_ignores_outer_space
    (float_repr : Q -> string) (auth : auth_data) (promocode_text : string) (db : DB) :
  redeem_promocode_api float_repr (Some auth) (str_strip promocode_text) db
  = redeem_promocode_api float_repr (Some auth) promocode_text db
  /\ (str_all ascii_is_space promocode_text = true ->
      redeem_promocode_api float_repr (Some auth) promocode_text db
      = (error_reply "Code required." 400, db)).
Proof.
  split.
  - unfold redeem_promocode_api. rewrite str_strip_idempotent. reflexivity.
  - intros Hs. unfold redeem_promocode_api. rewrite (str_strip_of_space _ Hs). reflexivity.
Qed.

(** ** Referral links *)

(** X12.  A registration changes no column of an existing account but its
    referrer, never replaces a referrer that is set, and makes no account its
    own referrer. *)
Theorem register_referral_only_links
    (user_id : option Z) (username first_name last_name referral_code : option string)
    (rnd : Z) (db : DB) :
  (forall i account,
      users db !! i = Some account ->
      exists account',
        users (register_referral_api user_id username first_name last_name referral_code
                 rnd db).2 !! i = Some account'
        /\ User.set_referred_by_id (User.referred_by_id account) account' = account
        /\ (id_truthy (User.referred_by_id account) = true -> account' = account))
  /\ (no_self_referral db ->
      no_self_referral
        (register_referral_api user_id username first_name last_name referral_code rnd db).2).
Proof.
  assert (forall u : User.t, User.set_referred_by_id (User.referred_by_id u) u = u) as Hset
    by (intros []; reflexivity).
  unfold register_referral_api.
  destruct user_id as [uid|], referral_code as [ref_code|];
    try solve [split; [intros i account Hi; exists account; repeat split; auto|auto]].
  destruct (negb (id_truthy (Some uid)) || negb (str_truthy (Some ref_code)));
    [solve [split; [intros i account Hi; exists account; repeat split; auto|auto]]|].
  destruct (user_by_id uid db) as [[ri referred]|] eqn:Hq.
  - pose proof (query_first_Some _ _ _ _ Hq) as [Hri _].
    destruct (id_truthy (User.referred_by_id referred)) eqn:Hset';
      [solve [split; [intros i account Hi; exists account; repeat split; auto|auto]]|].
    cbn [snd users set_users]. split.
    + intros i account Hi. destruct (decide (ri = i)) as [->|Hne].
      * rewrite list_lookup_insert_eq by (eapply lookup_lt_Some; exact Hri).
        assert (referred = account) as -> by congruence.
        eexists. split; [reflexivity|]. split; [|intros Ht; congruence].
        destruct (query_first _ _) as [[? referrer]|]; [|apply Hset].
        destruct (negb _); [|apply Hset]. destruct account; reflexivity.
      * rewrite list_lookup_insert_ne by exact Hne. exists account. auto.
    + unfold no_self_referral. cbn [users set_users]. intros Hno.
      apply Forall_insert; [exact Hno|].
      destruct (query_first _ _) as [[? referrer]|];
        [|eapply Forall_lookup_1 in Hno; [exact Hno|exact Hri]].
      destruct (negb (bool_decide _)) eqn:E;
        [|eapply Forall_lookup_1 in Hno; [exact Hno|exact Hri]].
      apply negb_true_iff, bool_decide_eq_false in E. cbn. congruence.
  - cbn [id_truthy User.referred_by_id]. cbv iota. cbn [snd users set_users]. split.
    + intros i account Hi. exists account.
      rewrite list_lookup_insert_ne by (apply lookup_lt_Some in Hi; lia).
      rewrite lookup_app_l by (eapply lookup_lt_Some; exact Hi). auto.
    + unfold no_self_referral. cbn [users set_users]. intros Hno.
      rewrite <- (Nat.add_0_r (length (users db))). rewrite insert_app_r. cbn [list_insert insert].
      apply Forall_app. split; [exact Hno|]. constructor; [|constructor].
      destruct (query_first _ _) as [[? referrer]|]; [|cbn; discriminate].
      destruct (negb (bool_decide _)) eqn:E; [|cbn; discriminate].
      apply negb_true_iff, bool_decide_eq_false in E. cbn in E |- *. congruence.
Qed.

(** ** The accepted signature and the accepted identity *)

Lemma mjoin_cons {A : Type} (x : list A) (l : list (list A)) :
  mjoin (x :: l) = (x ++ mjoin l)%list.
Proof. reflexivity. Qed.

Lemma round_length (state : list N) (kw : N * N) :
  length (SHA256.round state kw) = length state.
Proof.
  unfold SHA256.round.
  destruct state as [|a [|b [|c [|d [|e [|f [|g [|h [|i rest]]]]]]]]]; reflexivity.
Qed.

Lemma compress_length (state block : list N) :
  length (SHA256.compress state block) = length state.
Proof.
  unfold SHA256.compress. rewrite length_zip_with.
  assert (forall kws st, length (fold_left SHA256.round kws st) = length st) as Hfold.
  { induction kws as [|kw kws IH]; intros st; [reflexivity|].
    simpl. rewrite IH. apply round_length. }
  rewrite Hfold. lia.
Qed.

Lemma be_bytes_spec (n : nat) (x : N) :
  length (SHA256.be_bytes n x) = n /\ Forall (fun b => (b < 256)%N) (SHA256.be_bytes n x).
Proof.
  induction n as [|n [IH1 IH2]]; simpl; [split; [reflexivity|constructor]|].
  split; [rewrite IH1; reflexivity|]. constructor; [|exact IH2].
  apply N.mod_lt. discriminate.
Qed.

Lemma digest_bytes (msg : list N) :
  length (SHA256.digest msg) = 32%nat /\ Forall (fun b => (b < 256)%N) (SHA256.digest msg).
Proof.
  unfold SHA256.digest.
  set (state := fold_left SHA256.compress _ SHA256.H0).
  assert (length state = 8%nat) as Hstate.
  { subst state. generalize (SHA256.chunks (length (SHA256.pad msg)) 64 (SHA256.pad msg)).
    assert (length SHA256.H0 = 8%nat) as H0 by (vm_compute; reflexivity).
    revert H0. generalize SHA256.H0.
    intros st Hst blocks. revert st Hst.
    induction blocks as [|b blocks IH]; intros st Hst; [exact Hst|].
    simpl. apply IH. rewrite compress_length. exact Hst. }
  clear -Hstate.
  assert (forall ws : list N,
            length (mjoin (SHA256.be_bytes 4 <$> ws)) = (4 * length ws)%nat
            /\ Forall (fun b => (b < 256)%N) (mjoin (SHA256.be_bytes 4 <$> ws))) as Hjoin.
  { induction ws as [|w ws [IH1 IH2]]; [split; [reflexivity|constructor]|].
    rewrite fmap_cons, mjoin_cons. destruct (be_bytes_spec 4 w) as [H1 H2]. split.
    - rewrite length_app, H1, IH1. simpl. lia.
    - apply Forall_app. split; assumption. }
  destruct (Hjoin state) as [H1 H2]. split; [rewrite H1, Hstate; reflexivity|exact H2].
Qed.

Lemma hex_digit_lower (d : N) : (d < 16)%N -> is_lower_hex (SHA256.hex_digit d) = true.
Proof.
  intros Hd.
  assert (forallb (fun k => is_lower_hex (SHA256.hex_digit (N.of_nat k))) (seq 0 16) = true)
    as Hall by (vm_compute; reflexivity).
  rewrite forallb_forall in Hall. specialize (Hall (N.to_nat d)).
  rewrite N2Nat.id in Hall. apply Hall, in_seq. lia.
Qed.

Lemma hex_spec (bytes : list N) :
  Forall (fun b => (b < 256)%N) bytes ->
  String.length (SHA256.hex bytes) = (2 * length bytes)%nat
  /\ str_all is_lower_hex (SHA256.hex bytes) = true.
Proof.
  unfold SHA256.hex. induction 1 as [|b bytes Hb _ [IH1 IH2]]; [split; reflexivity|].
  rewrite fmap_cons, mjoin_cons. cbn [app string_of_list_ascii String.length str_all].
  split; [rewrite IH1; cbn [length]; lia|].
  rewrite IH2, !hex_digit_lower; [reflexivity| |].
  - apply N.mod_lt. discriminate.
  - apply N.Div0.div_lt_upper_bound. exact Hb.
Qed.

Lemma specified_signature_shape (data : gmap string (list string)) (token : string) :
  String.length (specified_signature data token) = 64%nat
  /\ str_all is_lower_hex (specified_signature data token) = true.
Proof.
  unfold specified_signature, SHA256.hmac.
  match goal with |- context [SHA256.hex (SHA256.digest ?m)] =>
    destruct (digest_bytes m) as [Hlen Hall]; generalize dependent (SHA256.digest m) end.
  intros bytes Hlen Hall. destruct (hex_spec bytes Hall) as [H1 H2].
  split; [rewrite H1, Hlen; reflexivity|exact H2].
Qed.

(** X13.  A payload is accepted only with a signature of 64 characters,
    each a digit or a letter from [a] to [f]: a signature of another length,
    or written with capital letters, is refused. *)
Theorem accepted_signature_is_lowercase_hex
    (json_loads : string -> option json) (py_int : json -> option Z)
    (init_data_str token : option string) (user_data : list (string * json)) :
  validate_init_data json_loads py_int init_data_str token = Some user_data ->
  exists init_data hash_val,
    init_data_str = Some init_data
    /\ parse_qs init_data !! "hash" ≫= head = Some hash_val
    /\ String.length hash_val = 64%nat
    /\ str_all is_lower_hex hash_val = true.
Proof.
  intros H.
  destruct init_data_str as [[|c0 s0]|]; [discriminate| |discriminate].
  destruct token as [[|c1 s1]|]; [discriminate| |discriminate].
  rewrite validate_init_data_eval in H by discriminate.
  apply checked_Some in H as [Hhash _].
  exists (String c0 s0), (specified_signature (parse_qs (String c0 s0)) (String c1 s1)).
  split; [reflexivity|]. split; [exact Hhash|]. apply specified_signature_shape.
Qed.

Lemma accepted_signature_is_lowercase_hex_witness :
  validate_init_data loads_user_42 int_of_json (Some payload_of_1970) (Some test_token)
  = Some [("id", JInt 42)]
  /\ exists hash_val,
       parse_qs payload_of_1970 !! "hash" ≫= head = Some hash_val
       /\ String.length hash_val = 64%nat.
Proof.
  assert (validate_init_data loads_user_42 int_of_json (Some payload_of_1970) (Some test_token)
          = Some [("id", JInt 42)]) as Hok
    by (apply payload_of_1970_accepted; reflexivity).
  split; [exact Hok|].
  destruct (accepted_signature_is_lowercase_hex _ _ _ _ _ Hok)
    as (init_data & hash_val & Hi & Hh & Hlen & _).
  injection Hi as <-. exists hash_val. split; [exact Hh|exact Hlen].
Defined.

(** X14.  The identity that the validation returns carries an integer
    [id]: every [id] entry of the returned user data is the same JSON
    integer, and there is one. *)
Theorem accepted_identity_has_integer_id
    (json_loads : string -> option json) (py_int : json -> option Z)
    (init_data_str token : option string) (user_data : list (string * json)) :
  validate_init_data json_loads py_int init_data_str token = Some user_data ->
  exists n,
    ("id", JInt n) ∈ user_data
    /\ forall value, ("id", value) ∈ user_data -> value = JInt n.
Proof.
  intros H.
  destruct init_data_str as [[|c0 s0]|]; [discriminate| |discriminate].
  destruct token as [[|c1 s1]|]; [discriminate| |discriminate].
  rewrite validate_init_data_eval in H by discriminate.
  apply checked_Some in H as [_ Hload].
  unfold load_user_data in Hload.
  destruct (_ ≫= head) as [user_field|]; [|discriminate]. cbn [mbind option_bind] in Hload.
  destruct (json_loads _) as [[| | | | | |fields]|]; try discriminate.
  destruct (list_find _ fields) as [[i [k v]]|] eqn:Hfind; [|discriminate].
  cbn [fmap option_fmap option_map mbind option_bind snd] in Hload.
  destruct (py_int v) as [n|]; [|discriminate]. cbn [mbind option_bind] in Hload.
  injection Hload as <-.
  apply list_find_Some in Hfind as (Hi & Hk & _). cbn in Hk. subst k.
  exists n. split.
  - apply list_elem_of_fmap. exists ("id", v). split.
    + cbv beta. cbn [fst snd]. case_bool_decide as E; [reflexivity|exfalso; apply E; reflexivity].
    + apply list_elem_of_lookup. eauto.
  - intros value Hin. apply list_elem_of_fmap in Hin as ([k' v'] & Heq & _).
    cbn in Heq. case_bool_decide as E; [congruence|]. injection Heq as Hk Hv. congruence.
Qed.

Lemma accepted_identity_has_integer_id_witness :
  validate_init_data loads_user_42 int_of_json (Some payload_of_1970) (Some test_token)
  = Some [("id", JInt 42)]
  /\ exists n, ("id", JInt n) ∈ [("id", JInt 42)].
Proof.
  assert (validate_init_data loads_user_42 int_of_json (Some payload_of_1970) (Some test_token)
          = Some [("id", JInt 42)]) as Hok
    by (apply payload_of_1970_accepted; reflexivity).
  split; [exact Hok|].
  destruct (accepted_identity_has_integer_id _ _ _ _ _ Hok) as (n & Hin & _).
  exists n. exact Hin.
Defined.

(** ** The account page *)

Lemma query_first_app_l {A : Type} (f : A -> bool) (rows rows' : list A) (r : nat * A) :
  query_first f rows = Some r -> query_first f (rows ++ rows')%list = Some r.
Proof.
  unfold query_first. destruct r as [i row]. intros H.
  apply list_find_Some in H as (Hi & Hrow & Hbefore).
  apply list_find_Some. split; [|split].
  - apply lookup_app_l_Some. exact Hi.
  - exact Hrow.
  - intros j y Hj Hlt. rewrite lookup_app_l in Hj by (apply lookup_lt_Some in Hi; lia).
    eapply Hbefore; eauto.
Qed.

Lemma query_first_app_new {A : Type} (f : A -> bool) (rows : list A) (row : A) :
  query_first f rows = None -> f row = true ->
  query_first f (rows ++ [row])%list = Some (length rows, row).
Proof.
  unfold query_first. intros Hnone Hrow.
  apply list_find_None in Hnone.
  apply list_find_Some. split; [|split].
  - rewrite lookup_app_r by lia. rewrite Nat.sub_diag. reflexivity.
  - exact Hrow.
  - intros j y Hj Hlt. rewrite lookup_app_l in Hj by lia.
    eapply Forall_lookup_1 in Hnone; [|exact Hj]. exact Hnone.
Qed.

(** X15.  The first request of the account page by an identity without an
    account creates the account, with empty balances, no referrer and the code
    [ref_<id>_<rnd>], unless another account holds that code, in which case the
    request fails and nothing is committed; once the account is there, the
    page is served again without any change, whatever the random number. *)
Theorem account_page_creates_account_once (auth : auth_data) (rnd rnd' : Z) (db : DB) :
  user_by_id (auth_id auth) db = None ->
  (Exists (fun u => User.referral_code u
                    = Some ("ref_" +:+ pretty (auth_id auth) +:+ "_" +:+ pretty rnd)) (users db) ->
   get_user_data_api (Some auth) rnd db = (Unhandled, db))
  /\ (Forall (fun u => User.referral_code u
                      <> Some ("ref_" +:+ pretty (auth_id auth) +:+ "_" +:+ pretty rnd)) (users db) ->
      let account :=
        new_account (auth_id auth) (auth_username auth) (auth_first_name auth)
          (auth_last_name auth) rnd in
      let db' := set_users (users db ++ [account]) db in
      get_user_data_api (Some auth) rnd db = (Reply (user_data_json account db') 200, db')
      /\ get_user_data_api (Some auth) rnd' db' = (Reply (user_data_json account db') 200, db')).
Proof.
  intros Hnone. split.
  - intros Htaken. unfold get_user_data_api. rewrite Hnone. cbn [User.referral_code].
    rewrite bool_decide_true by exact Htaken. reflexivity.
  - intros Hfree account db'. split.
    + unfold get_user_data_api. rewrite Hnone. cbn [User.referral_code].
      rewrite bool_decide_false; [reflexivity|].
      intros Htaken. apply Exists_exists in Htaken as (u & Hin & Hu).
      eapply Forall_forall in Hfree; [|exact Hin]. exact (Hfree Hu).
    + unfold get_user_data_api.
      assert (user_by_id (auth_id auth) db' = Some (length (users db), account)) as ->.
      { unfold user_by_id. subst db'. cbn [users set_users].
        apply query_first_app_new; [exact Hnone|]. apply bool_decide_eq_true. reflexivity. }
      reflexivity.
Qed.

(** The account 9 asks for its page in a database that holds the account 7
    only: the account is added, and it is served as it is on a second
    request. *)
Lemma account_page_creates_account_once_witness :
  user_by_id (auth_id auth_carol) db_one_account = None
  /\ Forall (fun u => User.referral_code u <> Some ("ref_" +:+ pretty 9%Z +:+ "_" +:+ pretty 4321%Z))
       (users db_one_account)
  /\ users (get_user_data_api (Some auth_carol) 4321 db_one_account).2
     = [alice; new_account 9 (Some "carol") (Some "Carol") None 4321]
  /\ (get_user_data_api (Some auth_carol) 1111
        (get_user_data_api (Some auth_carol) 4321 db_one_account).2).2
     = (get_user_data_api (Some auth_carol) 4321 db_one_account).2.
Proof.
  assert (Forall (fun u => User.referral_code u
                           <> Some ("ref_" +:+ pretty 9%Z +:+ "_" +:+ pretty 4321%Z))
            (users db_one_account)) as Hfree
    by (constructor; [vm_compute; discriminate|constructor]).
  split; [reflexivity|]. split; [exact Hfree|].
  destruct (account_page_creates_account_once auth_carol 4321 1111 db_one_account eq_refl)
    as [_ Hcreate].
  destruct (Hcreate Hfree) as [H1 H2].
  rewrite H1. cbn [snd]. split; [reflexivity|]. rewrite H2. reflexivity.
Defined.

(** ** A referral as the referrer sees it *)

Lemma insert_at_end {A : Type} (l : list A) (x y : A) :
  <[length l := y]> (l ++ [x])%list = (l ++ [y])%list.
Proof.
  rewrite <- (Nat.add_0_r (length l)). rewrite insert_app_r. reflexivity.
Qed.

Lemma count_after_link (P : User.t -> Prop) `{forall u, Decision (P u)}
    (rows : list User.t) (i : nat) (row row' : User.t) :
  rows !! i = Some row -> ~ P row -> P row' ->
  length (filter P (<[i := row']> rows)) = S (length (filter P rows)).
Proof.
  revert i. induction rows as [|r rows IH]; intros i Hi Hrow Hrow'; [discriminate|].
  destruct i as [|i]; simpl in Hi |- *.
  - injection Hi as ->. rewrite filter_cons_True by exact Hrow'.
    rewrite filter_cons_False by exact Hrow. reflexivity.
  - rewrite !filter_cons. destruct (decide (P r)); simpl; rewrite (IH i Hi Hrow Hrow'); reflexivity.
Qed.

(** A registration with the code of another account, evaluated. *)
Lemma register_referral_links
    (uid : Z) (username first_name last_name : option string) (ref_code : string)
    (rnd : Z) (db : DB) (ai : nat) (referrer : User.t) :
  uid <> 0%Z ->
  str_truthy (Some ref_code) = true ->
  query_first (fun u => bool_decide (User.referral_code u = Some ref_code)) (users db)
  = Some (ai, referrer) ->
  User.id referrer <> uid ->
  User.id referrer <> 0%Z ->
  (forall ri referred,
      user_by_id uid db = Some (ri, referred) ->
      id_truthy (User.referred_by_id referred) = false) ->
  let result :=
    register_referral_api (Some uid) username first_name last_name (Some ref_code) rnd db in
  result.1 = Reply (JObj [("status", success_status)]) 200
  /\ (exists ri referred,
        user_by_id uid result.2 = Some (ri, referred)
        /\ User.referred_by_id referred = Some (User.id referrer))
  /\ refs_count (User.id referrer) result.2 = S (refs_count (User.id referrer) db).
Proof.
  intros Hid Hcode Hreferrer Hother Hkey Hfree result. subst result.
  unfold register_referral_api.
  cbn [id_truthy]. rewrite (bool_decide_false _ Hid), Hcode. cbn [negb orb].
  destruct (user_by_id uid db) as [[ri referred]|] eqn:Hq.
  - rewrite (Hfree ri referred eq_refl), Hreferrer.
    pose proof (query_first_Some _ _ _ _ Hq) as [Hri Hrid]. apply bool_decide_eq_true in Hrid.
    rewrite bool_decide_false by congruence. cbn [negb fst snd].
    split; [reflexivity|]. split.
    + exists ri, (User.set_referred_by_id (Some (User.id referrer)) referred).
      split; [|reflexivity].
      eapply user_by_id_updated; [exact Hq|reflexivity|reflexivity].
    + unfold refs_count. cbn [users set_users].
      eapply count_after_link; [exact Hri| |reflexivity].
      specialize (Hfree ri referred eq_refl). intros Heq. rewrite Heq in Hfree.
      cbn in Hfree. rewrite bool_decide_false in Hfree by exact Hkey. discriminate.
  - cbn [id_truthy User.referred_by_id]. cbv iota.
    rewrite (query_first_app_l _ _ _ _ Hreferrer). cbn [User.id].
    rewrite bool_decide_false by exact Hother. cbn [negb fst snd].
    rewrite !insert_at_end.
    split; [reflexivity|]. split.
    + eexists _, _. split.
      * unfold user_by_id. cbn [users set_users].
        apply query_first_app_new; [exact Hq|]. apply bool_decide_eq_true. reflexivity.
      * reflexivity.
    + unfold refs_count. cbn [users set_users]. rewrite filter_app, length_app.
      rewrite filter_cons_True by reflexivity. simpl. lia.
Qed.

(** X16.  When a registration carries the code of another account, whose
    key is not zero, and the registered account has no referrer yet, the
    registered account is linked to the first account that holds the code, and
    the number of invited friends that the account page of the referrer shows
    grows by one.  When the registered account is yet to be created, the code
    that it gets is supposed free, the column being unique. *)
Theorem referral_counts_for_referrer
    (uid : Z) (username first_name last_name : option string) (ref_code : string)
    (rnd : Z) (db : DB) (ai : nat) (referrer : User.t) :
  uid <> 0%Z ->
  str_truthy (Some ref_code) = true ->
  query_first (fun u => bool_decide (User.referral_code u = Some ref_code)) (users db)
  = Some (ai, referrer) ->
  User.id referrer <> uid ->
  User.id referrer <> 0%Z ->
  (forall ri referred,
      user_by_id uid db = Some (ri, referred) ->
      id_truthy (User.referred_by_id referred) = false) ->
  (user_by_id uid db = None -> code_is_free uid rnd db) ->
  let result :=
    register_referral_api (Some uid) username first_name last_name (Some ref_code) rnd db in
  result.1 = Reply (JObj [("status", success_status)]) 200
  /\ (exists ri referred,
        user_by_id uid result.2 = Some (ri, referred)
        /\ User.referred_by_id referred = Some (User.id referrer))
  /\ refs_count (User.id referrer) result.2 = S (refs_count (User.id referrer) db).
Proof.
  intros Hid Hcode Hreferrer Hother Hkey Hfree _.
  exact (register_referral_links uid username first_name last_name ref_code rnd db ai referrer
           Hid Hcode Hreferrer Hother Hkey Hfree).
Qed.

(** The account 8 registers with the code of the account 7: it is linked to
    it, and the account 7 has one invited friend where it had none. *)
Lemma referral_counts_for_referrer_witness :
  8%Z <> 0%Z
  /\ str_truthy (Some "ref_7_1234") = true
  /\ query_first (fun u => bool_decide (User.referral_code u = Some "ref_7_1234"))
       (users db_two_accounts) = Some (0%nat, alice)
  /\ User.id alice <> 8%Z
  /\ User.id alice <> 0%Z
  /\ refs_count 7 db_two_accounts = 0%nat
  /\ refs_count 7
       (register_referral_api (Some 8%Z) (Some "bob") None None (Some "ref_7_1234") 1000
          db_two_accounts).2
     = 1%nat.
Proof.
  assert (8%Z <> 0%Z) as H1 by discriminate.
  assert (User.id alice <> 8%Z) as H4 by discriminate.
  assert (User.id alice <> 0%Z) as H5 by discriminate.
  split; [exact H1|]. split; [reflexivity|]. split; [reflexivity|].
  split; [exact H4|]. split; [exact H5|]. split; [reflexivity|].
  destruct (referral_counts_for_referrer 8 (Some "bob") None None "ref_7_1234" 1000
              db_two_accounts 0 alice H1 eq_refl eq_refl H4 H5) as (_ & _ & Hcount).
  - intros ri referred Hq. vm_compute in Hq. injection Hq as <- <-. reflexivity.
  - intros Hq. vm_compute in Hq. discriminate.
  - exact Hcount.
Defined.

(** ** The leaderboard *)

Lemma insert_desc_perm {A : Type} (key : A -> Q) (x : A) (l : list A) :
  insert_desc key x l ≡ₚ x :: l.
Proof.
  induction l as [|y l IH]; simpl; [reflexivity|].
  destruct (Qle_bool (key y) (key x)); [reflexivity|].
  rewrite IH. apply Permutation_swap.
Qed.

Lemma sorted_desc_perm {A : Type} (key : A -> Q) (l : list A) : sorted_desc key l ≡ₚ l.
Proof.
  unfold sorted_desc. induction l as [|x l IH]; simpl; [reflexivity|].
  rewrite insert_desc_perm, IH. reflexivity.
Qed.

Lemma insert_desc_sorted {A : Type} (key : A -> Q) (x : A) (l : list A) :
  StronglySorted (fun a b => key b <= key a) l ->
  StronglySorted (fun a b => key b <= key a) (insert_desc key x l).
Proof.
  induction 1 as [|y l Hl IH Hy]; simpl; [repeat constructor|].
  destruct (Qle_bool (key y) (key x)) eqn:E.
  - apply Qle_bool_iff in E. constructor; [constructor; assumption|].
    constructor; [exact E|]. eapply Forall_impl; [exact Hy|]. intros z Hz. cbn in Hz |- *. lra.
  - apply Qle_bool_false in E. constructor; [exact IH|].
    apply Forall_forall. intros z Hz.
    apply (elem_of_Permutation_proper _ _ _ (insert_desc_perm key x l)) in Hz.
    apply elem_of_cons in Hz as [->|Hz]; [lra|].
    eapply Forall_forall in Hy; [exact Hy|exact Hz].
Qed.

Lemma sorted_desc_sorted {A : Type} (key : A -> Q) (l : list A) :
  StronglySorted (fun a b => key b <= key a) (sorted_desc key l).
Proof.
  unfold sorted_desc. induction l as [|x l IH]; simpl; [constructor|].
  apply insert_desc_sorted, IH.
Qed.

(** X17.  The leaderboard lists the accounts that have won most: it holds
    100 accounts, or all of them when there are fewer; it is in descending
    order of winnings; together with the accounts left out it is a
    rearrangement of the table; and no account left out has won more than a
    listed one. *)
Theorem leaderboard_is_the_top_hundred (db : DB) :
  length (leaders db) = (100 `min` length (users db))%nat
  /\ StronglySorted ranks_before (leaders db)
  /\ exists left_out,
       users db ≡ₚ (leaders db ++ left_out)%list
       /\ forall u v, u ∈ leaders db -> v ∈ left_out -> ranks_before u v.
Proof.
  unfold leaders.
  pose proof (sorted_desc_sorted User.total_won_ton (users db)) as Hsorted.
  pose proof (sorted_desc_perm User.total_won_ton (users db)) as Hperm.
  set (sorted := sorted_desc User.total_won_ton (users db)) in *.
  rewrite <- (take_drop 100 sorted) in Hsorted.
  split; [rewrite length_take, (Permutation_length Hperm); reflexivity|].
  split; [exact (StronglySorted_app_1_l _ _ _ Hsorted)|].
  exists (drop 100 sorted). split.
  - rewrite take_drop. symmetry. exact Hperm.
  - intros u v Hu Hv. exact (StronglySorted_app_1_elem_of _ _ _ _ _ Hsorted Hu Hv).
Qed.

Lemma leader_name_nonempty (u : User.t) : leader_name u <> EmptyString.
Proof.
  unfold leader_name.
  destruct (User.first_name u) as [[|c s]|]; try discriminate;
    destruct (User.username u) as [[|c' s']|]; discriminate.
Qed.

(** X18.  Every entry of the reply of the leaderboard is made from the
    account at its position among the leaders: its rank is the position
    counted from 1, its name is not empty, even for an account without first
    name and user name, and its avatar is not empty. *)
Theorem leaderboard_entries_are_ranked (db : DB) :
  exists entries,
    get_leaderboard_api db = Reply (JList entries) 200
    /\ length entries = length (leaders db)
    /\ forall i u,
         leaders db !! i = Some u ->
         entries !! i
         = Some (JObj [("rank", JInt (Z.of_nat i + 1));
                       ("name", JStr (leader_name u));
                       ("avatarChar", JStr (leader_avatar u));
                       ("income", JNum (User.total_won_ton u));
                       ("user_id", JInt (User.id u))])
         /\ leader_name u <> EmptyString
         /\ leader_avatar u <> EmptyString.
Proof.
  eexists. split; [reflexivity|]. split; [apply length_imap|].
  intros i u Hi. split; [|split].
  - rewrite list_lookup_imap, Hi. reflexivity.
  - apply leader_name_nonempty.
  - unfold leader_avatar. destruct (User.first_name u) as [[|c s]|]; discriminate.
Qed.

(** The account 7, with winnings of 4.0, comes first and is shown under its
    user name; the account 12345678, without names, is shown as
    [User_1234]. *)
Example leaderboard_of_two :
  get_leaderboard_api db_leaders
  = Reply (JList [JObj [("rank", JInt 1); ("name", JStr "alice"); ("avatarChar", JStr "U");
                        ("income", JNum 4.0); ("user_id", JInt 7)];
                  JObj [("rank", JInt 2); ("name", JStr "User_1234"); ("avatarChar", JStr "U");
                        ("income", JNum 1.5); ("user_id", JInt 12345678)]]) 200.
Proof. vm_compute. reflexivity. Qed.

(** ** Start-up population of the gift table *)

Lemma setup_round_eq (rows : list NFT.t) (added : list (string * string * Q))
    (name : string) (price : Q) :
  setup_round (rows, added) (name, price)
  = match query_first (fun n => bool_decide (NFT.name n = name)) rows with
    | None => (rows, (added ++ [(name, generate_image_filename_from_name name, price)])%list)
    | Some (i, nft) =>
        if negb (Qeq_bool (NFT.floor_price nft) price)
           || negb (bool_decide (NFT.image_filename nft
                                 = Some (generate_image_filename_from_name name)))
        then (<[i := NFT.mk (NFT.id nft) (NFT.name nft)
                       (Some (generate_image_filename_from_name name)) price]> rows, added)
        else (rows, added)
    end.
Proof. reflexivity. Qed.

Lemma populate_nfts_eq (items : list (string * Q)) (nfts_next_id : Z) (db : DB) :
  populate_nfts items nfts_next_id db
  = set_nfts (committed_nfts nfts_next_id (foldl setup_round (nfts db, []) items)) db.
Proof.
  unfold populate_nfts, committed_nfts.
  destruct (foldl setup_round (nfts db, []) items) as [rows added]. reflexivity.
Qed.

Lemma committed_nfts_added (nfts_next_id : Z) (rows : list NFT.t)
    (added : list (string * string * Q)) (name img : string) (price : Q) :
  committed_nfts nfts_next_id (rows, (added ++ [(name, img, price)])%list)
  = (committed_nfts nfts_next_id (rows, added)
     ++ [NFT.mk (nfts_next_id + Z.of_nat (length added))%Z name (Some img) price])%list.
Proof.
  unfold committed_nfts. cbn [fst snd]. rewrite imap_app, app_assoc. cbn [imap].
  rewrite Nat.add_0_r. reflexivity.
Qed.

Lemma query_first_insert_other {A : Type} (f : A -> bool) (rows : list A) (i : nat)
    (row row' : A) :
  rows !! i = Some row -> f row = false -> f row' = false ->
  query_first f (<[i := row']> rows) = query_first f rows.
Proof.
  unfold query_first. revert i. induction rows as [|r rows IH]; intros i Hi Hrow Hrow';
    [reflexivity|].
  destruct i as [|i]; simpl in Hi |- *.
  - injection Hi as ->. cbn. rewrite !decide_False by (rewrite ?Hrow, ?Hrow'; discriminate).
    reflexivity.
  - cbn. destruct (decide (f r = true)); [reflexivity|].
    rewrite (IH i Hi Hrow Hrow'). reflexivity.
Qed.

(** A round for another name keeps what is installed. *)
Lemma setup_round_keeps (n : Z) (state : list NFT.t * list (string * string * Q))
    (entry other : string * Q) :
  other.1 <> entry.1 ->
  installed other (committed_nfts n state) ->
  installed other (committed_nfts n (setup_round state entry)).
Proof.
  destruct state as [rows added], entry as [name price]. cbn [fst]. intros Hne Hinst.
  rewrite setup_round_eq.
  destruct (query_first _ rows) as [[i nft]|] eqn:Hq.
  - destruct (_ || _); [|exact Hinst].
    destruct Hinst as (j & row & Hfind & Hrest). exists j, row. split; [|exact Hrest].
    rewrite <- Hfind. unfold committed_nfts. cbn [fst snd].
    apply query_first_Some in Hq as [Hi Hname]. apply bool_decide_eq_true in Hname.
    rewrite <- insert_app_l by (eapply lookup_lt_Some; exact Hi).
    eapply query_first_insert_other.
    + apply lookup_app_l_Some. exact Hi.
    + apply bool_decide_eq_false. congruence.
    + apply bool_decide_eq_false. cbn. congruence.
  - destruct Hinst as (j & row & Hfind & Hrest). exists j, row. split; [|exact Hrest].
    rewrite committed_nfts_added. apply query_first_app_l. exact Hfind.
Qed.

(** The names of the loaded rows never change. *)
Lemma setup_round_names (state : list NFT.t * list (string * string * Q)) (entry : string * Q) :
  NFT.name <$> (setup_round state entry).1 = NFT.name <$> state.1.
Proof.
  destruct state as [rows added], entry as [name price]. rewrite setup_round_eq.
  destruct (query_first _ rows) as [[i nft]|] eqn:Hq; [|reflexivity].
  destruct (_ || _); [|reflexivity]. cbn [fst].
  apply query_first_Some in Hq as [Hi _].
  rewrite list_fmap_insert. cbn [NFT.name]. apply list_insert_id.
  rewrite list_lookup_fmap, Hi. reflexivity.
Qed.

(** A round installs its entry, when no row added before has its name. *)
Lemma setup_round_installs (n : Z) (rows : list NFT.t) (added : list (string * string * Q))
    (entry : string * Q) :
  Forall (fun a => a.1.1 <> entry.1) added ->
  installed entry (committed_nfts n (setup_round (rows, added) entry)).
Proof.
  destruct entry as [name price]. cbn [fst]. intros Hadded. rewrite setup_round_eq.
  destruct (query_first _ rows) as [[i nft]|] eqn:Hq.
  - pose proof (query_first_Some _ _ _ _ Hq) as [Hi Hname].
    destruct (_ || _) eqn:Hchanged.
    + eexists i, _. split.
      { unfold committed_nfts. cbn [fst snd]. apply query_first_app_l.
        apply query_first_insert with (row := nft); [exact Hq|exact Hname]. }
      split; reflexivity.
    + apply orb_false_iff in Hchanged as [Hprice Himg].
      apply negb_false_iff in Hprice, Himg.
      apply Qeq_bool_iff in Hprice. apply bool_decide_eq_true in Himg.
      exists i, nft. split; [|split; assumption].
      unfold committed_nfts. cbn [fst snd]. apply query_first_app_l. exact Hq.
  - rewrite committed_nfts_added.
    eexists _, _. split.
    { unfold query_first in Hq |- *. apply list_find_None in Hq.
      apply list_find_Some. split; [|split].
      + rewrite lookup_app_r by reflexivity. rewrite Nat.sub_diag. reflexivity.
      + apply bool_decide_eq_true. reflexivity.
      + intros j y Hj Hlt. unfold committed_nfts in Hj, Hlt. cbn [fst snd] in Hj, Hlt.
        rewrite lookup_app_l in Hj by exact Hlt.
        apply lookup_app_Some in Hj as [Hj|[_ Hj]].
        * eapply Forall_lookup_1 in Hq; [exact Hq|exact Hj].
        * rewrite list_lookup_imap in Hj.
          destruct (added !! (j - length rows)%nat) as [[[name' img'] price']|] eqn:Ha;
            [|discriminate].
          injection Hj as <-. cbn.
          eapply Forall_lookup_1 in Hadded; [|exact Ha]. cbn in Hadded.
          intros Heq. apply bool_decide_eq_true in Heq. contradiction. }
    split; reflexivity.
Qed.

(** The names of the rows added by a round are names of entries. *)
Lemma setup_round_added (state : list NFT.t * list (string * string * Q)) (entry : string * Q)
    (P : string -> Prop) :
  P entry.1 ->
  Forall (fun a => P a.1.1) state.2 ->
  Forall (fun a => P a.1.1) (setup_round state entry).2.
Proof.
  destruct state as [rows added], entry as [name price]. cbn [fst snd]. intros Hname Hadded.
  rewrite setup_round_eq. destruct (query_first _ rows) as [[i nft]|].
  - destruct (_ || _); exact Hadded.
  - cbn [snd]. apply Forall_app. split; [exact Hadded|]. constructor; [exact Hname|constructor].
Qed.

Lemma populate_installs (n : Z) (items : list (string * Q)) :
  NoDup items.*1 ->
  forall state,
    Forall (fun a => a.1.1 ∉ items.*1) state.2 ->
    (forall entry, entry ∈ items ->
                   installed entry (committed_nfts n (foldl setup_round state items)))
    /\ (forall other, other.1 ∉ items.*1 ->
                      installed other (committed_nfts n state) ->
                      installed other (committed_nfts n (foldl setup_round state items))).
Proof.
  induction items as [|entry items IH]; intros Hnodup state Hadded.
  - split; [intros entry Hin; inversion Hin|auto].
  - rewrite fmap_cons in Hnodup. apply NoDup_cons in Hnodup as [Hfresh Hnodup].
    cbn [foldl].
    assert (Forall (fun a => a.1.1 ∉ items.*1) (setup_round state entry).2) as Hadded'.
    { apply (setup_round_added state entry (fun name => name ∉ items.*1)); [exact Hfresh|].
      eapply Forall_impl; [exact Hadded|]. intros a Ha Hin. apply Ha.
      rewrite fmap_cons. apply elem_of_cons. right. exact Hin. }
    destruct (IH Hnodup (setup_round state entry) Hadded') as [IH1 IH2].
    split.
    + intros e [->|Hin]%elem_of_cons; [|exact (IH1 e Hin)].
      apply IH2; [exact Hfresh|]. destruct state as [rows added].
      apply setup_round_installs.
      eapply Forall_impl; [exact Hadded|]. intros a Ha Heq. apply Ha.
      rewrite fmap_cons. apply elem_of_cons. left. exact Heq.
    + intros other Hother Hinst. rewrite fmap_cons in Hother.
      apply not_elem_of_cons in Hother as [Hne Hother].
      apply IH2; [exact Hother|]. apply setup_round_keeps; assumption.
Qed.

Lemma catalog_names_distinct : NoDup UPDATED_FLOOR_PRICES_items.*1.
Proof. apply (bool_decide_unpack _). vm_compute. exact I. Qed.

Lemma catalog_items (name : string) (price : Q) :
  UPDATED_FLOOR_PRICES !! name = Some price <-> (name, price) ∈ UPDATED_FLOOR_PRICES_items.
Proof.
  change UPDATED_FLOOR_PRICES with (list_to_map UPDATED_FLOOR_PRICES_items : gmap string Q).
  symmetry. apply elem_of_list_to_map. exact catalog_names_distinct.
Qed.

(** X19.  After the start-up population, every gift of the price catalog
    is in the gift table, found by its name with the price of the catalog and
    the image reference made from the name. *)
Theorem setup_installs_the_catalog (nfts_next_id : Z) (db : DB) (name : string) (price : Q) :
  UPDATED_FLOOR_PRICES !! name = Some price ->
  exists i nft,
    nft_by_name name (initial_setup_and_logging nfts_next_id db) = Some (i, nft)
    /\ NFT.floor_price nft == price
    /\ NFT.image_filename nft = Some (generate_image_filename_from_name name).
Proof.
  intros Hin%catalog_items. unfold initial_setup_and_logging. rewrite populate_nfts_eq.
  destruct (populate_installs nfts_next_id _ catalog_names_distinct (nfts db, []))
    as [Hall _]; [constructor|].
  exact (Hall (name, price) Hin).
Qed.

(** In an empty database the Lol Pop gets the key that the database gives
    to the 24th new row, its price 1.1 and its image. *)
Lemma setup_installs_the_catalog_witness :
  UPDATED_FLOOR_PRICES !! "Lol Pop" = Some 1.1
  /\ exists i nft,
       nft_by_name "Lol Pop" (initial_setup_and_logging 1 (mkDB [] [] [] [] [] 1)) = Some (i, nft)
       /\ NFT.floor_price nft == 1.1
       /\ NFT.image_filename nft
          = Some "https://cdn.changes.tg/gifts/originals/5170594532177215681/Original.png".
Proof.
  assert (UPDATED_FLOOR_PRICES !! "Lol Pop" = Some 1.1) as Hin by (vm_compute; reflexivity).
  split; [exact Hin|].
  destruct (setup_installs_the_catalog 1 (mkDB [] [] [] [] [] 1) "Lol Pop" 1.1 Hin)
    as (i & nft & Hq & Hprice & Himg).
  exists i, nft. split; [exact Hq|]. split; [exact Hprice|]. rewrite Himg. reflexivity.
Defined.

Lemma populate_fixed (items : list (string * Q)) (rows : list NFT.t) :
  (forall entry, entry ∈ items -> installed entry rows) ->
  foldl setup_round (rows, []) items = (rows, []).
Proof.
  induction items as [|[name price] items IH]; intros Hall; [reflexivity|].
  cbn [foldl]. rewrite setup_round_eq.
  destruct (Hall (name, price)) as (i & nft & Hq & Hprice & Himg); [left|].
  cbn [fst snd] in Hq, Hprice, Himg. rewrite Hq.
  apply Qeq_bool_iff in Hprice. rewrite Hprice, (bool_decide_true _ Himg). cbn [negb orb].
  apply IH. intros entry Hin. apply Hall. right. exact Hin.
Qed.

Lemma set_nfts_same (db : DB) : set_nfts (nfts db) db = db.
Proof. destruct db. reflexivity. Qed.

(** X20.  The start-up population is idempotent: run on the database that
    a first run has left, it adds no row and changes none, whatever key the
    database would give next. *)
Theorem setup_is_idempotent (nfts_next_id nfts_next_id' : Z) (db : DB) :
  initial_setup_and_logging nfts_next_id' (initial_setup_and_logging nfts_next_id db)
  = initial_setup_and_logging nfts_next_id db.
Proof.
  unfold initial_setup_and_logging.
  rewrite (populate_nfts_eq _ nfts_next_id db).
  set (table := committed_nfts nfts_next_id _).
  rewrite populate_nfts_eq. cbn [nfts set_nfts].
  rewrite populate_fixed.
  - unfold committed_nfts. cbn [fst snd imap]. rewrite app_nil_r.
    destruct db. reflexivity.
  - intros entry Hin. subst table.
    destruct (populate_installs nfts_next_id _ catalog_names_distinct (nfts db, []))
      as [Hall _]; [constructor|].
    exact (Hall entry Hin).
Qed.

Lemma setup_round_rows (state : list NFT.t * list (string * string * Q)) (entry : string * Q)
    (i : nat) (nft : NFT.t) :
  state.1 !! i = Some nft ->
  exists nft',
    (setup_round state entry).1 !! i = Some nft'
    /\ NFT.id nft' = NFT.id nft
    /\ NFT.name nft' = NFT.name nft
    /\ (NFT.name nft <> entry.1 -> nft' = nft).
Proof.
  destruct state as [rows added], entry as [name price]. cbn [fst]. intros Hi.
  rewrite setup_round_eq.
  destruct (query_first _ rows) as [[j row]|] eqn:Hq; [|exists nft; auto].
  destruct (_ || _); [|exists nft; auto]. cbn [fst].
  apply query_first_Some in Hq as [Hj Hname]. apply bool_decide_eq_true in Hname.
  destruct (decide (j = i)) as [->|Hne].
  - rewrite list_lookup_insert_eq by (eapply lookup_lt_Some; exact Hi).
    assert (row = nft) as -> by congruence.
    eexists. split; [reflexivity|]. cbn. repeat split; auto. intros Hneq. contradiction.
  - rewrite list_lookup_insert_ne by exact Hne. exists nft. auto.
Qed.

Lemma populate_rows (items : list (string * Q)) (state : list NFT.t * list (string * string * Q))
    (i : nat) (nft : NFT.t) :
  state.1 !! i = Some nft ->
  exists nft',
    (foldl setup_round state items).1 !! i = Some nft'
    /\ NFT.id nft' = NFT.id nft
    /\ NFT.name nft' = NFT.name nft
    /\ (NFT.name nft ∉ items.*1 -> nft' = nft).
Proof.
  revert state nft. induction items as [|entry items IH]; intros state nft Hi.
  - exists nft. auto.
  - cbn [foldl].
    destruct (setup_round_rows state entry i nft Hi) as (nft1 & Hi1 & Hid1 & Hname1 & Hsame1).
    destruct (IH _ _ Hi1) as (nft' & Hi' & Hid' & Hname' & Hsame').
    exists nft'. split; [exact Hi'|]. split; [congruence|]. split; [congruence|].
    rewrite fmap_cons. intros [Hne Hnot]%not_elem_of_cons.
    rewrite Hsame' by (rewrite Hname1; exact Hnot). apply Hsame1. exact Hne.
Qed.

(** X21.  The start-up population removes no row of the gift table and
    moves none: every row keeps its position, its key and its name, and a row
    for a gift that the price catalog does not list is left as it is. *)
Theorem setup_keeps_the_rows (nfts_next_id : Z) (db : DB) (i : nat) (nft : NFT.t) :
  nfts db !! i = Some nft ->
  exists nft',
    nfts (initial_setup_and_logging nfts_next_id db) !! i = Some nft'
    /\ NFT.id nft' = NFT.id nft
    /\ NFT.name nft' = NFT.name nft
    /\ (UPDATED_FLOOR_PRICES !! NFT.name nft = None -> nft' = nft).
Proof.
  intros Hi. unfold initial_setup_and_logging. rewrite populate_nfts_eq.
  destruct (populate_rows UPDATED_FLOOR_PRICES_items (nfts db, []) i nft Hi)
    as (nft' & Hi' & Hid & Hname & Hsame).
  exists nft'. cbn [nfts set_nfts]. unfold committed_nfts.
  split; [apply lookup_app_l_Some; exact Hi'|]. split; [exact Hid|]. split; [exact Hname|].
  intros Hnone. apply Hsame. intros Hin.
  apply list_elem_of_fmap in Hin as ([name price] & Hn & Hin). cbn in Hn. subst name.
  apply catalog_items in Hin. congruence.
Qed.

(** The outdated Lol Pop keeps its key and gets the price 1.1; the gift
    that the catalog does not know is untouched. *)
Lemma setup_keeps_the_rows_witness :
  nfts db_old_gifts !! 1%nat = Some (NFT.mk 2 "Retired Gift" (Some "retired.png") 9.0)
  /\ UPDATED_FLOOR_PRICES !! "Retired Gift" = None
  /\ nfts (initial_setup_and_logging 3 db_old_gifts) !! 1%nat
     = Some (NFT.mk 2 "Retired Gift" (Some "retired.png") 9.0).
Proof.
  assert (UPDATED_FLOOR_PRICES !! "Retired Gift" = None) as Hnone by (vm_compute; reflexivity).
  split; [reflexivity|]. split; [exact Hnone|].
  destruct (setup_keeps_the_rows 3 db_old_gifts 1 _ eq_refl) as (nft' & Hi & _ & _ & Hsame).
  rewrite Hi, (Hsame Hnone). reflexivity.
Defined.

(** ** The bot: the start link of a referral *)

Lemma str_split_whole (sep : ascii) (s : string) :
  str_all (fun c => negb (Ascii.eqb c sep)) s = true -> str_split sep s = [s].
Proof.
  induction s as [|c s IH]; [reflexivity|]. simpl.
  intros [Hc Hs]%andb_true_iff. apply negb_true_iff in Hc. rewrite Hc, (IH Hs). reflexivity.
Qed.

Lemma str_split_first (sep : ascii) (a b : string) :
  str_all (fun c => negb (Ascii.eqb c sep)) a = true ->
  str_split sep (a ++ String sep b) = a :: str_split sep b.
Proof.
  induction a as [|c a IH].
  - intros _. change (EmptyString ++ String sep b) with (String sep b). simpl.
    rewrite Ascii.eqb_refl. reflexivity.
  - rewrite str_app_cons. simpl. intros [Hc Ha]%andb_true_iff. apply negb_true_iff in Hc.
    rewrite Hc, (IH Ha). reflexivity.
Qed.

Lemma pretty_N_go_all (P : ascii -> bool) (x : N) (s : string) :
  (forall d, (d < 10)%N -> P (pretty_N_char d) = true) ->
  str_all P s = true -> str_all P (pretty_N_go x s) = true.
Proof.
  intros Hdigit. revert s. induction (N.lt_wf_0 x) as [x _ IH]. intros s Hs.
  destruct (decide (x = 0%N)) as [->|Hx]; [rewrite pretty_N_go_0; exact Hs|].
  rewrite pretty_N_go_step by lia. apply IH.
  - apply N.div_lt; lia.
  - simpl. rewrite Hs, Hdigit; [reflexivity|]. apply N.mod_lt. discriminate.
Qed.

Lemma digits_not_blank (d : N) : (d < 10)%N -> not_blank (pretty_N_char d) = true.
Proof.
  intros Hd.
  assert (forallb (fun k => not_blank (pretty_N_char (N.of_nat k))) (seq 0 10) = true) as Hall
    by (vm_compute; reflexivity).
  rewrite forallb_forall in Hall. specialize (Hall (N.to_nat d)).
  rewrite N2Nat.id in Hall. apply Hall, in_seq. lia.
Qed.

Lemma pretty_Z_not_blank (x : Z) : str_all not_blank (pretty x) = true.
Proof.
  assert (forall p, str_all not_blank (pretty (N.pos p)) = true) as Hpos.
  { intros p. unfold pretty, pretty_N. rewrite decide_False by discriminate.
    apply pretty_N_go_all; [exact digits_not_blank|reflexivity]. }
  destruct x as [|p|p]; [reflexivity|apply Hpos|].
  change (pretty (Z.neg p)) with ("-" +:+ pretty (N.pos p)).
  rewrite str_all_app, Hpos. reflexivity.
Qed.

Lemma issued_code_shape (uid rnd : Z) :
  str_all not_blank (issued_code uid rnd) = true
  /\ exists rest, issued_code uid rnd = "ref_" +:+ rest.
Proof.
  unfold issued_code. split; [|eexists; reflexivity].
  rewrite !str_all_app, !pretty_Z_not_blank. reflexivity.
Qed.

Lemma referral_code_found_after_command (command code : string) :
  str_all not_blank command = true ->
  str_all not_blank code = true ->
  String.prefix "ref_" code = true ->
  referral_code_found (command ++ String " " code) = Some code.
Proof.
  intros Hcommand Hcode Hprefix. unfold referral_code_found.
  rewrite (str_split_first " " command code Hcommand), (str_split_whole " " code Hcode).
  rewrite Hprefix. reflexivity.
Qed.

Lemma send_welcome_issued_code (chat_id : Z) (username first_name last_name : option string)
    (uid rnd : Z) :
  send_welcome chat_id username first_name last_name ("/start " +:+ issued_code uid rnd)
  = Some {| rp_user_id := chat_id; rp_username := username; rp_first_name := first_name;
            rp_last_name := last_name; rp_referral_code := issued_code uid rnd |}.
Proof.
  destruct (issued_code_shape uid rnd) as [Hblank [rest Hrest]].
  unfold send_welcome.
  change ("/start " +:+ issued_code uid rnd) with ("/start" ++ String " " (issued_code uid rnd)).
  rewrite referral_code_found_after_command; [|reflexivity|exact Hblank|].
  - rewrite Hrest. reflexivity.
  - rewrite Hrest. change ("ref_" +:+ rest) with ("ref_" ++ rest).
    apply str_prefix_app. reflexivity.
Qed.

(** X22.  The start link round trip: when the bot receives [/start]
    followed by a code that the backend has given to an account,
    [ref_<id>_<number>], it posts a registration that carries exactly that
    code, the chat as the registered account and the names of the sender; and
    whatever the message, a registration is posted only with a second word that
    starts with [ref_]. *)
Theorem start_link_carries_the_code
    (chat_id : Z) (username first_name last_name : option string) (text : string) :
  (forall uid rnd,
      send_welcome chat_id username first_name last_name ("/start " +:+ issued_code uid rnd)
      = Some {| rp_user_id := chat_id; rp_username := username; rp_first_name := first_name;
                rp_last_name := last_name; rp_referral_code := issued_code uid rnd |})
  /\ (forall payload,
        send_welcome chat_id username first_name last_name text = Some payload ->
        str_split " " text !! 1%nat = Some (rp_referral_code payload)
        /\ String.prefix "ref_" (rp_referral_code payload) = true
        /\ rp_user_id payload = chat_id).
Proof.
  split; [intros uid rnd; apply send_welcome_issued_code|].
  intros payload. unfold send_welcome, referral_code_found.
  destruct (str_split " " text) as [|first [|part parts]]; try discriminate.
  destruct (String.prefix "ref_" part) eqn:Hprefix; [|discriminate].
  destruct part as [|c part]; [discriminate|].
  intros [= <-]. cbn. auto.
Qed.

(** X23.  From the start link to the referral: a chat without a referrer
    that sends [/start] with the code given to the account of a referrer makes
    the bot post a registration which, served by the registration handler,
    links the account of the chat, created if need be, to the first account
    that holds the code.  When the account of the chat is yet to be created, the
    code that it gets is supposed free, the column being unique. *)
Theorem start_link_registers_the_referral
    (chat_id : Z) (username first_name last_name : option string)
    (uid rnd rnd' : Z) (db : DB) (ai : nat) (referrer : User.t) :
  chat_id <> 0%Z ->
  query_first (fun u => bool_decide (User.referral_code u = Some (issued_code uid rnd)))
    (users db) = Some (ai, referrer) ->
  User.id referrer <> chat_id ->
  User.id referrer <> 0%Z ->
  (forall ri referred,
      user_by_id chat_id db = Some (ri, referred) ->
      id_truthy (User.referred_by_id referred) = false) ->
  (user_by_id chat_id db = None -> code_is_free chat_id rnd' db) ->
  exists payload,
    send_welcome chat_id username first_name last_name ("/start " +:+ issued_code uid rnd)
    = Some payload
    /\ (register_referral_api (Some (rp_user_id payload)) (rp_username payload)
          (rp_first_name payload) (rp_last_name payload) (Some (rp_referral_code payload))
          rnd' db).1
       = Reply (JObj [("status", success_status)]) 200
    /\ exists ri referred,
         user_by_id chat_id
           (register_referral_api (Some (rp_user_id payload)) (rp_username payload)
              (rp_first_name payload) (rp_last_name payload) (Some (rp_referral_code payload))
              rnd' db).2
         = Some (ri, referred)
         /\ User.referred_by_id referred = Some (User.id referrer).
Proof.
  intros Hchat Hreferrer Hother Hkey Hfree _.
  eexists. split; [apply send_welcome_issued_code|]. cbn [rp_user_id rp_username rp_first_name
    rp_last_name rp_referral_code].
  assert (str_truthy (Some (issued_code uid rnd)) = true) as Hcode.
  { destruct (issued_code_shape uid rnd) as [_ [rest ->]]. reflexivity. }
  destruct (register_referral_links chat_id username first_name last_name (issued_code uid rnd)
              rnd' db ai referrer Hchat Hcode Hreferrer Hother Hkey Hfree)
    as (Hreply & Hlinked & _).
  split; [exact Hreply|exact Hlinked].
Qed.

(** The chat 8 opens the bot with the code [ref_7_1234] of the account 7. *)
Lemma start_link_registers_the_referral_witness :
  8%Z <> 0%Z
  /\ query_first (fun u => bool_decide (User.referral_code u = Some (issued_code 7 1234)))
       (users db_two_accounts) = Some (0%nat, alice)
  /\ User.id alice <> 8%Z
  /\ User.id alice <> 0%Z
  /\ exists payload,
       send_welcome 8 (Some "bob") None None "/start ref_7_1234" = Some payload
       /\ exists ri referred,
            user_by_id 8
              (register_referral_api (Some (rp_user_id payload)) (rp_username payload)
                 (rp_first_name payload) (rp_last_name payload)
                 (Some (rp_referral_code payload)) 1000 db_two_accounts).2
            = Some (ri, referred)
            /\ User.referred_by_id referred = Some 7%Z.
Proof.
  assert (8%Z <> 0%Z) as H1 by discriminate.
  assert (query_first (fun u => bool_decide (User.referral_code u = Some (issued_code 7 1234)))
            (users db_two_accounts) = Some (0%nat, alice)) as H2 by (vm_compute; reflexivity).
  assert (User.id alice <> 8%Z) as H3 by discriminate.
  assert (User.id alice <> 0%Z) as H4 by discriminate.
  split; [exact H1|]. split; [exact H2|]. split; [exact H3|]. split; [exact H4|].
  destruct (start_link_registers_the_referral 8 (Some "bob") None None 7 1234 1000
              db_two_accounts 0 alice H1 H2 H3 H4) as (payload & Hsent & _ & Hlinked).
  - intros ri referred Hq. vm_compute in Hq. injection Hq as <- <-. reflexivity.
  - intros Hq. vm_compute in Hq. discriminate.
  - exists payload. split; [exact Hsent|exact Hlinked].
Defined.

(** ** The calibrated probabilities are probabilities *)

Lemma py_sum_app (l1 l2 : list Q) : py_sum (l1 ++ l2)%list == py_sum l1 + py_sum l2.
Proof.
  induction l1 as [|x l1 IH]; [change (py_sum []) with 0; cbn [app]; lra|].
  cbn [app]. rewrite !py_sum_cons, IH. lra.
Qed.

Lemma py_sum_scale {A : Type} (f : A -> Q) (c : Q) (l : list A) :
  py_sum ((fun p => f p * c) <$> l) == py_sum (f <$> l) * c.
Proof.
  induction l as [|p l IH]; [reflexivity|].
  rewrite !fmap_cons, !py_sum_cons, IH. lra.
Qed.

Lemma py_sum_elem_le (l : list Q) (x : Q) :
  Forall (fun y => 0 <= y) l -> x ∈ l -> x <= py_sum l.
Proof.
  induction 1 as [|y l Hy Hall IH]; intros Hin; [inversion Hin|].
  rewrite py_sum_cons. pose proof (py_sum_nonneg l Hall).
  apply elem_of_cons in Hin as [->|Hin]; [lra|]. specialize (IH Hin). lra.
Qed.

Lemma py_sum_all_zero (l : list Q) :
  Forall (fun y => 0 <= y) l -> py_sum l <= 0 -> Forall (fun y => y == 0) l.
Proof.
  induction 1 as [|y l Hy Hall IH]; intros Hsum; [constructor|].
  rewrite py_sum_cons in Hsum. pose proof (py_sum_nonneg l Hall).
  constructor; [lra|]. apply IH. lra.
Qed.

(** The entry at one position is treated apart. *)
Lemma imap_at {A B : Type} (fi : nat) (at_fi other : A -> B) (l1 l2 : list A) (p : A) :
  length l1 = fi ->
  imap (fun i q => if bool_decide (i = fi) then at_fi q else other q) (l1 ++ p :: l2)%list
  = ((other <$> l1) ++ at_fi p :: (other <$> l2))%list.
Proof.
  intros Hlen. rewrite imap_app. f_equal.
  - rewrite <- imap_const. apply imap_ext. intros i q Hi.
    rewrite bool_decide_false; [reflexivity|]. apply lookup_lt_Some in Hi. lia.
  - cbn [imap]. rewrite Nat.add_0_r, bool_decide_true by exact Hlen. f_equal.
    rewrite <- imap_const. apply imap_ext. intros i q Hi. unfold compose.
    rewrite bool_decide_false; [reflexivity|]. lia.
Qed.

Lemma imap_not_at {A B : Type} (fi : nat) (at_fi other : A -> B) (l1 l2 : list A) (p : A) :
  length l1 = fi ->
  imap (fun i q => if bool_decide (i <> fi) then other q else at_fi q) (l1 ++ p :: l2)%list
  = ((other <$> l1) ++ at_fi p :: (other <$> l2))%list.
Proof.
  intros Hlen. rewrite <- (imap_at fi at_fi other l1 l2 p Hlen).
  apply imap_ext. intros i q _.
  destruct (decide (i = fi)) as [->|Hne].
  - rewrite bool_decide_false by tauto. rewrite bool_decide_true by reflexivity. reflexivity.
  - rewrite bool_decide_true by exact Hne. rewrite bool_decide_false by exact Hne. reflexivity.
Qed.

Lemma indexed_sum_keep {A : Type} (f : A -> Q) (fi k : nat) (l : list A) :
  (fi < k \/ k + length l <= fi)%nat ->
  snd <$> filter (fun ix : nat * Q => ix.1 <> fi) (imap (fun i p => ((k + i)%nat, f p)) l)
  = f <$> l.
Proof.
  revert k. induction l as [|p l IH]; intros k Hk; [reflexivity|].
  cbn [imap]. rewrite filter_cons_True by (cbn [fst length] in *; lia).
  rewrite !fmap_cons. cbn [snd]. f_equal.
  rewrite <- (IH (S k)) by (cbn [length] in Hk; lia).
  f_equal. f_equal. apply imap_ext. intros i q _. unfold compose. f_equal. lia.
Qed.

Lemma sum_except_at (f : Prize.t -> Q) (fi : nat) (l1 l2 : list Prize.t) (p : Prize.t) :
  length l1 = fi ->
  sum_except fi f (l1 ++ p :: l2)%list == py_sum (f <$> l1) + py_sum (f <$> l2).
Proof.
  intros Hlen. unfold sum_except.
  rewrite imap_app, filter_app, fmap_app. cbn [imap].
  rewrite filter_cons_False by (cbn [fst]; lia).
  rewrite py_sum_app.
  pose proof (indexed_sum_keep f fi 0 l1 ltac:(lia)) as H1. cbn in H1. rewrite H1.
  pose proof (indexed_sum_keep f fi (S (length l1)) l2 ltac:(lia)) as H2.
  match goal with |- context [imap ?g l2] =>
    assert (imap g l2 = imap (fun i p0 => ((S (length l1) + i)%nat, f p0)) l2) as ->
  end.
  { apply imap_ext. intros i q _. unfold compose. f_equal. lia. }
  rewrite H2. reflexivity.
Qed.

Lemma py_min_by_elem {A : Type} (key : A -> Q) (l : list A) (x : A) :
  py_min_by key l = Some x -> x ∈ l.
Proof.
  destruct l as [|y l]; [discriminate|]. cbn [py_min_by]. intros [= <-].
  assert (forall best, fold_left (fun best z => if Qlt_bool (key z) (key best) then z else best)
                         l best ∈ best :: l) as Hfold.
  { induction l as [|z l IH]; intros best; [left|]. cbn [fold_left].
    specialize (IH (if Qlt_bool (key z) (key best) then z else best)).
    apply elem_of_cons in IH as [->|IH].
    - destruct (Qlt_bool _ _); [right; left|left].
    - right. right. exact IH. }
  apply Hfold.
Qed.

Lemma filler_of_at (l : list Prize.t) (fi : nat) (filler : Prize.t) :
  filler_of l = Some (fi, filler) -> l !! fi = Some filler.
Proof.
  unfold filler_of. intros H%py_min_by_elem.
  apply list_elem_of_filter in H as [_ H].
  apply list_elem_of_lookup in H as [i H]. rewrite list_lookup_imap in H.
  destruct (l !! i) eqn:E; [|discriminate]. cbn in H. injection H as <- <-. exact E.
Qed.

Lemma build_prizes_probabilities (case_data : Case.t p_info_t) (floors : gmap string Q) :
  Forall (fun p => 0 <= pi_probability p) (Case.prizes case_data) ->
  Forall (fun p => 0 <= Prize.probability p) (build_prizes case_data floors).
Proof.
  intros H. unfold build_prizes. apply Forall_fmap.
  eapply Forall_impl; [exact H|]. intros p Hp. exact Hp.
Qed.

Lemma final_correction_of_unit (l : list Prize.t) :
  total_probability l == 1 -> final_correction l = l.
Proof.
  intros Hsum. destruct l as [|p0 rest]; [reflexivity|].
  apply (proj2 (final_correction_total p0 rest)).
  apply Qabs_Qle_condition. pose proof float_1e_7_below.
  assert (0 < float_1e_7) by (vm_compute; reflexivity). split; lra.
Qed.

Lemma set_probability_fmap (g : Prize.t -> Q) (l : list Prize.t) :
  Prize.probability <$> ((fun p => Prize.set_probability (g p) p) <$> l) = g <$> l.
Proof. rewrite <- list_fmap_compose. apply list_fmap_ext. intros i p _. reflexivity. Qed.

Lemma fallback_valid (case_data : Case.t p_info_t) (floors : gmap string Q) :
  Forall (fun p => 0 <= pi_probability p) (Case.prizes case_data) ->
  Forall valid_probability
    (calculate_rtp_probabilities_proportional_fallback case_data floors).
Proof.
  intros Hraw%(build_prizes_probabilities case_data floors).
  unfold calculate_rtp_probabilities_proportional_fallback. cbv zeta.
  set (prizes := build_prizes case_data floors) in *.
  destruct (Qle_bool _ 0); [constructor|].
  set (scale := _ / _).
  rewrite set_probability_fmap.
  set (total := py_sum _).
  destruct (Qle_bool total 0) eqn:Htotal; [constructor|].
  apply Qle_bool_false in Htotal.
  assert (total == py_sum (Prize.probability <$> prizes) * scale) as Htot
    by (subst total; apply py_sum_scale).
  pose proof (py_sum_nonneg _ (proj2 (Forall_fmap _ _ _) Hraw)) as Hsum.
  assert (0 < scale) as Hscale.
  { destruct (Qlt_le_dec 0 scale) as [H|H]; [exact H|]. exfalso.
    assert (0 <= py_sum (Prize.probability <$> prizes) * - scale)
      by (apply Qmult_le_0_compat; lra).
    lra. }
  rewrite <- list_fmap_compose.
  set (table := _ <$> prizes).
  assert (Prize.probability <$> table
          = (fun p => Prize.probability p * scale * / total) <$> prizes) as Hprobs.
  { subst table. rewrite <- list_fmap_compose. apply list_fmap_ext. intros i p _. reflexivity. }
  assert (total_probability table == 1) as Hunit.
  { unfold total_probability. rewrite Hprobs.
    rewrite (py_sum_scale (fun p => Prize.probability p * scale) (/ total) prizes).
    rewrite (py_sum_scale Prize.probability scale prizes), <- Htot.
    field. lra. }
  rewrite (final_correction_of_unit _ Hunit).
  assert (Forall (fun x => 0 <= x) (Prize.probability <$> table)) as Hnonneg.
  { rewrite Hprobs. apply Forall_fmap. eapply Forall_impl; [exact Hraw|].
    intros p Hp. cbn in Hp |- *.
    apply Qmult_le_0_compat; [apply Qmult_le_0_compat; lra|].
    apply Qlt_le_weak, Qinv_lt_0_compat. lra. }
  apply Forall_forall. intros p Hp. split.
  - eapply Forall_forall in Hnonneg; [exact Hnonneg|].
    apply list_elem_of_fmap. exists p. auto.
  - unfold total_probability in Hunit. rewrite <- Hunit.
    apply py_sum_elem_le; [exact Hnonneg|]. apply list_elem_of_fmap. exists p. auto.
Qed.

Lemma valid_of_zero (p : Prize.t) : Prize.probability p == 0 -> valid_probability p.
Proof. intros H. unfold valid_probability. lra. Qed.

(** The filler-anchored method, after the tests that lead to it: the
    required probability of the filler lies between 0 and 1. *)
Lemma anchored_valid (l1 l2 : list Prize.t) (filler : Prize.t) (req : Q) :
  Forall (fun p => 0 <= Prize.probability p) l1 ->
  Forall (fun p => 0 <= Prize.probability p) l2 ->
  0 <= req -> req <= 1 ->
  let fi := length l1 in
  let prizes := (l1 ++ filler :: l2)%list in
  let non_filler_prob := sum_except fi Prize.probability prizes in
  Forall valid_probability
    (final_correction
       (imap (fun i p => if bool_decide (i = fi) then Prize.set_probability req p else p)
          (if Qlt_bool 0 non_filler_prob then
             imap (fun i p =>
                     if bool_decide (i <> fi)
                     then Prize.set_probability
                            (Prize.probability p * ((1 - req) / non_filler_prob)) p
                     else p) prizes
           else prizes))).
Proof.
  intros H1 H2 Hreq0 Hreq1 fi prizes non_filler_prob.
  pose proof (sum_except_at Prize.probability fi l1 l2 filler eq_refl) as Hnfp.
  fold prizes in Hnfp. fold non_filler_prob in Hnfp.
  assert (Forall (fun x => 0 <= x) (Prize.probability <$> l1)) as H1' by (apply Forall_fmap, H1).
  assert (Forall (fun x => 0 <= x) (Prize.probability <$> l2)) as H2' by (apply Forall_fmap, H2).
  pose proof (py_sum_nonneg _ H1') as Hs1. pose proof (py_sum_nonneg _ H2') as Hs2.
  assert (forall p, p ∈ l1 \/ p ∈ l2 ->
                    0 <= Prize.probability p /\ Prize.probability p <= non_filler_prob) as Hle.
  { intros p [Hp|Hp].
    - split; [eapply Forall_forall in H1; eauto|].
      assert (Prize.probability p <= py_sum (Prize.probability <$> l1)); [|lra].
      apply py_sum_elem_le; [exact H1'|]. apply list_elem_of_fmap. exists p. auto.
    - split; [eapply Forall_forall in H2; eauto|].
      assert (Prize.probability p <= py_sum (Prize.probability <$> l2)); [|lra].
      apply py_sum_elem_le; [exact H2'|]. apply list_elem_of_fmap. exists p. auto. }
  destruct (Qlt_bool 0 non_filler_prob) eqn:Hpos.
  - apply Qlt_bool_iff in Hpos.
    set (scale := (1 - req) / non_filler_prob).
    assert (scale * non_filler_prob == 1 - req) as Hscale by (subst scale; field; lra).
    assert (0 <= scale) as Hscale0.
    { subst scale. apply Qle_shift_div_l; [exact Hpos|]. lra. }
    subst prizes.
    rewrite (imap_not_at fi (fun p => p)
               (fun p => Prize.set_probability (Prize.probability p * scale) p)
               l1 l2 filler eq_refl).
    rewrite (imap_at fi (Prize.set_probability req) (fun p => p) _ _ filler)
      by (rewrite length_fmap; reflexivity).
    rewrite !list_fmap_id.
    set (table := (_ ++ _ :: _)%list).
    assert (total_probability table == 1) as Hunit.
    { unfold total_probability. subst table.
      rewrite fmap_app, fmap_cons, !set_probability_fmap. cbn [Prize.probability Prize.set_probability].
      rewrite py_sum_app, py_sum_cons.
      rewrite !(py_sum_scale Prize.probability scale).
      assert (scale * (py_sum (Prize.probability <$> l1) + py_sum (Prize.probability <$> l2))
              == 1 - req) as Hscale' by (rewrite <- Hnfp; exact Hscale).
      lra. }
    rewrite (final_correction_of_unit _ Hunit). subst table.
    assert (forall p, p ∈ l1 \/ p ∈ l2 ->
              valid_probability (Prize.set_probability (Prize.probability p * scale) p)) as Hv.
    { intros p Hp. destruct (Hle p Hp) as [Hp0 Hp1]. unfold valid_probability. cbn. split.
      - apply Qmult_le_0_compat; assumption.
      - assert (0 <= (non_filler_prob - Prize.probability p) * scale)
          by (apply Qmult_le_0_compat; lra).
        lra. }
    apply Forall_app. split; [|constructor].
    + apply Forall_fmap, Forall_forall. intros p Hp. apply Hv. left. exact Hp.
    + unfold valid_probability. cbn. lra.
    + apply Forall_fmap, Forall_forall. intros p Hp. apply Hv. right. exact Hp.
  - apply Qlt_bool_false in Hpos.
    assert (forall p, p ∈ l1 \/ p ∈ l2 -> Prize.probability p == 0) as Hzero.
    { intros p Hp. destruct (Hle p Hp). lra. }
    subst prizes.
    rewrite (imap_at fi (Prize.set_probability req) (fun p => p) l1 l2 filler eq_refl).
    rewrite !list_fmap_id.
    assert (Forall valid_probability l1) as Hv1
      by (apply Forall_forall; intros p Hp; apply valid_of_zero, Hzero; auto).
    assert (Forall valid_probability l2) as Hv2
      by (apply Forall_forall; intros p Hp; apply valid_of_zero, Hzero; auto).
    assert (valid_probability (Prize.set_probability req filler)) as Hvf
      by (unfold valid_probability; cbn; lra).
    unfold final_correction.
    set (sum_probs := py_sum _).
    assert (sum_probs == req) as Hsum.
    { subst sum_probs. rewrite fmap_app, fmap_cons, py_sum_app, py_sum_cons.
      cbn [Prize.probability Prize.set_probability]. lra. }
    clearbody sum_probs.
    destruct (Qlt_bool float_1e_7 _).
    + destruct l1 as [|p0 l1]; cbn [app].
      * constructor; [|exact Hv2]. unfold valid_probability.
        cbn [Prize.probability Prize.set_probability]. lra.
      * apply Forall_cons in Hv1 as [_ Hv1]. constructor.
        -- assert (Prize.probability p0 == 0) by (apply Hzero; left; left).
           unfold valid_probability. cbn [Prize.probability Prize.set_probability]. lra.
        -- apply Forall_app. split; [exact Hv1|]. constructor; assumption.
    + apply Forall_app. split; [exact Hv1|]. constructor; assumption.
Qed.

(** X24.  When no raw weight of a case is negative, every probability of
    its calibrated table lies between 0 and 1, by either method of
    calibration. *)
Theorem calibrated_probabilities_are_valid
    (case_data : Case.t p_info_t) (all_floor_prices : gmap string Q) :
  Forall (fun p => 0 <= pi_probability p) (Case.prizes case_data) ->
  Forall valid_probability (calculate_rtp_probabilities case_data all_floor_prices).
Proof.
  intros Hraw. pose proof (fallback_valid _ all_floor_prices Hraw) as Hfb.
  apply (build_prizes_probabilities case_data all_floor_prices) in Hraw.
  unfold calculate_rtp_probabilities. cbv zeta.
  destruct (_ || _); [constructor|].
  destruct (filler_of _) as [[fi filler]|] eqn:Hfiller; [|exact Hfb].
  destruct (Qle_bool (Prize.floor_price filler) 0); [exact Hfb|].
  destruct (negb _) eqn:Hreq; [exact Hfb|].
  apply negb_false_iff, andb_true_iff in Hreq as [Hreq0 Hreq1].
  apply Qle_bool_iff in Hreq0, Hreq1.
  apply filler_of_at in Hfiller.
  destruct (list_elem_of_split_length _ _ _ Hfiller) as (l1 & l2 & Hsplit & ->).
  revert Hreq0 Hreq1. rewrite Hsplit in Hraw |- *.
  apply Forall_app in Hraw as [H1 H2]. apply Forall_cons in H2 as [_ H2].
  intros Hreq0 Hreq1.
  exact (anchored_valid l1 l2 filler _ H1 H2 Hreq0 Hreq1).
Qed.

(** The weights of the Lol Pop Stash are not negative, and the calibrated
    probability of its first prize lies between 0 and 1. *)
Lemma calibrated_probabilities_are_valid_witness :
  Forall (fun p => 0 <= pi_probability p) (Case.prizes case_lolpop)
  /\ exists p,
       head (calculate_rtp_probabilities case_lolpop UPDATED_FLOOR_PRICES) = Some p
       /\ valid_probability p.
Proof.
  assert (Forall (fun p => 0 <= pi_probability p) (Case.prizes case_lolpop)) as Hraw.
  { apply Forall_forall. intros p Hp. apply list_elem_of_In in Hp. revert p Hp.
    assert (forallb (fun p => Qle_bool 0 (pi_probability p)) (Case.prizes case_lolpop) = true)
      as Hall by (vm_compute; reflexivity).
    rewrite forallb_forall in Hall. intros p Hp. apply Qle_bool_iff, Hall, Hp. }
  split; [exact Hraw|].
  pose proof (calibrated_probabilities_are_valid case_lolpop UPDATED_FLOOR_PRICES Hraw) as Hall.
  destruct (calculate_rtp_probabilities case_lolpop UPDATED_FLOOR_PRICES) as [|p table] eqn:E;
    [vm_compute in E; discriminate|].
  exists p. split; [reflexivity|]. apply Forall_cons in Hall. tauto.
Defined.

(** ** The sampler follows the weights *)

Lemma py_sum_take_mono (l : list Q) (i j : nat) :
  Forall (fun w => 0 <= w) l -> (i <= j)%nat -> py_sum (take i l) <= py_sum (take j l).
Proof.
  intros Hall. revert i j. induction Hall as [|w l Hw Hall IH]; intros i j Hij.
  - rewrite !take_nil. lra.
  - destruct i as [|i], j as [|j]; try lia; cbn [firstn].
    + lra.
    + rewrite py_sum_cons, ?take_0. change (py_sum []) with 0.
      pose proof (py_sum_nonneg (take j l) (Forall_take _ _ _ Hall)). lra.
    + rewrite !py_sum_cons. specialize (IH i j ltac:(lia)). lra.
Qed.

Lemma accumulate_from_lookup (acc : Q) (l : list Q) (i : nat) (c : Q) :
  accumulate_from acc l !! i = Some c -> c == acc + py_sum (take (S i) l).
Proof.
  revert acc i. induction l as [|w l IH]; intros acc i; [discriminate|].
  destruct i as [|i]; cbn [accumulate_from lookup list_lookup].
  - intros [= <-]. cbn [firstn]. rewrite py_sum_cons, take_0. change (py_sum []) with 0. lra.
  - intros H%IH. rewrite H. change (take (S (S i)) (w :: l)) with (w :: take (S i) l).
    rewrite py_sum_cons. lra.
Qed.

Lemma accumulate_lookup (l : list Q) (i : nat) (c : Q) :
  accumulate l !! i = Some c -> c == py_sum (take (S i) l).
Proof. intros H%accumulate_from_lookup. lra. Qed.

Lemma accumulate_ascending (l : list Q) : Forall (fun w => 0 <= w) l -> ascending (accumulate l).
Proof.
  intros Hall i j u v Hij Hu%accumulate_lookup Hv%accumulate_lookup.
  rewrite Hu, Hv. apply py_sum_take_mono; [exact Hall|lia].
Qed.

(** [bisect_right] on an ascending list: every entry before the position
    returned is at most [x], and every entry from it on, up to the original
    upper bound [top], is above [x]. *)
Lemma bisect_loop_spec (a : list Q) (x : Q) (top : nat) :
  ascending a -> (top <= length a)%nat ->
  forall fuel lo hi,
    (lo <= hi)%nat -> (hi <= top)%nat -> (hi - lo <= fuel)%nat ->
    (forall j u, (j < lo)%nat -> a !! j = Some u -> u <= x) ->
    (forall j u, (hi <= j < top)%nat -> a !! j = Some u -> x < u) ->
    (forall j u, (j < bisect_loop fuel a x lo hi)%nat -> a !! j = Some u -> u <= x)
    /\ (forall j u, (bisect_loop fuel a x lo hi <= j < top)%nat -> a !! j = Some u -> x < u).
Proof.
  intros Hasc Htop. induction fuel as [|fuel IH]; intros lo hi Hle Hhi Hfuel Hlow Hup.
  - cbn [bisect_loop]. split; [exact Hlow|]. intros j u Hj. apply Hup. lia.
  - change (bisect_loop (S fuel) a x lo hi)
      with (if bool_decide (lo < hi)%nat then
              if Qlt_bool x (default 0 (a !! ((lo + hi) `div` 2)%nat))
              then bisect_loop fuel a x lo ((lo + hi) `div` 2)%nat
              else bisect_loop fuel a x ((lo + hi) `div` 2 + 1)%nat hi
            else lo).
    case_bool_decide as Hlt; [|split; [exact Hlow|intros j u Hj; apply Hup; lia]].
    assert (lo <= (lo + hi) `div` 2 < hi)%nat as Hmid.
    { split; [apply Nat.div_le_lower_bound | apply Nat.Div0.div_lt_upper_bound]; lia. }
    set (mid := ((lo + hi) `div` 2)%nat) in *.
    destruct (lookup_lt_is_Some_2 a mid ltac:(lia)) as [m Hm]. rewrite Hm.
    change (default 0 (Some m)) with m.
    destruct (Qlt_bool x m) eqn:E.
    + apply Qlt_bool_iff in E. apply IH; [lia|lia|lia|exact Hlow|].
      intros j u Hj Hu. pose proof (Hasc mid j m u ltac:(lia) Hm Hu). lra.
    + apply Qlt_bool_false in E. apply IH; [lia|lia|lia| |exact Hup].
      intros j u Hj Hu. pose proof (Hasc j mid u m ltac:(lia) Hu Hm). lra.
Qed.

(** The draw, located in the cumulated weights. *)
Lemma choices_interval {A : Type}
    (population : list A) (weights : list Q) (r : Q) (chosen : A) :
  Forall (fun w => 0 <= w) weights ->
  0 <= r -> r < 1 ->
  choices population weights r = Some chosen ->
  exists i w,
    population !! i = Some chosen
    /\ weights !! i = Some w
    /\ py_sum (take i weights) <= r * py_sum weights
    /\ r * py_sum weights < py_sum (take i weights) + w
    /\ 0 < w.
Proof.
  intros Hall Hr0 Hr1. unfold choices.
  case_bool_decide as Hlen; [discriminate|].
  unfold accumulate in Hlen. rewrite length_accumulate_from in Hlen.
  destruct (last (accumulate weights)) as [total|] eqn:Hlast; [|discriminate].
  destruct (Qle_bool total 0) eqn:Htotal; [discriminate|]. apply Qle_bool_false in Htotal.
  set (n := length population) in *.
  assert (length (accumulate weights) = n) as Hacc
    by (unfold accumulate; rewrite length_accumulate_from; exact Hlen).
  assert (0 < n)%nat as Hn.
  { rewrite <- Hacc. destruct (accumulate weights); [discriminate|cbn; lia]. }
  rewrite last_lookup, Hacc in Hlast.
  assert (total == py_sum weights) as Htot.
  { rewrite (accumulate_lookup _ _ _ Hlast).
    replace (S (Init.Nat.pred n)) with n by lia.
    rewrite take_ge by lia. reflexivity. }
  unfold bisect. set (i := bisect_loop _ _ _ _ _).
  pose proof (bisect_loop_bounds (n - 1 - 0) (accumulate weights) (r * total) 0 (n - 1)
                ltac:(lia)) as Hbounds. fold i in Hbounds.
  destruct (bisect_loop_spec (accumulate weights) (r * total) (n - 1)
              (accumulate_ascending _ Hall) ltac:(lia) (n - 1 - 0) 0 (n - 1)
              ltac:(lia) ltac:(lia) ltac:(lia))
    as [Hlow Hup]; [intros j u Hj; lia|intros j u Hj; lia|]. fold i in Hlow, Hup.
  intros Hchosen.
  destruct (lookup_lt_is_Some_2 weights i ltac:(lia)) as [w Hw].
  destruct (lookup_lt_is_Some_2 (accumulate weights) i ltac:(lia)) as [c Hc].
  pose proof (accumulate_lookup _ _ _ Hc) as Hcsum.
  assert (py_sum (take (S i) weights) == py_sum (take i weights) + w) as Hstep.
  { rewrite (take_S_r _ _ _ Hw), py_sum_app, py_sum_cons. change (py_sum []) with 0. lra. }
  assert (py_sum (take i weights) <= r * total) as Hbelow.
  { destruct i as [|i'].
    - cbn [firstn]. change (py_sum []) with 0. apply Qmult_le_0_compat; lra.
    - destruct (lookup_lt_is_Some_2 (accumulate weights) i' ltac:(lia)) as [c' Hc'].
      rewrite <- (accumulate_lookup _ _ _ Hc'). apply (Hlow i' c'); [lia|exact Hc']. }
  assert (r * total < c) as Habove.
  { destruct (decide (i = n - 1)%nat) as [Heq|Hne].
    - assert (c = total) as -> by (rewrite Heq in Hc; replace (n - 1)%nat with (Init.Nat.pred n) in Hc by lia; congruence).
      assert (0 < (1 - r) * total) by (apply Qmult_lt_0_compat; lra). lra.
    - apply (Hup i c); [lia|exact Hc]. }
  exists i, w. split; [exact Hchosen|]. split; [exact Hw|].
  rewrite <- Htot. split; [exact Hbelow|]. split; lra.
Qed.

(** X25.  A draw follows the weights: with weights that are not negative
    and a random number [r] in [[0, 1)], the entry chosen is the one whose
    interval of cumulated weight holds [r * total]: the weights before it sum to
    at most [r * total], the weights up to it to more.  So the weight of the
    entry chosen is positive: an entry of weight zero is never drawn. *)
Theorem choices_follows_the_weights {A : Type}
    (population : list A) (weights : list Q) (r : Q) (chosen : A) :
  Forall (fun w => 0 <= w) weights ->
  0 <= r -> r < 1 ->
  choices population weights r = Some chosen ->
  exists i w,
    population !! i = Some chosen
    /\ weights !! i = Some w
    /\ py_sum (take i weights) <= r * py_sum weights
    /\ r * py_sum weights < py_sum (take i weights) + w
    /\ 0 < w.
Proof.
  intros Hall Hr0 Hr1 Hchosen.
  exact (choices_interval population weights r chosen Hall Hr0 Hr1 Hchosen).
Qed.

(** With weights 0, 1 and 3 and the random number 0.1, the draw takes the
    second entry, not the first, whose weight is zero. *)
Lemma choices_follows_the_weights_witness :
  Forall (fun w => 0 <= w) [0; 1; 3]
  /\ choices ["a"; "b"; "c"] [0; 1; 3] 0.1 = Some "b"
  /\ exists i w, ["a"; "b"; "c"] !! i = Some "b" /\ [0; 1; 3] !! i = Some w /\ 0 < w.
Proof.
  assert (Forall (fun w => 0 <= w) [0; 1; 3]) as Hall
    by (repeat constructor; vm_compute; discriminate).
  assert (choices ["a"; "b"; "c"] [0; 1; 3] 0.1 = Some "b") as Hc by (vm_compute; reflexivity).
  split; [exact Hall|]. split; [exact Hc|].
  destruct (choices_follows_the_weights ["a"; "b"; "c"] [0; 1; 3] 0.1 "b" Hall)
    as (i & w & Hi & Hw & _ & _ & Hpos); [vm_compute; discriminate|reflexivity|exact Hc|].
  exists i, w. split; [exact Hi|]. split; [exact Hw|exact Hpos].
Defined.

(** ** What the calibration keeps *)

Lemma without_probability_set (q : Q) (p : Prize.t) :
  without_probability (Prize.set_probability q p) = without_probability p.
Proof. reflexivity. Qed.

Lemma without_probability_imap (f : nat -> Prize.t -> Prize.t) (l : list Prize.t) :
  (forall i p, without_probability (f i p) = without_probability p) ->
  without_probability <$> imap f l = without_probability <$> l.
Proof.
  intros Hf. rewrite fmap_imap, <- imap_const. apply imap_ext. intros i p _. apply Hf.
Qed.

Lemma without_probability_final (l : list Prize.t) :
  without_probability <$> final_correction l = without_probability <$> l.
Proof.
  unfold final_correction. destruct (Qlt_bool _ _); [|reflexivity].
  destruct l as [|p0 rest]; reflexivity.
Qed.

Lemma without_probability_fallback (case_data : Case.t p_info_t) (floors : gmap string Q) :
  calculate_rtp_probabilities_proportional_fallback case_data floors = []
  \/ without_probability <$> calculate_rtp_probabilities_proportional_fallback case_data floors
     = without_probability <$> build_prizes case_data floors.
Proof.
  unfold calculate_rtp_probabilities_proportional_fallback. cbv zeta.
  destruct (Qle_bool _ 0); [left; reflexivity|].
  destruct (Qle_bool _ 0); [left; reflexivity|]. right.
  rewrite without_probability_final, <- !list_fmap_compose.
  apply list_fmap_ext. intros i p _. reflexivity.
Qed.

(** X26.  The calibration changes probabilities only: a calibrated table
    that is not empty lists the prizes of the case in their order, each with
    the name, the floor price, the image reference and the TON flag that the
    case definition and the price catalog give it. *)
Theorem calibration_changes_probabilities_only
    (case_data : Case.t p_info_t) (all_floor_prices : gmap string Q) :
  calculate_rtp_probabilities case_data all_floor_prices = []
  \/ without_probability <$> calculate_rtp_probabilities case_data all_floor_prices
     = without_probability <$> build_prizes case_data all_floor_prices.
Proof.
  pose proof (without_probability_fallback case_data all_floor_prices) as Hfb.
  unfold calculate_rtp_probabilities. cbv zeta.
  destruct (_ || _); [left; reflexivity|].
  destruct (filler_of _) as [[fi filler]|]; [|exact Hfb].
  destruct (Qle_bool _ 0); [exact Hfb|].
  destruct (negb _); [exact Hfb|]. right.
  rewrite without_probability_final.
  rewrite without_probability_imap by (intros i p; destruct (bool_decide _); reflexivity).
  destruct (Qlt_bool 0 _); [|reflexivity].
  apply without_probability_imap. intros i p. destruct (bool_decide _); reflexivity.
Qed.

(** The calibrated Lol Pop Stash keeps its fifteen prizes, the most valuable
    first. *)
Example lolpop_keeps_its_prizes :
  Prize.name <$> calculate_rtp_probabilities case_lolpop UPDATED_FLOOR_PRICES
  = pi_name <$> Case.prizes case_lolpop
  /\ head (pi_name <$> Case.prizes case_lolpop) = Some "Plush Pepe"
  /\ length (calculate_rtp_probabilities case_lolpop UPDATED_FLOOR_PRICES) = 15%nat.
Proof. repeat split; vm_compute; reflexivity. Qed.

(** ** The withdrawal and the non-empty table on sample data *)

Lemma catalog_floors_non_negative : floors_non_negative UPDATED_FLOOR_PRICES.
Proof.
  intros name v Hin%catalog_items. apply list_elem_of_In in Hin. revert Hin.
  assert (forallb (fun kv : string * Q => Qle_bool 0 kv.2) UPDATED_FLOOR_PRICES_items = true)
    as Hall by (vm_compute; reflexivity).
  rewrite forallb_forall in Hall. intros Hin. apply Qle_bool_iff. exact (Hall _ Hin).
Qed.

(** The Lol Pop Stash has a positive price, positive weights and prizes with
    a positive floor price: its calibrated table is not empty. *)
Lemma calibrated_table_nonempty_witness :
  0 < Case.priceTON case_lolpop
  /\ Forall (fun p => 0 < pi_probability p) (Case.prizes case_lolpop)
  /\ floors_non_negative UPDATED_FLOOR_PRICES
  /\ Exists (fun p => 0 < default 0 (UPDATED_FLOOR_PRICES !! pi_name p)) (Case.prizes case_lolpop)
  /\ calculate_rtp_probabilities case_lolpop UPDATED_FLOOR_PRICES <> [].
Proof.
  assert (0 < Case.priceTON case_lolpop) as Hprice by (vm_compute; reflexivity).
  assert (Forall (fun p => 0 < pi_probability p) (Case.prizes case_lolpop)) as Hweights.
  { apply Forall_forall. intros p Hp. apply list_elem_of_In in Hp. revert p Hp.
    assert (forallb (fun p => Qlt_bool 0 (pi_probability p)) (Case.prizes case_lolpop) = true)
      as Hall by (vm_compute; reflexivity).
    rewrite forallb_forall in Hall. intros p Hp. apply Qlt_bool_iff, Hall, Hp. }
  assert (Exists (fun p => 0 < default 0 (UPDATED_FLOOR_PRICES !! pi_name p))
            (Case.prizes case_lolpop)) as Hvalued.
  { apply Exists_exists. exists (p_info "Plush Pepe" 0.0000001 None None). split.
    - apply list_elem_of_In. vm_compute. left. reflexivity.
    - vm_compute. reflexivity. }
  split; [exact Hprice|]. split; [exact Hweights|].
  split; [exact catalog_floors_non_negative|]. split; [exact Hvalued|].
  exact (calibrated_table_nonempty case_lolpop UPDATED_FLOOR_PRICES Hprice Hweights
           catalog_floors_non_negative Hvalued).
Defined.

(** The account 7 withdraws its Lol Pop and the service delivers it: the
    item leaves the inventory. *)
Lemma withdraw_gift_deletes_iff_delivered_witness :
  auth_username auth_alice = Some "alice"
  /\ str_truthy (Some "alice") = true
  /\ 1%Z <> 0%Z
  /\ item_of_user 1 (auth_id auth_alice) db_one_gift = Some (0%nat, lol_pop_item)
  /\ InventoryItem.is_ton_prize lol_pop_item = false
  /\ inventory_items
       (withdraw_gift_api (Some auth_alice) (Some 1%Z) always_delivered db_one_gift).1.2 = [].
Proof.
  assert (1%Z <> 0%Z) as Hid by discriminate.
  split; [reflexivity|]. split; [reflexivity|]. split; [exact Hid|].
  split; [reflexivity|]. split; [reflexivity|].
  destruct (withdraw_gift_deletes_iff_delivered auth_alice "alice" 1 always_delivered db_one_gift
              0 lol_pop_item eq_refl eq_refl Hid eq_refl eq_refl) as (_ & Hdelivered & _).
  destruct (Hdelivered eq_refl) as [Hdb _]. rewrite Hdb. reflexivity.
Defined.

(** ** Top-up *)



(** ** The roll of an upgrade *)

Lemma upgrade_chance_bounds (decimal_pow_frac : Q -> Q -> Q) (val_current val_desired : Q) :
  3 <= upgrade_chance decimal_pow_frac val_current val_desired <= 75.
Proof.
  unfold upgrade_chance. set (v := UPGRADE_MAX_CHANCE * _).
  destruct (py_max_spec UPGRADE_MIN_CHANCE v) as (Hlo & _ & _).
  destruct (py_min_spec UPGRADE_MAX_CHANCE (py_max UPGRADE_MIN_CHANCE v)) as (Hhi & _ & Hc).
  set (m := py_max UPGRADE_MIN_CHANCE v) in *.
  set (c := py_min UPGRADE_MAX_CHANCE m) in *.
  change UPGRADE_MIN_CHANCE with 3.0 in Hlo. change UPGRADE_MAX_CHANCE with 75.0 in Hhi, Hc.
  destruct Hc as [Hc|Hc]; rewrite Hc in *; split; lra.
Qed.

(** X28.  The roll decides at the bounds of the chance, whatever the two
    values: a valid upgrade whose roll is 75 or more always fails and deletes
    the item, and one whose roll is below 3 always succeeds and adds the desired
    gift. *)
Theorem upgrade_outcome_at_the_bounds
    (decimal_pow_frac : Q -> Q -> Q) (auth : auth_data) (item_id : Z) (desired_name : string)
    (roll : Q) (db : DB) (ui : nat) (user : User.t) (ii : nat) (item : InventoryItem.t)
    (ni : nat) (desired_nft : NFT.t) :
  item_id <> 0%Z ->
  str_truthy (Some desired_name) = true ->
  user_by_id (auth_id auth) db = Some (ui, user) ->
  item_of_user item_id (auth_id auth) db = Some (ii, item) ->
  nft_by_name desired_name db = Some (ni, desired_nft) ->
  InventoryItem.is_ton_prize item = false ->
  0 < InventoryItem.current_value item ->
  InventoryItem.current_value item < NFT.floor_price desired_nft ->
  (75 <= roll ->
   (upgrade_item_v2_api decimal_pow_frac (Some auth) (Some item_id) (Some desired_name) roll
      db).1
   = Reply (JObj [("status", JStr "failed"); ("item_lost", JBool true)]) 200
   /\ inventory_items
        (upgrade_item_v2_api decimal_pow_frac (Some auth) (Some item_id) (Some desired_name)
           roll db).2
      = delete ii (inventory_items db))
  /\ (roll < 3 ->
      exists new_item,
        inventory_items
          (upgrade_item_v2_api decimal_pow_frac (Some auth) (Some item_id) (Some desired_name)
             roll db).2
        = (delete ii (inventory_items db) ++ [new_item])%list
        /\ InventoryItem.user_id new_item = auth_id auth
        /\ InventoryItem.item_name_override new_item = Some (NFT.name desired_nft)
        /\ InventoryItem.current_value new_item = NFT.floor_price desired_nft).
Proof.
  intros Hid Hname Huser Hitem Hnft Hton Hpos Hmore.
  pose proof (upgrade_chance_bounds decimal_pow_frac (InventoryItem.current_value item)
                (NFT.floor_price desired_nft)) as [Hlo Hhi].
  unfold upgrade_item_v2_api.
  rewrite Hname, Huser, Hitem, Hnft, Hton.
  rewrite (bool_decide_false (item_id = 0%Z)) by exact Hid.
  apply Qle_bool_false in Hpos, Hmore. rewrite Hpos, Hmore. cbn [negb orb]. cbv iota.
  split.
  - intros Hroll.
    assert (Qlt_bool roll (upgrade_chance decimal_pow_frac (InventoryItem.current_value item)
                             (NFT.floor_price desired_nft)) = false) as ->
      by (apply Qlt_bool_false; lra).
    split; reflexivity.
  - intros Hroll.
    assert (Qlt_bool roll (upgrade_chance decimal_pow_frac (InventoryItem.current_value item)
                             (NFT.floor_price desired_nft)) = true) as ->
      by (apply Qlt_bool_iff; lra).
    eexists. split; [reflexivity|]. repeat split.
Qed.

(** The Party Sparkler, worth 2.0, upgraded towards the Record Player, worth
    4.0, with a roll of 80: the item is lost. *)
Lemma upgrade_outcome_at_the_bounds_witness :
  1%Z <> 0%Z
  /\ str_truthy (Some "Record Player") = true
  /\ user_by_id (auth_id auth_alice) db_upgrade = Some (0%nat, alice)
  /\ item_of_user 1 (auth_id auth_alice) db_upgrade = Some (0%nat, sparkler_item)
  /\ nft_by_name "Record Player" db_upgrade = Some (0%nat, record_player)
  /\ InventoryItem.is_ton_prize sparkler_item = false
  /\ 0 < InventoryItem.current_value sparkler_item
  /\ InventoryItem.current_value sparkler_item < NFT.floor_price record_player
  /\ 75 <= 80
  /\ inventory_items
       (upgrade_item_v2_api no_pow (Some auth_alice) (Some 1%Z) (Some "Record Player") 80
          db_upgrade).2 = [].
Proof.
  assert (1%Z <> 0%Z) as H1 by discriminate.
  assert (0 < InventoryItem.current_value sparkler_item) as H7 by reflexivity.
  assert (InventoryItem.current_value sparkler_item < NFT.floor_price record_player) as H8
    by reflexivity.
  assert (75 <= 80) as H9 by (vm_compute; discriminate).
  repeat (split; [first [assumption | reflexivity]|]).
  destruct (upgrade_outcome_at_the_bounds no_pow auth_alice 1 "Record Player" 80 db_upgrade
              0 alice 0 sparkler_item 0 record_player
              H1 eq_refl eq_refl eq_refl eq_refl eq_refl H7 H8) as [Hfail _].
  destruct (Hfail H9) as [_ Hitems]. rewrite Hitems. reflexivity.
Defined.

(** ** A prize of probability zero is never won *)





(** With the weights 0 and 1 the first prize is never drawn, whatever the
    random number in [[0, 1)]. *)
Example zero_weight_never_drawn (r : Q) (chosen : Prize.t) :
  0 <= r -> r < 1 ->
  choices coin_table (Prize.probability <$> coin_table) r = Some chosen ->
  Prize.name chosen = "Lol Pop".
Proof.
  intros Hr0 Hr1 Hc.
  assert (Forall (fun w => 0 <= w) (Prize.probability <$> coin_table)) as Hall
    by (repeat constructor; vm_compute; discriminate).
  destruct (choices_interval _ _ _ _ Hall Hr0 Hr1 Hc) as (i & w & Hi & Hw & _ & _ & Hpos).
  destruct i as [|[|i]]; cbn in Hi, Hw.
  - injection Hw as <-. vm_compute in Hpos. discriminate.
  - injection Hi as <-. reflexivity.
  - discriminate.
Qed.
